(** * Directory Structure Agent: a shallow embedding and its properties

    The development follows the Python sources file by file
    ([models.py], [utils.py], [services.py], [agent.py]).

    Conventions of the embedding.
    - A Python [str] is a Rocq [string] holding the UTF-8 bytes of the text.
      Concatenation, [join], equality, substring search, splitting at an
      ASCII character and the code-point order used by [sorted] are the same
      on bytes and on code points.  [str.lower] and [str.strip] follow the
      Unicode tables and are Section variables ([str_lower], [str_strip]);
      [lower] and [strip] compute what they do on ASCII text.
    - JSON-like Python objects are the inductive [value]; a [dict] is an
      insertion-ordered association list whose first binding of a key is the
      live one.
    - A call that may raise returns a [result]; functions that catch
      everything return a Python value, [VNone] standing for [None].
    - Library and network collaborators ([json.loads], [json.dumps],
      [hashlib.md5], the chat completion endpoint, the sentence encoder, the
      floating-point similarity and its comparison, the clock) are Section
      variables: every theorem holds for any behaviour of theirs.  A
      concrete JSON decoder ([json_decode]) is provided to run the parser on
      sample texts, and IEEE single precision ([SpecFloat]) to run the
      ranker on sample vectors. *)

From Stdlib Require Import List String Ascii ZArith QArith Bool Arith Lia.
From Stdlib Require Import Permutation Sorted SpecFloat.
Import ListNotations.
Close Scope Q_scope.
Open Scope nat_scope.
Open Scope list_scope.
Open Scope string_scope.

Set Implicit Arguments.

(* ================================================================= *)
(** ** Python values, exceptions *)

Unset Elimination Schemes.
Inductive value : Type :=
| VNone
| VBool (b : bool)
| VInt (z : Z)
| VFloat (q : Q)
| VStr (s : string)
| VList (items : list value)
| VDict (fields : list (string * value)).
Set Elimination Schemes.

Inductive exn : Type :=
| AttributeError
| KeyError
| TypeError
| ValueError
| RecursionError.

Inductive result (A : Type) : Type :=
| Ok (a : A)
| Raise (e : exn).

Arguments Ok {A} a.
Arguments Raise {A} e.

Definition bind {A B : Type} (r : result A) (k : A -> result B) : result B :=
  match r with
  | Ok a => k a
  | Raise e => Raise e
  end.

Notation "x <- r ;; k" := (bind r (fun x => k))
  (at level 61, r at next level, right associativity).

(** [bool(v)]: Python truthiness. *)
Definition truthy (v : value) : bool :=
  match v with
  | VNone => false
  | VBool b => b
  | VInt z => negb (Z.eqb z 0)
  | VFloat q => negb (Qeq_bool q 0)
  | VStr s => negb (String.eqb s "")
  | VList items => match items with [] => false | _ => true end
  | VDict fields => match fields with [] => false | _ => true end
  end.

(** [v == s] for a string [s]: only an equal [str] compares equal. *)
Definition eq_str (v : value) (s : string) : bool :=
  match v with
  | VStr t => String.eqb t s
  | _ => false
  end.

(** *** dict operations *)

Fixpoint dict_get (k : string) (d : list (string * value)) : option value :=
  match d with
  | [] => None
  | (k', v) :: rest => if String.eqb k' k then Some v else dict_get k rest
  end.

Definition dict_has (k : string) (d : list (string * value)) : bool :=
  match dict_get k d with
  | Some _ => true
  | None => false
  end.

(** [d[k] = v]: overwrite in place, or add at the end. *)
Fixpoint dict_set (k : string) (v : value) (d : list (string * value))
  : list (string * value) :=
  match d with
  | [] => [(k, v)]
  | (k', v') :: rest =>
      if String.eqb k' k then (k', v) :: rest else (k', v') :: dict_set k v rest
  end.

(** [item.get(k)] and [item.get(k, default)]; only a dict has [get]. *)
Definition get_method (item : value) (k : string) (default : value)
  : result value :=
  match item with
  | VDict d => Ok (match dict_get k d with Some v => v | None => default end)
  | _ => Raise AttributeError
  end.

(** [obj[k]] with a string key. *)
Definition subscript (obj : value) (k : string) : result value :=
  match obj with
  | VDict d => match dict_get k d with
               | Some v => Ok v
               | None => Raise KeyError
               end
  | _ => Raise TypeError
  end.

(** [for item in v]: the elements a loop over [v] visits. *)
Definition iter_items (v : value) : result (list value) :=
  match v with
  | VList items => Ok items
  | VStr s => Ok (map (fun c => VStr (String c "")) (list_ascii_of_string s))
  | VDict d => Ok (map (fun kv => VStr (fst kv)) d)
  | _ => Raise TypeError
  end.

(* ================================================================= *)
(** ** Strings *)

Definition dquote : ascii := ascii_of_nat 34.
Definition newline : ascii := ascii_of_nat 10.

(** Writes a text that contains double quotes with apostrophes instead. *)
Fixpoint with_dquotes (s : string) : string :=
  match s with
  | EmptyString => EmptyString
  | String c r =>
      String (if Ascii.eqb c "'" then dquote else c) (with_dquotes r)
  end.

(** [str.isspace] on an ASCII character: TAB..CR, FS..US and the space. *)
Definition is_space (c : ascii) : bool :=
  let n := nat_of_ascii c in
  (((9 <=? n) && (n <=? 13)) || ((28 <=? n) && (n <=? 32)))%nat.

Fixpoint lstrip (s : string) : string :=
  match s with
  | EmptyString => EmptyString
  | String c r => if is_space c then lstrip r else s
  end.

Fixpoint rstrip (s : string) : string :=
  match s with
  | EmptyString => EmptyString
  | String c r =>
      match rstrip r with
      | EmptyString => if is_space c then EmptyString else String c EmptyString
      | r' => String c r'
      end
  end.

(** [s.strip()] for an ASCII [s]. *)
Definition strip (s : string) : string := rstrip (lstrip s).

Definition lower_char (c : ascii) : ascii :=
  let n := nat_of_ascii c in
  if ((65 <=? n) && (n <=? 90))%nat then ascii_of_nat (n + 32) else c.

(** [s.lower()] for an ASCII [s]. *)
Fixpoint lower (s : string) : string :=
  match s with
  | EmptyString => EmptyString
  | String c r => String (lower_char c) (lower r)
  end.

(** The text holds ASCII characters only: no byte of a longer UTF-8
    sequence. *)
Fixpoint is_ascii (s : string) : bool :=
  match s with
  | EmptyString => true
  | String c r => (nat_of_ascii c <? 128)%nat && is_ascii r
  end.

(** [needle in hay] *)
Fixpoint contains (needle hay : string) : bool :=
  String.prefix needle hay ||
  match hay with
  | EmptyString => false
  | String _ r => contains needle r
  end.

(** [s.startswith(p)] *)
Definition startswith (s p : string) : bool := String.prefix p s.

(** [s.split(c)] for a one-character separator. *)
Fixpoint split (c : ascii) (s : string) : list string :=
  match s with
  | EmptyString => [EmptyString]
  | String a r =>
      if Ascii.eqb a c then EmptyString :: split c r
      else match split c r with
           | h :: t => String a h :: t
           | [] => [String a EmptyString]
           end
  end.

(** [s.split(c, 1)[1]]: what follows the first [c].  Every caller has
    checked that [c] occurs; the empty string stands for the missing case. *)
Fixpoint after_first (c : ascii) (s : string) : string :=
  match s with
  | EmptyString => EmptyString
  | String a r => if Ascii.eqb a c then r else after_first c r
  end.

(** [sep.join(parts)] *)
Definition join (sep : string) (parts : list string) : string :=
  String.concat sep parts.

(** [str(b)] for a bool, as an f-string prints it. *)
Definition str_bool (b : bool) : string := if b then "True" else "False".

Definition digit_char (n : nat) : ascii := ascii_of_nat (48 + n).

Fixpoint str_nat_aux (fuel n : nat) (acc : string) : string :=
  match fuel with
  | O => acc
  | S fuel' =>
      let acc' := String (digit_char (n mod 10)) acc in
      if (n <? 10)%nat then acc' else str_nat_aux fuel' (n / 10) acc'
  end.

(** [str(n)] for a non-negative int. *)
Definition str_nat (n : nat) : string := str_nat_aux (S n) n EmptyString.

(* ================================================================= *)
(** ** models.py *)

Record ProjectPreferences : Type := {
  include_docs : bool;
  include_tests : bool;
  include_docker : bool;
  include_ci_cd : bool;
  custom_folders : list string;
  framework_specific : bool
}.

(** [ProjectPreferences()]: the dataclass defaults; [__post_init__] turns
    the missing folder list into the empty list. *)
Definition default_preferences : ProjectPreferences :=
  {| include_docs := true;
     include_tests := true;
     include_docker := false;
     include_ci_cd := false;
     custom_folders := [];
     framework_specific := true |}.

(** [prefs.__dict__] *)
Definition prefs_dict (p : ProjectPreferences) : value :=
  VDict [ ("include_docs", VBool (include_docs p));
          ("include_tests", VBool (include_tests p));
          ("include_docker", VBool (include_docker p));
          ("include_ci_cd", VBool (include_ci_cd p));
          ("custom_folders", VList (map VStr (custom_folders p)));
          ("framework_specific", VBool (framework_specific p)) ].

Definition file_node (name : string) : value :=
  VDict [("type", VStr "file"); ("name", VStr name)].

Definition folder_node (name : string) (children : list value) : value :=
  VDict [("type", VStr "folder"); ("name", VStr name);
         ("children", VList children)].

(** A catalog entry: the three keys every entry of [get_example_repos] has. *)
Record repo : Type := {
  repo_description : string;
  repo_tech_stack : list string;
  repo_structure : value
}.

Definition get_example_repos : list repo :=
  [ {| repo_description := "React TypeScript frontend with Node.js backend";
       repo_tech_stack := ["React"; "TypeScript"; "Node.js"; "Express"];
       repo_structure :=
         VDict [("name", VStr "fullstack-app");
                ("structure", VList [
                   file_node "README.md";
                   file_node ".gitignore";
                   file_node "package.json";
                   folder_node "frontend" [
                     file_node "package.json";
                     folder_node "src" [
                       folder_node "components" [];
                       folder_node "pages" [];
                       folder_node "utils" [];
                       file_node "App.tsx";
                       file_node "index.tsx" ];
                     folder_node "public" [] ];
                   folder_node "backend" [
                     file_node "package.json";
                     folder_node "src" [
                       folder_node "routes" [];
                       folder_node "models" [];
                       folder_node "middleware" [];
                       file_node "server.js" ] ];
                   folder_node "tests" [];
                   folder_node "docs" [] ])] |};
    {| repo_description := "Python Django REST API with PostgreSQL";
       repo_tech_stack := ["Python"; "Django"; "PostgreSQL"; "Redis"];
       repo_structure :=
         VDict [("name", VStr "django-api");
                ("structure", VList [
                   file_node "README.md";
                   file_node ".gitignore";
                   file_node "requirements.txt";
                   file_node "manage.py";
                   folder_node "app" [
                     file_node "__init__.py";
                     file_node "settings.py";
                     file_node "urls.py";
                     file_node "wsgi.py" ];
                   folder_node "api" [
                     file_node "__init__.py";
                     file_node "models.py";
                     file_node "views.py";
                     file_node "serializers.py";
                     file_node "urls.py" ];
                   folder_node "tests" [];
                   folder_node "docs" [] ])] |} ].

(* ================================================================= *)
(** ** utils.py *)

Definition nl : string := String newline EmptyString.

(** *** parse_llm_output *)

(** The suffix of [s] that starts at its first opening brace. *)
Fixpoint from_first_open (s : string) : option string :=
  match s with
  | EmptyString => None
  | String c r => if Ascii.eqb c "{" then Some s else from_first_open r
  end.

(** The longest prefix of [s] that ends with a closing brace. *)
Fixpoint upto_last_close (s : string) : option string :=
  match s with
  | EmptyString => None
  | String c r =>
      match upto_last_close r with
      | Some p => Some (String c p)
      | None => if Ascii.eqb c "}" then Some (String c EmptyString) else None
      end
  end.

(** [re.search(r'\{.*\}', s, re.DOTALL)] and [.group()]: the leftmost match
    starts at the first opening brace that has a closing brace after it,
    which is the first opening brace or none; the greedy [.*] (any
    character, newlines too) runs to the last closing brace. *)
Definition search_braces (s : string) : option string :=
  match from_first_open s with
  | Some (String open r) =>
      match upto_last_close r with
      | Some p => Some (String open p)
      | None => None
      end
  | _ => None
  end.

(** What [json.loads] does with a text: it returns the decoded value, or
    raises [json.JSONDecodeError], or raises something else ([ValueError]
    for an integer literal beyond the digit limit of [int], [RecursionError]
    for a nesting beyond the interpreter's stack). *)
Inductive loaded : Type :=
| Decoded (v : value)
| JSONDecodeError
| LoadsRaised (e : exn).

Section ParseOutput.

(** [str.strip] *)
Variable str_strip : string -> string.
(** [json.loads] *)
Variable json_loads : string -> loaded.

(** The handler names [json.JSONDecodeError] only: any other exception
    of the decoder leaves the function. *)
Definition parse_llm_output (llm_response : string) : result value :=
  let attempt :=
    match search_braces llm_response with
    | Some json_str => json_loads json_str
    | None => json_loads (str_strip llm_response)
    end in
  match attempt with
  | Decoded v => Ok v
  | JSONDecodeError => Ok VNone
  | LoadsRaised e => Raise e
  end.

End ParseOutput.

(** *** apply_preferences *)

(** [any(item.get("name") == name for item in items)]: stops at the first
    hit, raises at the first earlier element without [get]. *)
Fixpoint any_named (name : string) (items : list value) : result bool :=
  match items with
  | [] => Ok false
  | item :: rest =>
      v <- get_method item "name" VNone ;;
      if eq_str v name then Ok true else any_named name rest
  end.

(** [if not any(...): structure_list.append(node)] *)
Definition append_if_absent (name : string) (node : value)
    (structure_list : value) : result value :=
  match structure_list with
  | VList items =>
      found <- any_named name items ;;
      Ok (if found then structure_list else VList (items ++ [node])%list)
  | VStr _ | VDict _ => Raise AttributeError
  | _ => Raise TypeError
  end.

(** [for name in names: <append mk(name) if absent>] *)
Fixpoint append_each (mk : string -> value) (names : list string)
    (structure_list : value) : result value :=
  match names with
  | [] => Ok structure_list
  | name :: rest =>
      sl <- append_if_absent name (mk name) structure_list ;;
      append_each mk rest sl
  end.

Definition docker_files : list string :=
  ["Dockerfile"; "docker-compose.yml"; ".dockerignore"].

Definition github_node : value :=
  folder_node ".github" [folder_node "workflows" [file_node "ci.yml"]].

(** The list bound to ["structure"] is mutated in place: afterwards the
    same dict holds the extended list. *)
Definition with_structure_list (structure structure_list : value) : value :=
  match structure with
  | VDict d => VDict (dict_set "structure" structure_list d)
  | _ => structure
  end.

Definition apply_preferences (structure : value)
    (prefs : option ProjectPreferences) : result value :=
  match prefs with
  | None => Ok structure
  | Some p =>
      sl0 <- subscript structure "structure" ;;
      sl1 <- append_each (fun name => folder_node name []) (custom_folders p) sl0 ;;
      sl2 <- (if include_docker p
              then append_each file_node docker_files sl1
              else Ok sl1) ;;
      sl3 <- (if include_ci_cd p
              then append_if_absent ".github" github_node sl2
              else Ok sl2) ;;
      Ok (with_structure_list structure sl3)
  end.

(** *** build_prompt *)

Fixpoint similar_examples_text (i : nat) (similar_repos : list repo) : string :=
  match similar_repos with
  | [] => ""
  | r :: rest =>
      nl ++ "Example " ++ str_nat i ++ ":" ++ nl
      ++ "Description: " ++ repo_description r ++ nl
      ++ "Tech Stack: " ++ join ", " (repo_tech_stack r) ++ nl
      ++ similar_examples_text (S i) rest
  end.

Definition schema_example : string := with_dquotes
"{
  'name': 'project-name',
  'structure': [
    {'type': 'file', 'name': 'README.md'},
    {'type': 'file', 'name': '.gitignore'},
    {'type': 'folder', 'name': 'src', 'children': [
      {'type': 'file', 'name': 'main.py'},
      {'type': 'folder', 'name': 'utils', 'children': []}
    ]}
  ]
}".

Definition build_prompt (project_desc : string) (tech_stack : list string)
    (prefs : option ProjectPreferences) (similar_repos : list repo) : string :=
  let similar_examples :=
    match similar_repos with
    | [] => ""
    | _ => nl ++ nl
           ++ "Here are some similar project examples for reference:" ++ nl
           ++ similar_examples_text 1 similar_repos
    end in
  let preferences_text :=
    match prefs with
    | None => ""
    | Some p =>
        nl ++ "Additional Requirements:" ++ nl
        ++ "- Include documentation folder: " ++ str_bool (include_docs p) ++ nl
        ++ "- Include tests folder: " ++ str_bool (include_tests p) ++ nl
        ++ "- Include Docker support: " ++ str_bool (include_docker p) ++ nl
        ++ "- Include CI/CD: " ++ str_bool (include_ci_cd p) ++ nl
        ++ "- Custom folders: "
        ++ (match custom_folders p with
            | [] => "None"
            | folders => join ", " folders
            end) ++ nl
        ++ "- Framework-specific structure: "
        ++ str_bool (framework_specific p) ++ nl
    end in
  "You are an expert software architect. Create a standardized project directory structure based on the following requirements:

Project Description: " ++ project_desc ++ "
Tech Stack: " ++ join ", " tech_stack ++ "
" ++ preferences_text ++ "
" ++ similar_examples ++ "

Generate a comprehensive directory structure that follows best practices for the given tech stack. The output must be a valid JSON object with the following exact schema:

" ++ schema_example ++ "

Rules:
1. Always include README.md and .gitignore
2. Use appropriate file extensions for the tech stack
3. Follow language/framework conventions
4. Include common configuration files
5. Structure should be logical and scalable
6. Use lowercase names with hyphens or underscores
7. Include only the JSON, no additional text or explanations

Generate the directory structure now:".

(** *** structure_to_tree *)

(** Nesting depth of a value: the recursion of [_build_tree] never goes
    deeper. *)
Fixpoint value_depth (v : value) : nat :=
  match v with
  | VList items =>
      S (fold_right (fun x acc => Nat.max (value_depth x) acc) 0 items)
  | VDict d =>
      S (fold_right (fun (kv : string * value) acc =>
                       Nat.max (let (_, x) := kv in value_depth x) acc) 0 d)
  | _ => 1
  end.

Section Tree.

(** [str(v)] for a value that is not a [str], as an f-string prints it. *)
Variable py_repr : value -> string.

Definition format_value (v : value) : string :=
  match v with
  | VStr s => s
  | _ => py_repr v
  end.

(** [depth] is the number of nested calls the interpreter still allows:
    with none left the call raises [RecursionError]. *)
Fixpoint _build_tree (depth : nat) (items : value) (current_indent : string)
  : result (list string) :=
  match depth with
  | O => Raise RecursionError
  | S depth' =>
      elems <- iter_items items ;;
      (fix loop (elems : list value) : result (list string) :=
         match elems with
         | [] => Ok []
         | item :: rest =>
             let is_last := match rest with [] => true | _ => false end in
             let prefix := if is_last then "└── " else "├── " in
             name <- get_method item "name" (VStr "unnamed") ;;
             ty <- get_method item "type" VNone ;;
             lines <-
               (if eq_str ty "folder" then
                  let line := current_indent ++ prefix ++ format_value name ++ "/" in
                  children <- get_method item "children" VNone ;;
                  if truthy children then
                    let next_indent :=
                      current_indent ++ (if is_last then "    " else "│   ") in
                    sub <- _build_tree depth' children next_indent ;;
                    Ok (line :: sub)
                  else Ok [line]
                else Ok [current_indent ++ prefix ++ format_value name]) ;;
             more <- loop rest ;;
             Ok (lines ++ more)%list
         end) elems
  end.

(** The interpreter is taken to allow as many nested calls as the
    structure is deep. *)
Definition structure_to_tree (structure : value) : result string :=
  if negb (truthy structure) then Ok "Invalid structure"
  else
    name <- subscript structure "name" ;;
    let tree_lines := [format_value name ++ "/"] in
    more <-
      (match subscript structure "structure" with
       | Ok top => _build_tree (value_depth structure) top ""
       | Raise _ => Ok []
       end) ;;
    Ok (join nl (tree_lines ++ more)%list).

End Tree.

(** *** parse_preferences *)

Section ParsePreferences.

(** [str.lower] *)
Variable str_lower : string -> string.
(** [str.strip] *)
Variable str_strip : string -> string.

Fixpoint collect_custom_folders (lines : list string) : list string :=
  match lines with
  | [] => []
  | line :: rest =>
      if startswith (str_strip line) "folder:"
         || startswith (str_strip line) "custom:"
      then
        let folder_name := str_strip (after_first ":" line) in
        if negb (String.eqb folder_name "")
        then folder_name :: collect_custom_folders rest
        else collect_custom_folders rest
      else collect_custom_folders rest
  end.

Definition parse_preferences (prefs_text : string) : ProjectPreferences :=
  let prefs := default_preferences in
  if String.eqb (str_strip prefs_text) "" then prefs
  else
    let prefs_lower := str_lower prefs_text in
    {| include_docs :=
         contains "docs" prefs_lower || contains "documentation" prefs_lower;
       include_tests := contains "test" prefs_lower;
       include_docker := contains "docker" prefs_lower;
       include_ci_cd :=
         contains "ci" prefs_lower || contains "github actions" prefs_lower;
       custom_folders := collect_custom_folders (split newline prefs_text);
       framework_specific := framework_specific prefs |}.

End ParsePreferences.

(* ================================================================= *)
(** ** services.py *)

(** *** Stable sorting

    [sorted] and [list.sort] are stable; for a total preorder the result of
    a stable sort is unique, and insertion into the sorted tail computes it.
    [le x y] says that [x] may stand before [y]. *)
Section StableSort.

Variable A : Type.
Variable le : A -> A -> bool.

Fixpoint insert (x : A) (l : list A) : list A :=
  match l with
  | [] => [x]
  | y :: r => if le x y then x :: l else y :: insert x r
  end.

Fixpoint stable_sort (l : list A) : list A :=
  match l with
  | [] => []
  | x :: r => insert x (stable_sort r)
  end.

End StableSort.

(** [sorted(names)] on strings: code-point order. *)
Definition sorted (names : list string) : list string :=
  stable_sort String.leb names.

(** [l[:k]] for an int [k]: a negative [k] counts from the end. *)
Definition slice_to (A : Type) (k : Z) (l : list A) : list A :=
  if (k <? 0)%Z then firstn (List.length l - Z.to_nat (- k)) l
  else firstn (Z.to_nat k) l.

(** *** CacheService *)

Record document : Type := {
  doc_cache_key : string;
  doc_project_id : string;
  doc_structure : value;
  doc_timestamp : string
}.

Section CacheKey.

Variable str_lower : string -> string.
Variable str_strip : string -> string.
(** [json.dumps(_, sort_keys=True)] *)
Variable json_dumps : value -> string.
(** [hashlib.md5(_.encode()).hexdigest()] *)
Variable md5_hexdigest : string -> string.

Definition cache_data (project_desc : string) (tech_stack : list string)
    (prefs : option value) : value :=
  VDict [ ("project_desc", VStr (str_strip (str_lower project_desc)));
          ("tech_stack",
            VList (map VStr
                     (sorted (map (fun tech => str_strip (str_lower tech))
                                  tech_stack))));
          ("prefs", match prefs with
                    | Some d => if truthy d then d else VDict []
                    | None => VDict []
                    end) ].

Definition make_cache_key (project_desc : string) (tech_stack : list string)
    (prefs : option value) : string :=
  let cache_string := json_dumps (cache_data project_desc tech_stack prefs) in
  md5_hexdigest cache_string.

End CacheKey.

(** [table('structures').search(Query().cache_key == cache_key)] *)
Definition search (table : list document) (cache_key : string) : list document :=
  filter (fun doc => String.eqb (doc_cache_key doc) cache_key) table.

Definition get_cached_structure (table : list document) (cache_key : string)
  : value :=
  match search table cache_key with
  | doc :: _ => doc_structure doc
  | [] => VNone
  end.

Definition cache_structure (table : list document) (cache_key project_id : string)
    (structure : value) (timestamp : string) : list document :=
  (table ++ [ {| doc_cache_key := cache_key;
                 doc_project_id := project_id;
                 doc_structure := structure;
                 doc_timestamp := timestamp |} ])%list.

(** *** SimilarityService *)

(** [top_k: int = 2] *)
Definition default_top_k : Z := 2.

Section Similarity.

Variable embedding : Type.
(** [self.sentence_model]: [None] when the model could not be loaded;
    [encode] gives [None] when it raises. *)
Variable sentence_model : option (string -> option embedding).
(** A similarity score: a floating-point number of the encoder's
    precision, a NaN possibly. *)
Variable score : Type.
(** [np.dot(q, r) / (np.linalg.norm(q) * np.linalg.norm(r))], the number
    the floating-point operations compute. *)
Variable cosine : embedding -> embedding -> score.
(** [a < b] on scores, the one comparison [list.sort] makes. *)
Variable score_lt : score -> score -> bool.
(** The order in which [list.sort] leaves entries whose scores [<] does
    not order: which of the entries at two positions of this list comes
    first. *)
Variable unordered_le :
  list (score * repo) -> nat -> nat -> bool.

Fixpoint score_repos (encode : string -> option embedding)
    (query_embedding : embedding) (example_repos : list repo)
  : option (list (score * repo)) :=
  match example_repos with
  | [] => Some []
  | r :: rest =>
      let repo_text := repo_description r ++ " " ++ join " " (repo_tech_stack r) in
      match encode repo_text with
      | None => None
      | Some repo_embedding =>
          let similarity := cosine query_embedding repo_embedding in
          match score_repos encode query_embedding rest with
          | None => None
          | Some similarities => Some ((similarity, r) :: similarities)
          end
      end
  end.

(** [<] orders these scores: it is asymmetric and whatever is neither
    below nor above a score stands where that score stands.  A NaN among
    different numbers breaks it. *)
Definition ordered_scores (keys : list score) : bool :=
  forallb (fun a =>
    forallb (fun b =>
      negb (score_lt a b && score_lt b a)
      && forallb (fun c => score_lt a b || score_lt b c || negb (score_lt a c))
                 keys) keys) keys.

(** [similarities.sort(key=lambda x: x[0], reverse=True)]: where [<]
    orders the scores, an entry stands before every entry of a lower score
    and entries that [<] does not separate keep their order; otherwise the
    result is some rearrangement of the list. *)
Definition sort_by_score (similarities : list (score * repo))
  : list (score * repo) :=
  if ordered_scores (map fst similarities)
  then stable_sort (fun x y => negb (score_lt (fst x) (fst y))) similarities
  else
    map snd
      (stable_sort (fun x y => unordered_le similarities (fst x) (fst y))
         (combine (seq 0 (List.length similarities)) similarities)).

Definition find_similar_repos (project_desc : string) (tech_stack : list string)
    (example_repos : list repo) (top_k : Z) : list repo :=
  match sentence_model with
  | None => []
  | Some encode =>
      let query_text := project_desc ++ " " ++ join " " tech_stack in
      match encode query_text with
      | None => []
      | Some query_embedding =>
          match score_repos encode query_embedding example_repos with
          | None => []
          | Some similarities =>
              map snd (slice_to top_k (sort_by_score similarities))
          end
      end
  end.

End Similarity.

(** *** ValidationService *)

(** The loop that collects [item.get("name", "")] of every top-level item
    whose [item.get("type")] is ["file"]. *)
Fixpoint top_level_file_names (items : list value) : result (list value) :=
  match items with
  | [] => Ok []
  | item :: rest =>
      ty <- get_method item "type" VNone ;;
      if eq_str ty "file" then
        name <- get_method item "name" (VStr "") ;;
        names <- top_level_file_names rest ;;
        Ok (name :: names)
      else top_level_file_names rest
  end.

Definition required_files : list string := ["README.md"; ".gitignore"].

(** [req_file in file_names] *)
Definition name_in (req_file : string) (file_names : list value) : bool :=
  existsb (fun v => eq_str v req_file) file_names.

Definition validate_structure (structure : value) : result bool :=
  match structure with
  | VDict d =>
      if negb (dict_has "name" d) || negb (dict_has "structure" d) then Ok false
      else
        match dict_get "structure" d with
        | Some (VList items) =>
            file_names <- top_level_file_names items ;;
            Ok (forallb (fun req_file => name_in req_file file_names)
                        required_files)
        | _ => Ok false
        end
  | _ => Ok false
  end.

(* ================================================================= *)
(** ** agent.py *)

(** What a run can change or observe from outside: the ['structures'] table
    of the cache file, the prompts sent to the completion endpoint so far,
    and the number of clock readings. *)
Record world : Type := {
  cache_db : list document;
  llm_calls : list string;
  ticks : nat
}.

Section Agent.

Variable str_lower : string -> string.
Variable str_strip : string -> string.
Variable json_loads : string -> loaded.
Variable json_dumps : value -> string.
Variable md5_hexdigest : string -> string.
Variable embedding : Type.
Variable sentence_model : option (string -> option embedding).
Variable score : Type.
Variable cosine : embedding -> embedding -> score.
Variable score_lt : score -> score -> bool.
Variable unordered_le :
  list (score * repo) -> nat -> nat -> bool.
(** The completion endpoint: the answer to a prompt, given how many
    requests came before; [None] when the call raises or has no content. *)
Variable chat_completion : nat -> string -> option string.
(** [datetime.now().isoformat()] at the n-th reading of the clock. *)
Variable now_isoformat : nat -> string.

(** [LLMService.generate_structure] *)
Definition generate_structure (w : world) (prompt : string)
  : option string * world :=
  (chat_completion (List.length (llm_calls w)) prompt,
   {| cache_db := cache_db w;
      llm_calls := (llm_calls w ++ [prompt])%list;
      ticks := ticks w |}).

Definition store (w : world) (cache_key project_id : string)
    (structure : value) : world :=
  {| cache_db := cache_structure (cache_db w) cache_key project_id structure
                   (now_isoformat (ticks w));
     llm_calls := llm_calls w;
     ticks := S (ticks w) |}.

Definition suggest_structure (w : world) (project_id project_desc : string)
    (tech_stack : list string) (prefs : option ProjectPreferences)
  : value * world :=
  let cache_key :=
    make_cache_key str_lower str_strip json_dumps md5_hexdigest project_desc
      tech_stack (option_map prefs_dict prefs) in
  let cached_result := get_cached_structure (cache_db w) cache_key in
  if truthy cached_result then (cached_result, w)
  else
    let similar_repos :=
      find_similar_repos sentence_model cosine score_lt unordered_le
        project_desc tech_stack get_example_repos default_top_k in
    let prompt := build_prompt project_desc tech_stack prefs similar_repos in
    let (llm_response, w1) := generate_structure w prompt in
    match llm_response with
    | None => (VNone, w1)
    | Some response =>
        if String.eqb response "" then (VNone, w1)
        else
          match parse_llm_output str_strip json_loads response with
          | Raise _ => (VNone, w1)
          | Ok structure =>
              if negb (truthy structure) then (VNone, w1)
              else
                match validate_structure structure with
                | Ok true =>
                    match apply_preferences structure prefs with
                    | Ok structure' =>
                        (structure', store w1 cache_key project_id structure')
                    | Raise _ => (VNone, w1)
                    end
                | Ok false => (VNone, w1)
                | Raise _ => (VNone, w1)
                end
          end
    end.

End Agent.

(* ================================================================= *)
(** ** main.py *)

Section Main.

Variable str_lower : string -> string.
Variable str_strip : string -> string.
Variable json_loads : string -> loaded.
Variable json_dumps : value -> string.
Variable md5_hexdigest : string -> string.
Variable embedding : Type.
Variable sentence_model : option (string -> option embedding).
Variable score : Type.
Variable cosine : embedding -> embedding -> score.
Variable score_lt : score -> score -> bool.
Variable unordered_le :
  list (score * repo) -> nat -> nat -> bool.
Variable chat_completion : nat -> string -> option string.
Variable now_isoformat : nat -> string.
Variable py_repr : value -> string.
(** [json.dumps(_, indent=2)] *)
Variable json_dumps_indent : value -> string.
(** [str(e)] for the exception that rendering this structure raises. *)
Variable render_error : value -> string.
(** [os.environ.get("OPENAI_API_KEY")] *)
Variable api_key : option string.

(** [[tech.strip() for tech in tech_stack.split(',') if tech.strip()]] *)
Definition tech_list_of (tech_stack : string) : list string :=
  map str_strip
    (filter (fun tech => negb (String.eqb (str_strip tech) ""))
            (split "," tech_stack)).

(** [generate_directory_structure]: the two texts shown, and the world
    afterwards.  [create_agent] raises without a key, and the handler turns
    that into the same message twice; building the agent itself (client,
    cache file, encoder) is taken to succeed. *)
Definition generate_directory_structure (w : world)
    (project_desc tech_stack preferences : string) : (string * string) * world :=
  let no_key :=
    let error_msg :=
      "Error: " ++ "OPENAI_API_KEY not found in environment variables" in
    ((error_msg, error_msg), w) in
  match api_key with
  | None => no_key
  | Some openai_api_key =>
      if String.eqb openai_api_key "" then no_key
      else
        let tech_list := tech_list_of tech_stack in
        let prefs := parse_preferences str_lower str_strip preferences in
        let project_id :=
          "gradio_" ++ substring 0 8 (md5_hexdigest project_desc) in
        let (structure, w') :=
          suggest_structure str_lower str_strip json_loads json_dumps
            md5_hexdigest sentence_model cosine score_lt unordered_le
            chat_completion now_isoformat w project_id project_desc
            tech_list (Some prefs) in
        if negb (truthy structure) then
          (("Failed to generate directory structure. Please try again.",
            "Error occurred."), w')
        else
          let json_output := json_dumps_indent structure in
          match structure_to_tree py_repr structure with
          | Ok tree_output => ((json_output, tree_output), w')
          | Raise _ =>
              let error_msg := "Error: " ++ render_error structure in
              ((error_msg, error_msg), w')
          end
  end.

End Main.

(* ================================================================= *)
(** ** A JSON decoder

    [json_decode] follows the scanner of Python's [json] module (objects,
    arrays, strings with their escapes, numbers, [true], [false], [null];
    leading and trailing blanks; "Extra data" is an error; a repeated key
    keeps its first position and its last value; an integer literal of
    more than 4300 digits raises [ValueError], the default limit of [int]).
    The extensions [NaN] and [Infinity] are rejected: [value] has no such
    floats; arrays and objects are decoded to any depth.  It instantiates
    [json_loads] wherever a sample text is run. *)

(** What scanning a piece of text gives: a result with the rest of the
    text, a malformed text, or an exception of another kind. *)
Inductive scan (A : Type) : Type :=
| Got (a : A) (rest : string)
| Bad
| Stop (e : exn).

Arguments Got {A} a rest.
Arguments Bad {A}.
Arguments Stop {A} e.

(** [sys.get_int_max_str_digits()] *)
Definition int_max_str_digits : nat := 4300.

Definition is_json_ws (c : ascii) : bool :=
  let n := nat_of_ascii c in
  ((n =? 32) || (n =? 9) || (n =? 10) || (n =? 13))%nat.

Fixpoint skip_ws (s : string) : string :=
  match s with
  | String c r => if is_json_ws c then skip_ws r else s
  | EmptyString => s
  end.

Definition is_digit (c : ascii) : bool :=
  let n := nat_of_ascii c in ((48 <=? n) && (n <=? 57))%nat.

Fixpoint take_digits (s : string) : list Z * string :=
  match s with
  | String c r =>
      if is_digit c
      then let (ds, rest) := take_digits r in
           (Z.of_nat (nat_of_ascii c - 48) :: ds, rest)
      else ([], s)
  | EmptyString => ([], s)
  end.

Definition digits_value (ds : list Z) : Z :=
  fold_left (fun acc d => (acc * 10 + d)%Z) ds 0%Z.

Definition is_nil (A : Type) (l : list A) : bool :=
  match l with [] => true | _ => false end.

(** [NUMBER_RE]: an optional minus sign, then 0 or a digit string without
    leading zero, then optionally a dot with digits, then optionally an
    exponent; the optional parts are dropped when they have no digit. *)
Definition scan_number (s : string) : scan value :=
  let (negative, s1) :=
    match s with
    | String "-" r => (true, r)
    | _ => (false, s)
    end in
  let integer :=
    match s1 with
    | String "0" r => Some ([0%Z], r)
    | String c _ => if is_digit c then Some (take_digits s1) else None
    | EmptyString => None
    end in
  match integer with
  | None => Bad
  | Some (ints, rest) =>
      let (fracs, rest1) :=
        match rest with
        | String "." r =>
            let (fs, r') := take_digits r in
            if is_nil fs then ([], rest) else (fs, r')
        | _ => ([], rest)
        end in
      let '(has_exp, exponent, rest2) :=
        match rest1 with
        | String c r =>
            if Ascii.eqb c "e" || Ascii.eqb c "E" then
              let (minus, r1) :=
                match r with
                | String "-" r' => (true, r')
                | String "+" r' => (false, r')
                | _ => (false, r)
                end in
              let (es, r2) := take_digits r1 in
              if is_nil es then (false, 0%Z, rest1)
              else (true, if minus then (- digits_value es)%Z else digits_value es, r2)
            else (false, 0%Z, rest1)
        | EmptyString => (false, 0%Z, rest1)
        end in
      let sign := fun z : Z => if negative then (- z)%Z else z in
      if is_nil fracs && negb has_exp
      then if (int_max_str_digits <? List.length ints)%nat
           then Stop ValueError
           else Got (VInt (sign (digits_value ints))) rest2
      else
        let mantissa := sign (digits_value (ints ++ fracs)%list) in
        let scale := (exponent - Z.of_nat (List.length fracs))%Z in
        let q := if (0 <=? scale)%Z
                 then inject_Z (mantissa * 10 ^ scale)
                 else Qmake mantissa (Z.to_pos (10 ^ (- scale))) in
        Got (VFloat q) rest2
  end.

Definition hex_value (c : ascii) : option N :=
  let n := N_of_ascii c in
  if ((48 <=? n) && (n <=? 57))%N then Some (n - 48)%N
  else if ((65 <=? n) && (n <=? 70))%N then Some (n - 55)%N
  else if ((97 <=? n) && (n <=? 102))%N then Some (n - 87)%N
  else None.

(** Four hexadecimal digits at the head of [s]. *)
Definition take_hex4 (s : string) : option (N * string) :=
  match s with
  | String a (String b (String c (String d r))) =>
      match hex_value a, hex_value b, hex_value c, hex_value d with
      | Some x, Some y, Some z, Some t =>
          Some ((((x * 16 + y) * 16 + z) * 16 + t)%N, r)
      | _, _, _, _ => None
      end
  | _ => None
  end.

(** The UTF-8 bytes of a code point. *)
Definition utf8 (n : N) : string :=
  let b := fun k : N => String (ascii_of_N k) EmptyString in
  if (n <? 128)%N then b n
  else if (n <? 2048)%N then b (192 + n / 64)%N ++ b (128 + n mod 64)%N
  else if (n <? 65536)%N
       then b (224 + n / 4096)%N ++ b (128 + (n / 64) mod 64)%N
            ++ b (128 + n mod 64)%N
       else b (240 + n / 262144)%N ++ b (128 + (n / 4096) mod 64)%N
            ++ b (128 + (n / 64) mod 64)%N ++ b (128 + n mod 64)%N.

Definition unescape (c : ascii) : option ascii :=
  let n := nat_of_ascii c in
  if (n =? 34)%nat then Some c            (* quote *)
  else if (n =? 92)%nat then Some c       (* backslash *)
  else if (n =? 47)%nat then Some c       (* slash *)
  else if (n =? 98)%nat then Some (ascii_of_nat 8)
  else if (n =? 102)%nat then Some (ascii_of_nat 12)
  else if (n =? 110)%nat then Some (ascii_of_nat 10)
  else if (n =? 114)%nat then Some (ascii_of_nat 13)
  else if (n =? 116)%nat then Some (ascii_of_nat 9)
  else None.

(** [py_scanstring] in strict mode, after the opening quote. *)
Fixpoint scanstring (fuel : nat) (s : string) : option (string * string) :=
  match fuel with
  | O => None
  | S fuel' =>
      match s with
      | EmptyString => None
      | String c r =>
          if Ascii.eqb c dquote then Some (EmptyString, r)
          else if Ascii.eqb c "\" then
            match r with
            | String "u" r1 =>
                match take_hex4 r1 with
                | None => None
                | Some (hi, r2) =>
                    let low :=
                      match r2 with
                      | String "\" (String "u" r3) =>
                          match take_hex4 r3 with
                          | Some (lo, r4) =>
                              if ((55296 <=? hi) && (hi <=? 56319)
                                  && (56320 <=? lo) && (lo <=? 57343))%N
                              then Some ((65536 + (hi - 55296) * 1024
                                          + (lo - 56320))%N, r4)
                              else None
                          | None => None
                          end
                      | _ => None
                      end in
                    let (code, r') := match low with
                                      | Some p => p
                                      | None => (hi, r2)
                                      end in
                    match scanstring fuel' r' with
                    | Some (t, rest) => Some (utf8 code ++ t, rest)
                    | None => None
                    end
                end
            | String e r1 =>
                match unescape e, scanstring fuel' r1 with
                | Some ch, Some (t, rest) => Some (String ch t, rest)
                | _, _ => None
                end
            | EmptyString => None
            end
          else if (nat_of_ascii c <? 32)%nat then None
          else match scanstring fuel' r with
               | Some (t, rest) => Some (String c t, rest)
               | None => None
               end
      end
  end.

Definition dict_of_pairs (pairs : list (string * value)) : list (string * value) :=
  fold_left (fun d kv => dict_set (fst kv) (snd kv) d) pairs [].

Fixpoint scan_once (fuel : nat) (s : string) {struct fuel} : scan value :=
  match fuel with
  | O => Bad
  | S fuel' =>
      match s with
      | String "{" r =>
          match skip_ws r with
          | String "}" r' => Got (VDict []) r'
          | r' =>
              match scan_pairs fuel' r' with
              | Got pairs rest => Got (VDict (dict_of_pairs pairs)) rest
              | Bad => Bad
              | Stop e => Stop e
              end
          end
      | String "[" r =>
          match skip_ws r with
          | String "]" r' => Got (VList []) r'
          | r' =>
              match scan_items fuel' r' with
              | Got items rest => Got (VList items) rest
              | Bad => Bad
              | Stop e => Stop e
              end
          end
      | String "n" (String "u" (String "l" (String "l" r))) => Got VNone r
      | String "t" (String "r" (String "u" (String "e" r))) => Got (VBool true) r
      | String "f" (String "a" (String "l" (String "s" (String "e" r)))) =>
          Got (VBool false) r
      | String c r =>
          if Ascii.eqb c dquote then
            match scanstring (String.length s) r with
            | Some (t, rest) => Got (VStr t) rest
            | None => Bad
            end
          else scan_number s
      | EmptyString => Bad
      end
  end

with scan_items (fuel : nat) (s : string) {struct fuel} : scan (list value) :=
  match fuel with
  | O => Bad
  | S fuel' =>
      match scan_once fuel' s with
      | Bad => Bad
      | Stop e => Stop e
      | Got v r =>
          match skip_ws r with
          | String "]" r' => Got [v] r'
          | String "," r' =>
              match scan_items fuel' (skip_ws r') with
              | Got vs rest => Got (v :: vs) rest
              | Bad => Bad
              | Stop e => Stop e
              end
          | _ => Bad
          end
      end
  end

with scan_pairs (fuel : nat) (s : string) {struct fuel}
  : scan (list (string * value)) :=
  match fuel with
  | O => Bad
  | S fuel' =>
      match s with
      | String c r =>
          if Ascii.eqb c dquote then
            match scanstring (String.length s) r with
            | None => Bad
            | Some (key, r1) =>
                match skip_ws r1 with
                | String ":" r2 =>
                    match scan_once fuel' (skip_ws r2) with
                    | Bad => Bad
                    | Stop e => Stop e
                    | Got v r3 =>
                        match skip_ws r3 with
                        | String "}" r4 => Got [(key, v)] r4
                        | String "," r4 =>
                            match scan_pairs fuel' (skip_ws r4) with
                            | Got kvs rest => Got ((key, v) :: kvs) rest
                            | Bad => Bad
                            | Stop e => Stop e
                            end
                        | _ => Bad
                        end
                    end
                | _ => Bad
                end
            end
          else Bad
      | EmptyString => Bad
      end
  end.

(** [json.loads(s)] *)
Definition json_decode (s : string) : loaded :=
  match scan_once (S (String.length s)) (skip_ws s) with
  | Got v rest =>
      match skip_ws rest with
      | EmptyString => Decoded v
      | _ => JSONDecodeError
      end
  | Bad => JSONDecodeError
  | Stop e => LoadsRaised e
  end.

(* ================================================================= *)
(** ** Specification-side definitions

    Written from the wording of the specification, to be compared with the
    functions above. *)

Definition is_dict (v : value) : bool :=
  match v with
  | VDict _ => true
  | _ => false
  end.

(** "A File node named exactly [name]". *)
Definition is_file_named (name : string) (item : value) : bool :=
  match item with
  | VDict d =>
      match dict_get "type" d, dict_get "name" d with
      | Some ty, Some n => eq_str ty "file" && eq_str n name
      | _, _ => false
      end
  | _ => false
  end.

(** "Candidate is a mapping; it contains both a name key and a structure
    key; structure is a sequence; within that sequence at least one element
    is a File node named README.md and at least one is a File node named
    .gitignore". *)
Definition valid_candidate (c : value) : bool :=
  match c with
  | VDict d =>
      dict_has "name" d && dict_has "structure" d &&
      match dict_get "structure" d with
      | Some (VList items) =>
          existsb (is_file_named "README.md") items
          && existsb (is_file_named ".gitignore") items
      | _ => false
      end
  | _ => false
  end.

(** The top-level sequence the validator walks through, if it gets there. *)
Definition top_level_items (c : value) : list value :=
  match c with
  | VDict d =>
      if dict_has "name" d && dict_has "structure" d then
        match dict_get "structure" d with
        | Some (VList items) => items
        | _ => []
        end
      else []
  | _ => []
  end.

(** The top-level sequence of a structure. *)
Definition top_level (s : value) : list value :=
  match subscript s "structure" with
  | Ok (VList items) => items
  | _ => []
  end.

(** [item] is a mapping whose name is [name]. *)
Definition named (name : string) (item : value) : bool :=
  match item with
  | VDict d => match dict_get "name" d with
               | Some v => eq_str v name
               | None => false
               end
  | _ => false
  end.

Definition count_named (name : string) (items : list value) : nat :=
  List.length (filter (named name) items).

(** "The first balanced-brace span": from an opening brace to the brace
    that closes it, for the first opening brace that is closed. *)
Fixpoint balanced_rest (depth : nat) (s : string) : option string :=
  match s with
  | EmptyString => None
  | String c r =>
      if Ascii.eqb c "{" then option_map (String c) (balanced_rest (S depth) r)
      else if Ascii.eqb c "}" then
        match depth with
        | O => Some (String c EmptyString)
        | S depth' => option_map (String c) (balanced_rest depth' r)
        end
      else option_map (String c) (balanced_rest depth r)
  end.

Fixpoint first_balanced_span (s : string) : option string :=
  match s with
  | EmptyString => None
  | String c r =>
      if Ascii.eqb c "{" then
        match balanced_rest 0 r with
        | Some p => Some (String c p)
        | None => first_balanced_span r
        end
      else first_balanced_span r
  end.

(** The braces of [s] match: every closing brace closes an open one and
    none stays open. *)
Fixpoint brace_depth (depth : nat) (s : string) : option nat :=
  match s with
  | EmptyString => Some depth
  | String c r =>
      if Ascii.eqb c "{" then brace_depth (S depth) r
      else if Ascii.eqb c "}" then
        match depth with
        | O => None
        | S depth' => brace_depth depth' r
        end
      else brace_depth depth r
  end.

Definition brace_balanced (s : string) : bool :=
  match brace_depth 0 s with
  | Some O => true
  | _ => false
  end.

(** What the caller of the parser gets for an outcome of the decoder: the
    decoded value, [None] for a [json.JSONDecodeError], the exception
    itself for any other. *)
Definition or_none (attempt : loaded) : result value :=
  match attempt with
  | Decoded v => Ok v
  | JSONDecodeError => Ok VNone
  | LoadsRaised e => Raise e
  end.

(** "Locate the first balanced-brace span and parse it as JSON; if no brace
    span is found, parse the trimmed whole text". *)
Definition parse_balanced (str_strip : string -> string)
    (json_loads : string -> loaded) (text : string) : result value :=
  or_none (match first_balanced_span text with
           | Some span => json_loads span
           | None => json_loads (str_strip text)
           end).

(** The character [c] occurs in [s]. *)
Fixpoint occurs (c : ascii) (s : string) : bool :=
  match s with
  | EmptyString => false
  | String a r => Ascii.eqb a c || occurs c r
  end.

(** The one text [parse_llm_output] hands to the decoder. *)
Definition attempted_text (str_strip : string -> string) (text : string)
  : string :=
  match search_braces text with
  | Some span => span
  | None => str_strip text
  end.

(** Two functions on texts give the same result on every ASCII text. *)
Definition agree_on_ascii (f g : string -> string) : Prop :=
  forall s, is_ascii s = true -> f s = g s.

(** The letter [c] of a text matches the letter [k] of a keyword written
    without capitals: it is [k], or the capital of [k]. *)
Definition eq_nocase (k c : ascii) : bool :=
  Ascii.eqb c k
  || (let n := nat_of_ascii c in
      (65 <=? n)%nat && (n <=? 90)%nat && (n + 32 =? nat_of_ascii k)%nat).

Fixpoint prefix_nocase (keyword text : string) : bool :=
  match keyword, text with
  | EmptyString, _ => true
  | String k keyword', String c text' =>
      eq_nocase k c && prefix_nocase keyword' text'
  | String _ _, EmptyString => false
  end.

(** The keyword occurs in the text, in whatever letter case. *)
Fixpoint contains_nocase (keyword text : string) : bool :=
  prefix_nocase keyword text ||
  match text with
  | EmptyString => false
  | String _ r => contains_nocase keyword r
  end.

(** No capital letter in [s]. *)
Fixpoint no_capital (s : string) : bool :=
  match s with
  | EmptyString => true
  | String c r =>
      let n := nat_of_ascii c in
      negb ((65 <=? n)%nat && (n <=? 90)%nat) && no_capital r
  end.

(** The scored entries that [<] does not separate from the score [s]. *)
Definition tied (score : Type) (score_lt : score -> score -> bool) (s : score)
    (x : score * repo) : bool :=
  negb (score_lt (fst x) s) && negb (score_lt s (fst x)).

(** The score of a scored entry is the similarity of the query and the
    embedding of the entry's text. *)
Definition scored (embedding score : Type)
    (encode : string -> option embedding)
    (cosine : embedding -> embedding -> score) (query_embedding : embedding)
    (x : score * repo) : Prop :=
  exists repo_embedding,
    encode (repo_description (snd x) ++ " " ++ join " " (repo_tech_stack (snd x)))
    = Some repo_embedding
    /\ fst x = cosine query_embedding repo_embedding.

(** The additions a Preferences record asks for, in the order
    [apply_preferences] makes them: the name looked for, the node appended. *)
Definition additions (p : ProjectPreferences) : list (string * value) :=
  (map (fun name => (name, folder_node name [])) (custom_folders p)
   ++ (if include_docker p
       then map (fun name => (name, file_node name)) docker_files
       else [])
   ++ (if include_ci_cd p then [(".github", github_node)] else []))%list.

Fixpoint append_all (steps : list (string * value)) (structure_list : value)
  : result value :=
  match steps with
  | [] => Ok structure_list
  | (name, node) :: rest =>
      sl <- append_if_absent name node structure_list ;;
      append_all rest sl
  end.

(** The cache key and the prompt of a request, as [suggest_structure]
    derives them. *)
Definition request_key (str_lower str_strip : string -> string)
    (json_dumps : value -> string)
    (md5_hexdigest : string -> string) (project_desc : string)
    (tech_stack : list string) (prefs : option ProjectPreferences) : string :=
  make_cache_key str_lower str_strip json_dumps md5_hexdigest project_desc
    tech_stack (option_map prefs_dict prefs).

Definition request_prompt (embedding : Type)
    (sentence_model : option (string -> option embedding)) (score : Type)
    (cosine : embedding -> embedding -> score)
    (score_lt : score -> score -> bool)
    (unordered_le : list (score * repo) -> nat -> nat -> bool)
    (project_desc : string)
    (tech_stack : list string) (prefs : option ProjectPreferences) : string :=
  build_prompt project_desc tech_stack prefs
    (find_similar_repos sentence_model cosine score_lt unordered_le
       project_desc tech_stack get_example_repos default_top_k).

(** Every stored structure is a non-empty object, as every structure that
    [suggest_structure] stores is. *)
Definition cache_ok (w : world) : Prop :=
  Forall (fun doc => truthy (doc_structure doc) = true) (cache_db w).

(** An addition whose node carries the name looked for. *)
Definition named_step (step : string * value) : Prop :=
  named (fst step) (snd step) = true.

(** Every stored structure passes the validator. *)
Definition cache_valid (w : world) : Prop :=
  Forall (fun doc => validate_structure (doc_structure doc) = Ok true)
         (cache_db w).

(** A directory tree as the data model has it: files and folders. *)
Unset Elimination Schemes.
Inductive node : Type :=
| File (name : string)
| Folder (name : string) (children : list node).
Set Elimination Schemes.

(** The JSON object of a node. *)
Fixpoint node_value (n : node) : value :=
  match n with
  | File name => file_node name
  | Folder name children => folder_node name (map node_value children)
  end.

(** Number of nodes of a tree, the root included. *)
Fixpoint node_size (n : node) : nat :=
  match n with
  | File _ => 1
  | Folder _ children =>
      S ((fix sizes (l : list node) : nat :=
            match l with
            | [] => 0
            | c :: rest => node_size c + sizes rest
            end) children)
  end.

Fixpoint nodes_size (l : list node) : nat :=
  match l with
  | [] => 0
  | c :: rest => node_size c + nodes_size rest
  end.

(** The tree drawing, by recursion on the tree: one line per node; the
    last sibling gets the corner, the others the tee; below a folder the
    indentation grows by a bar, or by blanks below a last sibling. *)
Fixpoint draw_node (indent : string) (is_last : bool) (n : node) : list string :=
  let prefix := if is_last then "└── " else "├── " in
  match n with
  | File name => [indent ++ prefix ++ name]
  | Folder name children =>
      (indent ++ prefix ++ name ++ "/")
      :: (fix draw (l : list node) : list string :=
            match l with
            | [] => []
            | c :: rest =>
                (draw_node (indent ++ (if is_last then "    " else "│   "))
                           (match rest with [] => true | _ => false end) c
                 ++ draw rest)%list
            end) children
  end.

Fixpoint draw_nodes (indent : string) (l : list node) : list string :=
  match l with
  | [] => []
  | c :: rest =>
      (draw_node indent (match rest with [] => true | _ => false end) c
       ++ draw_nodes indent rest)%list
  end.

(** The nested calls that drawing needs below the current one: one more
    than its deepest folder with children needs. *)
Fixpoint node_frames (n : node) : nat :=
  match n with
  | File _ => 0
  | Folder _ children =>
      match children with
      | [] => 0
      | _ => S ((fix deepest (l : list node) : nat :=
                   match l with
                   | [] => 0
                   | c :: rest => Nat.max (node_frames c) (deepest rest)
                   end) children)
      end
  end.

Fixpoint nodes_frames (l : list node) : nat :=
  match l with
  | [] => 0
  | c :: rest => Nat.max (node_frames c) (nodes_frames rest)
  end.

(** The names a Preferences record asks for at the top level. *)
Definition requested_names (p : ProjectPreferences) : list string :=
  (custom_folders p
   ++ (if include_docker p then docker_files else [])
   ++ (if include_ci_cd p then [".github"] else []))%list.

Definition is_requested (p : ProjectPreferences) (name : string) : bool :=
  existsb (String.eqb name) (requested_names p).

(** *** Stand-ins for the collaborators, to run examples *)

Definition str_Z (z : Z) : string :=
  if (z <? 0)%Z then "-" ++ str_nat (Z.to_nat (- z)) else str_nat (Z.to_nat z).

Definition quoted (s : string) : string :=
  String dquote (s ++ String dquote EmptyString).

(** A plain rendering of a value, in the place of [json.dumps]. *)
Fixpoint sample_dumps (v : value) : string :=
  match v with
  | VNone => "null"
  | VBool b => if b then "true" else "false"
  | VInt z => str_Z z
  | VFloat q => str_Z (Qnum q) ++ "/" ++ str_nat (Pos.to_nat (Qden q))
  | VStr s => quoted s
  | VList items => "[" ++ join ", " (map sample_dumps items) ++ "]"
  | VDict d =>
      "{" ++ join ", " (map (fun kv : string * value =>
                               let (k, x) := kv in
                               quoted k ++ ": " ++ sample_dumps x) d) ++ "}"
  end.

(** In the place of the digest: the text itself. *)
Definition sample_digest (s : string) : string := s.

(** An encoder that embeds a text as its length, and a score that prefers
    the nearer length. *)
Definition sample_encode (text : string) : option nat :=
  Some (String.length text).

Definition sample_cosine (a b : nat) : Q :=
  Qmake 1 (Pos.of_succ_nat (a - b + (b - a))).

(** The strict order of the rationals, in the place of [<] on floats. *)
Definition sample_lt (a b : Q) : bool := negb (Qle_bool b a).

(** No rearrangement where the scores are not ordered. *)
Definition sample_unordered (l : list (Q * repo)) (i j : nat) : bool :=
  true.

(** **** Single precision

    A score as NumPy computes it on [float32] vectors: each of the two
    products, the square roots and the quotient is one IEEE operation
    rounded to 24 bits.  The vectors of the examples have small whole
    numbers as coordinates, whose dot products are exact in whatever order
    they are summed. *)
Definition float32 : Type := spec_float.

Definition f32_of_Z (z : Z) : float32 := binary_normalize 24 128 z 0 false.
Definition f32_mul : float32 -> float32 -> float32 := SFmul 24 128.
Definition f32_div : float32 -> float32 -> float32 := SFdiv 24 128.
Definition f32_sqrt : float32 -> float32 := SFsqrt 24 128.
Definition f32_lt : float32 -> float32 -> bool := SFltb.

(** The dot product of two whole-number vectors. *)
Fixpoint int_dot (a b : list Z) : Z :=
  match a, b with
  | x :: a', y :: b' => (x * y + int_dot a' b')%Z
  | _, _ => 0%Z
  end.

(** [np.dot(a, b)] *)
Definition f32_dot (a b : list Z) : float32 := f32_of_Z (int_dot a b).

(** [np.linalg.norm(a)]: the square root of [np.dot(a, a)]. *)
Definition f32_norm (a : list Z) : float32 := f32_sqrt (f32_dot a a).

(** [np.dot(q, r) / (np.linalg.norm(q) * np.linalg.norm(r))] *)
Definition f32_cosine (q r : list Z) : float32 :=
  f32_div (f32_dot q r) (f32_mul (f32_norm q) (f32_norm r)).

(** The cosines of the angles that [q] makes with [r1] and with [r2] are
    the same real number: the dot products have one sign and the squared
    cosines, cross-multiplied, are equal. *)
Definition same_cosine (q r1 r2 : list Z) : Prop :=
  (0 < int_dot q r1)%Z /\ (0 < int_dot q r2)%Z
  /\ (int_dot q r1 * int_dot q r1 * int_dot r2 r2
      = int_dot q r2 * int_dot q r2 * int_dot r1 r1)%Z.

(** Two catalog entries whose vectors point the same way, and the encoder
    that knows them and the query. *)
Definition near_repo : repo :=
  {| repo_description := "near"; repo_tech_stack := [];
     repo_structure := VDict [] |}.

Definition far_repo : repo :=
  {| repo_description := "far"; repo_tech_stack := [];
     repo_structure := VDict [] |}.

Definition vector_encode (text : string) : option (list Z) :=
  if String.eqb text "query " then Some [1; 1]%Z
  else if String.eqb text "near " then Some [1; 2]%Z
  else if String.eqb text "far " then Some [3; 6]%Z
  else None.

Definition f32_unordered (l : list (float32 * repo)) (i j : nat) : bool :=
  true.

Definition sample_clock (n : nat) : string := "t" ++ str_nat n.

Definition sample_response : string := with_dquotes
  "{'name': 'demo', 'structure': [{'type': 'file', 'name': 'README.md'}, {'type': 'file', 'name': '.gitignore'}]}".

(** An endpoint that always answers [sample_response]. *)
Definition sample_completion (n : nat) (prompt : string) : option string :=
  Some sample_response.

(** An endpoint that always fails. *)
Definition failing_completion (n : nat) (prompt : string) : option string :=
  None.

Definition empty_world : world :=
  {| cache_db := []; llm_calls := []; ticks := 0 |}.

(** *** Sample inputs *)

(** Both required files at the top level, followed by a bare string. *)
Definition candidate_with_stray_item : value :=
  VDict [("name", VStr "x");
         ("structure", VList [file_node "README.md"; file_node ".gitignore";
                              VStr "src/"])].

(** The required files only inside a folder. *)
Definition candidate_nested_only : value :=
  VDict [("name", VStr "x");
         ("structure", VList [folder_node "docs" [file_node "README.md";
                                                  file_node ".gitignore"]])].

Definition app_structure : value :=
  VDict [("name", VStr "app");
         ("structure", VList [file_node "a.txt";
                              folder_node "src" [file_node "b.txt"]])].

Definition app_structure_text : string := with_dquotes
  "{'name':'app','structure':[{'type':'file','name':'a.txt'},{'type':'folder','name':'src','children':[{'type':'file','name':'b.txt'}]}]}".

(** An object whose string value holds a closing brace. *)
Definition brace_in_string_text : string := with_dquotes "{'a':'}'}".

Definition prose_response : string := with_dquotes
"Here is your structure:
{'name':'x','structure':[]}
Enjoy!".

(** A validated structure and a Preferences record that asks for
    everything. *)
Definition demo_structure : value :=
  VDict [("name", VStr "demo");
         ("structure", VList [file_node "README.md"; file_node ".gitignore"])].

Definition docker_preferences : ProjectPreferences :=
  {| include_docs := true;
     include_tests := true;
     include_docker := true;
     include_ci_cd := true;
     custom_folders := ["assets"; "assets"; "README.md"];
     framework_specific := true |}.

(** The agent wired to the stand-ins, and its first run on a fresh cache. *)
Definition sample_suggest (completion : nat -> string -> option string)
    (w : world) : value * world :=
  suggest_structure lower strip json_decode sample_dumps sample_digest
    (Some sample_encode) sample_cosine sample_lt sample_unordered
    completion sample_clock
    w "p1" "a django api" ["Python"] (Some docker_preferences).

Definition sample_key : string :=
  request_key lower strip sample_dumps sample_digest "a django api" ["Python"]
    (Some docker_preferences).

Definition sample_prompt : string :=
  request_prompt (Some sample_encode) sample_cosine sample_lt sample_unordered
    "a django api" ["Python"] (Some docker_preferences).

(** An array that holds one integer literal of 4301 digits. *)
Definition long_integer_text : string :=
  "[" ++ string_of_list_ascii (repeat "7"%char 4301) ++ "]".

Definition first_run : value * world :=
  sample_suggest sample_completion empty_world.

(* ================================================================= *)
(** ** Properties *)

Unset Implicit Arguments.

(** *** The structure validator *)

Lemma top_level_file_names_dicts (items : list value) :
  forallb is_dict items = true ->
  exists names,
    top_level_file_names items = Ok names /\
    forall req, req <> "" ->
      name_in req names = existsb (is_file_named req) items.
Proof.
  induction items as [|item rest IH]; simpl; intros Hd.
  - exists []. split; [reflexivity|]. intros; reflexivity.
  - apply andb_true_iff in Hd as [Hi Hr].
    destruct (IH Hr) as (names & Hn & Hspec).
    destruct item as [| | | | | |d]; try discriminate Hi.
    simpl. unfold is_file_named.
    destruct (dict_get "type" d) as [ty|] eqn:Ety; simpl.
    + destruct (eq_str ty "file") eqn:Ef; simpl.
      * rewrite Hn. simpl.
        eexists. split; [reflexivity|].
        intros req Hreq. simpl. rewrite (Hspec req Hreq).
        destruct (dict_get "name" d); simpl; [reflexivity|].
        destruct req; [contradiction Hreq; reflexivity | reflexivity].
      * exists names. split; [assumption|].
        intros req Hreq. rewrite (Hspec req Hreq).
        destruct (dict_get "name" d); reflexivity.
    + exists names. split; [assumption|].
      intros req Hreq. rewrite (Hspec req Hreq). reflexivity.
Qed.

Lemma top_level_file_names_raises (items : list value) :
  forallb is_dict items = false ->
  top_level_file_names items = Raise AttributeError.
Proof.
  induction items as [|item rest IH]; simpl; intros Hd; [discriminate|].
  apply andb_false_iff in Hd as [Hi|Hr].
  - destruct item; try discriminate Hi; reflexivity.
  - destruct item as [| | | | | |d]; try reflexivity.
    simpl.
    destruct (eq_str _ "file"); simpl; rewrite (IH Hr); reflexivity.
Qed.

(** What [validate_structure] computes, case by case. *)
Lemma validate_structure_cases (c : value) :
  validate_structure c =
    if forallb is_dict (top_level_items c)
    then Ok (valid_candidate c)
    else Raise AttributeError.
Proof.
  destruct c as [| | | | | |d]; try reflexivity.
  unfold validate_structure, top_level_items, valid_candidate.
  destruct (dict_has "name" d); simpl; [|reflexivity].
  destruct (dict_has "structure" d); simpl; [|reflexivity].
  destruct (dict_get "structure" d) as [[| | | | |items|]|]; try reflexivity.
  destruct (forallb is_dict items) eqn:Hd.
  - destruct (top_level_file_names_dicts items Hd) as (names & Hn & Hspec).
    rewrite Hn. simpl. rewrite !Hspec, andb_true_r by discriminate. reflexivity.
  - rewrite (top_level_file_names_raises items Hd). reflexivity.
Qed.

(** C1, as the code has it: [validate_structure] returns true exactly for
    the candidates that are mappings with a name and a structure key, whose
    structure is a sequence holding a top-level File named README.md and one
    named .gitignore, and whose top-level elements are all mappings; it
    returns false exactly for the candidates that miss one of the former
    conditions while every top-level element they have is a mapping. *)
Theorem validate_structure_true_iff (c : value) :
  (validate_structure c = Ok true <->
     valid_candidate c = true /\ forallb is_dict (top_level_items c) = true)
  /\
  (validate_structure c = Ok false <->
     valid_candidate c = false /\ forallb is_dict (top_level_items c) = true).
Proof.
  rewrite validate_structure_cases.
  destruct (forallb is_dict (top_level_items c));
    destruct (valid_candidate c); split; split;
    try (intros [? ?]); try intros ?; try split;
    try reflexivity; try discriminate.
Qed.

(** C1 as stated fails: every stated condition holds of this candidate, and
    the validator raises instead of returning true. *)
Lemma validate_structure_stray_item :
  valid_candidate candidate_with_stray_item = true /\
  validate_structure candidate_with_stray_item = Raise AttributeError /\
  validate_structure candidate_with_stray_item <> Ok true.
Proof.
  repeat split; try reflexivity. discriminate.
Qed.

(** Required files that occur only inside a folder do not count. *)
Example validate_structure_nested_only :
  validate_structure candidate_nested_only = Ok false.
Proof. reflexivity. Qed.

(** *** The preference parser *)

(** On a keyword letter that is no capital, comparing with the lower-cased
    letter of the text is matching without regard to case. *)
Lemma lower_char_nocase (k c : ascii) :
  negb ((65 <=? nat_of_ascii k)%nat && (nat_of_ascii k <=? 90)%nat) = true ->
  Ascii.eqb (lower_char c) k = eq_nocase k c.
Proof.
  intros Hk. unfold lower_char, eq_nocase. cbv zeta.
  destruct ((65 <=? nat_of_ascii c)%nat && (nat_of_ascii c <=? 90)%nat) eqn:Hc.
  - assert (Hck : Ascii.eqb c k = false).
    { destruct (Ascii.eqb_spec c k) as [->|_]; [|reflexivity].
      rewrite Hc in Hk. discriminate Hk. }
    rewrite Hck. cbn [orb andb].
    apply andb_true_iff in Hc as [_ Hle]. apply Nat.leb_le in Hle.
    destruct (Ascii.eqb_spec (ascii_of_nat (nat_of_ascii c + 32)) k) as [E|N].
    + symmetry. apply Nat.eqb_eq. rewrite <- E.
      symmetry. apply nat_ascii_embedding. lia.
    + symmetry. apply Nat.eqb_neq. intros E. apply N.
      rewrite E. apply ascii_nat_embedding.
  - cbn [andb]. rewrite orb_false_r. reflexivity.
Qed.

Lemma prefix_lower_nocase (keyword : string) :
  no_capital keyword = true ->
  forall text, String.prefix keyword (lower text) = prefix_nocase keyword text.
Proof.
  induction keyword as [|k keyword IH]; intros Hk text.
  - destruct text; reflexivity.
  - cbn [no_capital] in Hk. cbv zeta in Hk.
    apply andb_true_iff in Hk as [Hk Hrest].
    destruct text as [|c text]; [reflexivity|].
    cbn [lower String.prefix prefix_nocase].
    rewrite <- (lower_char_nocase k c Hk), <- (IH Hrest text).
    destruct (ascii_dec k (lower_char c)) as [E|N].
    + rewrite <- E, Ascii.eqb_refl. reflexivity.
    + destruct (Ascii.eqb_spec (lower_char c) k) as [E|_]; [|reflexivity].
      contradiction N. symmetry. exact E.
Qed.

(** Searching a keyword without capitals in the lower-cased text is
    searching it in the text without regard to case. *)
Lemma contains_lower_nocase (keyword : string) :
  no_capital keyword = true ->
  forall text, contains keyword (lower text) = contains_nocase keyword text.
Proof.
  intros Hk text. induction text as [|c text IH].
  - cbn [lower contains contains_nocase].
    rewrite <- (prefix_lower_nocase keyword Hk ""). reflexivity.
  - cbn [contains_nocase]. rewrite <- IH, <- (prefix_lower_nocase keyword Hk).
    reflexivity.
Qed.

(** C10: for a text that [str.strip] does not empty, each flag is the
    presence of its keyword in the text that [str.lower] returns, whatever
    these two functions do: the defaults do not survive, and a keyword
    inside another word counts; a text that [str.strip] empties gives the
    defaults, which keep the documentation and test folders.  On an ASCII
    text, which [str.lower] lower-cases letter by letter, each flag is the
    presence of its keyword in the text in whatever letter case. *)
Theorem parse_preferences_flags (str_lower str_strip : string -> string)
    (prefs_text : string) :
  str_strip prefs_text <> "" ->
  let prefs := parse_preferences str_lower str_strip prefs_text in
  let prefs_lower := str_lower prefs_text in
  include_docs prefs =
    (contains "docs" prefs_lower || contains "documentation" prefs_lower)
  /\ include_tests prefs = contains "test" prefs_lower
  /\ include_docker prefs = contains "docker" prefs_lower
  /\ include_ci_cd prefs =
       (contains "ci" prefs_lower || contains "github actions" prefs_lower)
  /\ (contains "docs" prefs_lower = false ->
      contains "documentation" prefs_lower = false ->
      include_docs prefs = false)
  /\ (contains "test" prefs_lower = false -> include_tests prefs = false)
  /\ (contains "ci" prefs_lower = true -> include_ci_cd prefs = true)
  /\ (forall blank, str_strip blank = "" ->
        parse_preferences str_lower str_strip blank = default_preferences
        /\ include_docs (parse_preferences str_lower str_strip blank) = true
        /\ include_tests (parse_preferences str_lower str_strip blank) = true)
  /\ (agree_on_ascii str_lower lower -> is_ascii prefs_text = true ->
        include_docs prefs =
          (contains_nocase "docs" prefs_text
           || contains_nocase "documentation" prefs_text)
        /\ include_tests prefs = contains_nocase "test" prefs_text
        /\ include_docker prefs = contains_nocase "docker" prefs_text
        /\ include_ci_cd prefs =
             (contains_nocase "ci" prefs_text
              || contains_nocase "github actions" prefs_text)).
Proof.
  intros Hne. cbv zeta.
  assert (E : parse_preferences str_lower str_strip prefs_text =
            {| include_docs :=
                 contains "docs" (str_lower prefs_text)
                 || contains "documentation" (str_lower prefs_text);
               include_tests := contains "test" (str_lower prefs_text);
               include_docker := contains "docker" (str_lower prefs_text);
               include_ci_cd :=
                 contains "ci" (str_lower prefs_text)
                 || contains "github actions" (str_lower prefs_text);
               custom_folders :=
                 collect_custom_folders str_strip (split newline prefs_text);
               framework_specific := true |}).
  { unfold parse_preferences.
    destruct (String.eqb_spec (str_strip prefs_text) "") as [E|_];
      [contradiction | reflexivity]. }
  rewrite E. cbn [include_docs include_tests include_docker include_ci_cd].
  repeat match goal with |- _ /\ _ => split end; try reflexivity.
  - intros H1 H2. rewrite H1, H2. reflexivity.
  - intros H. exact H.
  - intros H. rewrite H. reflexivity.
  - intros blank Hblank. unfold parse_preferences. rewrite Hblank.
    repeat split.
  - intros Hlower Hascii. rewrite (Hlower prefs_text Hascii).
    rewrite !contains_lower_nocase by reflexivity.
    repeat split.
Qed.

Lemma parse_preferences_flags_witness :
  strip "Use DOCKER and run the CI; a Specific layout" <> "" /\
  (let prefs :=
     parse_preferences lower strip
       "Use DOCKER and run the CI; a Specific layout" in
   include_docs prefs = false /\ include_tests prefs = false
   /\ include_docker prefs = true /\ include_ci_cd prefs = true).
Proof.
  assert (H : strip "Use DOCKER and run the CI; a Specific layout" <> "")
    by (vm_compute; discriminate).
  split; [exact H|].
  pose proof (parse_preferences_flags lower strip
                "Use DOCKER and run the CI; a Specific layout" H) as P.
  cbv zeta in P |- *.
  destruct P as (_ & _ & _ & _ & _ & _ & _ & _ & Hascii).
  destruct (Hascii (fun s _ => eq_refl) eq_refl) as (Hdocs & Htest & Hdock & Hci).
  rewrite Hdocs, Htest, Hdock, Hci. repeat split.
Defined.

(** Capitals count as their small letters, and a keyword inside another
    word counts. *)
Example parse_preferences_letter_case :
  include_docker (parse_preferences lower strip "DOCKER") = true /\
  include_docker (parse_preferences lower strip "Docker") = true /\
  include_docker (parse_preferences lower strip "dock") = false /\
  include_ci_cd (parse_preferences lower strip "a specific layout") = true /\
  include_docs (parse_preferences lower strip "a specific layout") = false /\
  include_tests (parse_preferences lower strip "a specific layout") = false.
Proof. repeat split. Qed.

(** *** The tree renderer *)

(** C8: the sample structure renders as the four stated lines. *)
Theorem structure_to_tree_app (py_repr : value -> string) :
  json_decode app_structure_text = Decoded app_structure /\
  structure_to_tree py_repr app_structure =
    Ok "app/
├── a.txt
└── src/
    └── b.txt".
Proof.
  split; reflexivity.
Qed.

(** *** The output parser *)

Lemma occurs_app (c : ascii) (s t : string) :
  occurs c (s ++ t) = occurs c s || occurs c t.
Proof.
  induction s as [|a s IH]; simpl; [reflexivity|].
  rewrite IH. apply orb_assoc.
Qed.

Lemma from_first_open_app (pre rest : string) :
  occurs "{" pre = false ->
  from_first_open (pre ++ String "{" rest) = Some (String "{" rest).
Proof.
  induction pre as [|a pre IH]; simpl; intros H; [reflexivity|].
  apply orb_false_iff in H as [Ha Hp].
  rewrite Ha. apply IH, Hp.
Qed.

Lemma from_first_open_some (s t : string) :
  from_first_open s = Some t -> exists r, t = String "{" r.
Proof.
  induction s as [|a s IH]; simpl; [discriminate|].
  destruct (Ascii.eqb_spec a "{") as [->|_].
  - intros [= <-]. eexists; reflexivity.
  - exact IH.
Qed.

Lemma upto_last_close_none (s : string) :
  occurs "}" s = false -> upto_last_close s = None.
Proof.
  induction s as [|a s IH]; simpl; intros H; [reflexivity|].
  apply orb_false_iff in H as [Ha Hs].
  rewrite (IH Hs), Ha. reflexivity.
Qed.

Lemma upto_last_close_app (body s p : string) :
  upto_last_close s = Some p ->
  upto_last_close (body ++ s) = Some (body ++ p).
Proof.
  intros H. induction body as [|a body IH]; simpl; [exact H|].
  rewrite IH. reflexivity.
Qed.

Lemma upto_last_close_some (s : string) :
  occurs "}" s = true -> exists p, upto_last_close s = Some p.
Proof.
  induction s as [|a s IH]; simpl; [discriminate|].
  intros H. destruct (upto_last_close s) as [p|].
  - eexists; reflexivity.
  - destruct (Ascii.eqb a "}") eqn:Ea.
    + eexists; reflexivity.
    + simpl in H. destruct (IH H) as [p Hp]. discriminate Hp.
Qed.

(** The match of the pattern: from the first opening brace to the last
    closing brace. *)
Lemma search_braces_span (pre body post : string) :
  occurs "{" pre = false ->
  occurs "}" post = false ->
  search_braces (pre ++ "{" ++ body ++ "}" ++ post) = Some ("{" ++ body ++ "}").
Proof.
  intros Hpre Hpost. unfold search_braces. simpl.
  rewrite (from_first_open_app pre _ Hpre).
  rewrite (upto_last_close_app body (String "}" post) "}").
  - reflexivity.
  - simpl. rewrite (upto_last_close_none _ Hpost). reflexivity.
Qed.

Lemma from_first_open_close_after (pre rest : string) :
  occurs "}" rest = true ->
  exists r, from_first_open (pre ++ String "{" rest) = Some (String "{" r)
            /\ occurs "}" r = true.
Proof.
  intros H. induction pre as [|a pre IH]; simpl.
  - exists rest. split; [reflexivity | exact H].
  - destruct (Ascii.eqb_spec a "{") as [->|_]; [|exact IH].
    exists (pre ++ String "{" rest). split; [reflexivity|].
    rewrite occurs_app. simpl. rewrite H. apply orb_true_r.
Qed.

(** No match: no opening brace has a closing brace after it. *)
Lemma search_braces_none (text : string) :
  search_braces text = None ->
  forall pre body post, text <> pre ++ "{" ++ body ++ "}" ++ post.
Proof.
  intros Hnone pre body post ->.
  destruct (from_first_open_close_after pre (body ++ "}" ++ post))
    as (r & Hr & Hc).
  { rewrite occurs_app. simpl. apply orb_true_r. }
  unfold search_braces in Hnone.
  change (pre ++ "{" ++ body ++ "}" ++ post)
    with (pre ++ String "{" (body ++ "}" ++ post)) in Hnone.
  rewrite Hr in Hnone.
  destruct (upto_last_close_some _ Hc) as [p Hp].
  rewrite Hp in Hnone. discriminate.
Qed.

Lemma from_first_open_split (s t : string) :
  from_first_open s = Some t -> exists pre, s = pre ++ t.
Proof.
  induction s as [|a s IH]; simpl; [discriminate|].
  destruct (Ascii.eqb a "{").
  - intros [= <-]. exists "". reflexivity.
  - intros H. destruct (IH H) as [pre ->]. exists (String a pre). reflexivity.
Qed.

Lemma upto_last_close_split (s p : string) :
  upto_last_close s = Some p ->
  exists body post, p = body ++ "}" /\ s = body ++ "}" ++ post.
Proof.
  revert p. induction s as [|a s IH]; simpl; intros p; [discriminate|].
  destruct (upto_last_close s) as [q|].
  - intros [= <-]. destruct (IH q eq_refl) as (body & post & -> & ->).
    exists (String a body), post. split; reflexivity.
  - destruct (Ascii.eqb_spec a "}") as [->|_]; [|discriminate].
    intros [= <-]. exists "", s. split; reflexivity.
Qed.

(** A match is a span of the text that starts with an opening brace and
    ends with a closing one. *)
Lemma search_braces_some (text span : string) :
  search_braces text = Some span ->
  exists pre body post,
    text = pre ++ "{" ++ body ++ "}" ++ post /\ span = "{" ++ body ++ "}".
Proof.
  unfold search_braces. intros H.
  destruct (from_first_open text) as [t|] eqn:Ef; [|discriminate].
  destruct (from_first_open_some _ _ Ef) as [r ->].
  destruct (from_first_open_split _ _ Ef) as [pre ->].
  destruct (upto_last_close r) as [q|] eqn:Eu; [|discriminate].
  injection H as <-.
  destruct (upto_last_close_split _ _ Eu) as (body & post & -> & ->).
  exists pre, body, post. split; reflexivity.
Qed.

(** C7, as the code has it: the text handed to the decoder is the span from
    the first opening brace to the last closing brace (no balancing), or the
    whole text as [str.strip] trims it when no opening brace is followed by
    a closing one; the result is [None] exactly when that one decoding
    raises [json.JSONDecodeError] or gives [null], it is the decoded value
    otherwise, and an exception of any other kind leaves the parser exactly
    when the decoder raises it; the two sample texts behave as stated, and
    the digit limit of [int] surfaces as a [ValueError]. *)
Theorem parse_llm_output_span (str_strip : string -> string)
    (json_loads : string -> loaded) :
  (forall pre body post,
      occurs "{" pre = false ->
      occurs "}" post = false ->
      parse_llm_output str_strip json_loads (pre ++ "{" ++ body ++ "}" ++ post)
      = or_none (json_loads ("{" ++ body ++ "}")))
  /\ (forall text,
      (forall pre body post, text <> pre ++ "{" ++ body ++ "}" ++ post) ->
      parse_llm_output str_strip json_loads text
      = or_none (json_loads (str_strip text)))
  /\ (forall text,
      parse_llm_output str_strip json_loads text = Ok VNone <->
      json_loads (attempted_text str_strip text) = JSONDecodeError
      \/ json_loads (attempted_text str_strip text) = Decoded VNone)
  /\ (forall text v,
      v <> VNone ->
      (parse_llm_output str_strip json_loads text = Ok v <->
       json_loads (attempted_text str_strip text) = Decoded v))
  /\ (forall text e,
      parse_llm_output str_strip json_loads text = Raise e <->
      json_loads (attempted_text str_strip text) = LoadsRaised e)
  /\ parse_llm_output strip json_decode prose_response
     = Ok (VDict [("name", VStr "x"); ("structure", VList [])])
  /\ parse_llm_output strip json_decode "not json at all" = Ok VNone
  /\ parse_llm_output strip json_decode long_integer_text = Raise ValueError.
Proof.
  repeat match goal with |- _ /\ _ => split end;
    try reflexivity; try (vm_compute; reflexivity).
  - intros pre body post Hpre Hpost. unfold parse_llm_output.
    rewrite (search_braces_span pre body post Hpre Hpost). reflexivity.
  - intros text Hno. unfold parse_llm_output.
    destruct (search_braces text) as [span|] eqn:Es; [|reflexivity].
    exfalso. destruct (search_braces_some text span Es)
      as (pre & body & post & Ht & _).
    exact (Hno pre body post Ht).
  - intros text. unfold parse_llm_output, attempted_text.
    destruct (search_braces text);
      (destruct (json_loads _) as [v| |e]; simpl;
       [split; [intros [= ->]; right; reflexivity
               | intros [H|H]; [discriminate | injection H as ->; reflexivity]]
       | split; [left; reflexivity | reflexivity]
       | split; [discriminate | intros [H|H]; discriminate]]).
  - intros text v Hv. unfold parse_llm_output, attempted_text.
    destruct (search_braces text);
      (destruct (json_loads _) as [v'| |e]; simpl;
       [split; intros [= ->]; reflexivity
       | split; [intros [= <-]; destruct (Hv eq_refl) | discriminate]
       | split; discriminate]).
  - intros text e. unfold parse_llm_output, attempted_text.
    destruct (search_braces text);
      (destruct (json_loads _) as [v'| |e']; simpl;
       [split; discriminate
       | split; discriminate
       | split; intros [= ->]; reflexivity]).
Qed.

Lemma parse_llm_output_span_witness :
  occurs "{" "Sure: " = false /\
  occurs "}" " Done." = false /\
  parse_llm_output strip json_decode
    ("Sure: " ++ "{" ++ " " ++ "}" ++ " Done.")
  = or_none (json_decode ("{" ++ " " ++ "}")) /\
  parse_llm_output strip json_decode "not json at all"
  = or_none (json_decode (strip "not json at all")) /\
  parse_llm_output strip json_decode " [true] " = Ok (VList [VBool true]).
Proof.
  destruct (parse_llm_output_span strip json_decode)
    as (Hspan & Hnone & _ & Hvalue & _).
  split; [reflexivity|]. split; [reflexivity|]. split; [|split].
  - apply Hspan; reflexivity.
  - apply Hnone. apply search_braces_none. reflexivity.
  - apply Hvalue; [discriminate | reflexivity].
Defined.

(** C7 as stated fails.  The first balanced-brace span of the first text
    is a valid JSON object, yet the parser hands the decoder everything from
    the first opening to the last closing brace and returns [None].  The
    second text decodes, although the span taken is not brace-balanced and
    its balanced part is not valid JSON. *)
Lemma parse_llm_output_not_balanced :
  (first_balanced_span "{} {}" = Some "{}"
   /\ parse_balanced strip json_decode "{} {}" = Ok (VDict [])
   /\ search_braces "{} {}" = Some "{} {}"
   /\ parse_llm_output strip json_decode "{} {}" = Ok VNone
   /\ parse_llm_output strip json_decode "{} {}"
      <> parse_balanced strip json_decode "{} {}")
  /\
  (search_braces brace_in_string_text = Some brace_in_string_text
   /\ brace_balanced brace_in_string_text = false
   /\ parse_llm_output strip json_decode brace_in_string_text
      = Ok (VDict [("a", VStr "}")])
   /\ parse_balanced strip json_decode brace_in_string_text = Ok VNone).
Proof.
  repeat split; try reflexivity. discriminate.
Qed.

(** When a span is found and does not decode, the whole text is not tried;
    and the valid text [null] gives [None] as well. *)
Example parse_llm_output_single_attempt :
  json_decode (with_dquotes "['{', '}']")
  = Decoded (VList [VStr "{"; VStr "}"]) /\
  parse_llm_output strip json_decode (with_dquotes "['{', '}']") = Ok VNone /\
  json_decode "null" = Decoded VNone /\
  parse_llm_output strip json_decode "null" = Ok VNone.
Proof. repeat split; reflexivity. Qed.

(** The digit limit is the decoder's: 4300 digits decode, one more raises,
    also inside an object, and a malformed text before the long literal is
    met first. *)
Example json_decode_digit_limit :
  (exists z,
     json_decode (string_of_list_ascii (repeat "7"%char 4300)) = Decoded (VInt z))
  /\ json_decode long_integer_text = LoadsRaised ValueError
  /\ parse_llm_output strip json_decode
       ("{" ++ quoted "n" ++ ":" ++ long_integer_text ++ "}") = Raise ValueError
  /\ json_decode ("[tru, " ++ long_integer_text ++ "]") = JSONDecodeError.
Proof.
  split; [eexists; vm_compute; reflexivity|].
  repeat split; vm_compute; reflexivity.
Qed.

(** *** Facts on stable sorting *)

Section SortFacts.

Variable A : Type.
Variable le : A -> A -> bool.

Let le_prop (x y : A) : Prop := le x y = true.

Lemma insert_perm (x : A) (l : list A) :
  Permutation (insert le x l) (x :: l).
Proof.
  induction l as [|y r IH]; simpl; [reflexivity|].
  destruct (le x y); [reflexivity|].
  rewrite IH. apply perm_swap.
Qed.

Lemma stable_sort_perm (l : list A) : Permutation (stable_sort le l) l.
Proof.
  induction l as [|x r IH]; simpl; [reflexivity|].
  rewrite insert_perm, IH. reflexivity.
Qed.

Hypothesis le_total : forall x y, le x y = true \/ le y x = true.
Hypothesis le_trans :
  forall x y z, le x y = true -> le y z = true -> le x z = true.

Lemma insert_sorted (x : A) (l : list A) :
  StronglySorted le_prop l -> StronglySorted le_prop (insert le x l).
Proof.
  induction 1 as [|y r Hs IH Hall]; simpl.
  - constructor; constructor.
  - destruct (le x y) eqn:E.
    + constructor; [constructor; assumption|].
      constructor; [exact E|].
      eapply Forall_impl; [|exact Hall].
      intros z Hz. exact (le_trans x y z E Hz).
    + constructor; [exact IH|].
      assert (Hyx : le y x = true)
        by (destruct (le_total x y) as [H|H]; [congruence | exact H]).
      apply (Permutation_Forall (Permutation_sym (insert_perm x r))).
      constructor; assumption.
Qed.

Lemma stable_sort_sorted (l : list A) :
  StronglySorted le_prop (stable_sort le l).
Proof.
  induction l as [|x r IH]; simpl; [constructor|].
  apply insert_sorted, IH.
Qed.

Hypothesis le_antisym : forall x y, le x y = true -> le y x = true -> x = y.

Lemma sorted_perm_eq (l1 l2 : list A) :
  StronglySorted le_prop l1 -> StronglySorted le_prop l2 ->
  Permutation l1 l2 -> l1 = l2.
Proof.
  intros H1. revert l2.
  induction H1 as [|x r1 Hs1 IH Hall1]; intros l2 H2 Hp.
  - apply Permutation_nil in Hp. subst. reflexivity.
  - destruct H2 as [|y r2 Hs2 Hall2].
    + apply Permutation_sym, Permutation_nil in Hp. discriminate.
    + assert (Exy : x = y).
      { assert (Hx : In x (y :: r2))
          by (apply (Permutation_in _ Hp); left; reflexivity).
        assert (Hy : In y (x :: r1))
          by (apply (Permutation_in _ (Permutation_sym Hp)); left; reflexivity).
        destruct Hx as [->|Hx]; [reflexivity|].
        destruct Hy as [->|Hy]; [reflexivity|].
        rewrite Forall_forall in Hall1, Hall2.
        apply le_antisym; [apply Hall1, Hy | apply Hall2, Hx]. }
      subst y. f_equal. apply IH; [exact Hs2|].
      exact (Permutation_cons_inv Hp).
Qed.

(** The sorted list depends on the elements only, not on their order. *)
Lemma stable_sort_perm_eq (l1 l2 : list A) :
  Permutation l1 l2 -> stable_sort le l1 = stable_sort le l2.
Proof.
  intros Hp. apply sorted_perm_eq; try apply stable_sort_sorted.
  rewrite !stable_sort_perm. exact Hp.
Qed.

End SortFacts.

(** Sortedness where the comparison is only known to order the elements
    at hand; and stability: elements that a test [P] cannot tell apart in
    order keep their relative places. *)
Section SortFactsOn.

Variable A : Type.
Variable le : A -> A -> bool.

Let le_prop (x y : A) : Prop := le x y = true.

Lemma insert_sorted_on (x : A) (l : list A) :
  (forall y, In y l -> le x y = true \/ le y x = true) ->
  (forall y z, In y l -> In z l ->
     le x y = true -> le y z = true -> le x z = true) ->
  StronglySorted le_prop l -> StronglySorted le_prop (insert le x l).
Proof.
  intros Htot Htrans Hs.
  induction Hs as [|y r Hs IH Hall]; simpl.
  - constructor; constructor.
  - destruct (le x y) eqn:E.
    + constructor; [constructor; assumption|].
      constructor; [exact E|].
      rewrite Forall_forall in Hall |- *.
      intros z Hz.
      apply (Htrans y z (or_introl eq_refl) (or_intror Hz) E (Hall z Hz)).
    + constructor.
      * apply IH.
        -- intros z Hz. apply Htot. right; exact Hz.
        -- intros z t Hz Ht. apply Htrans; right; assumption.
      * assert (Hyx : le y x = true).
        { destruct (Htot y (or_introl eq_refl)) as [H|H];
            [congruence | exact H]. }
        apply (Permutation_Forall (Permutation_sym (insert_perm A le x r))).
        constructor; assumption.
Qed.

Lemma stable_sort_sorted_on (l : list A) :
  (forall x y, In x l -> In y l -> le x y = true \/ le y x = true) ->
  (forall x y z, In x l -> In y l -> In z l ->
     le x y = true -> le y z = true -> le x z = true) ->
  StronglySorted le_prop (stable_sort le l).
Proof.
  induction l as [|x r IH]; intros Htot Htrans; simpl; [constructor|].
  assert (Hin : forall y, In y (stable_sort le r) -> In y r)
    by (intros y; apply Permutation_in, stable_sort_perm).
  apply insert_sorted_on.
  - intros y Hy. apply Htot; [left; reflexivity | right; apply Hin, Hy].
  - intros y z Hy Hz. apply Htrans;
      [left; reflexivity | right; apply Hin, Hy | right; apply Hin, Hz].
  - apply IH.
    + intros y z Hy Hz. apply Htot; right; assumption.
    + intros y z t Hy Hz Ht. apply Htrans; right; assumption.
Qed.

Lemma insert_stable_on (P : A -> bool) (x : A) (l : list A) :
  (forall b, In b l -> P x = true -> P b = true -> le x b = true) ->
  filter P (insert le x l) = filter P (x :: l).
Proof.
  induction l as [|y r IH]; intros HP; [reflexivity|].
  simpl insert. destruct (le x y) eqn:E; [reflexivity|].
  cbn [filter]. rewrite IH by (intros b Hb; apply HP; right; exact Hb).
  cbn [filter].
  destruct (P x) eqn:Px, (P y) eqn:Py; try reflexivity.
  rewrite (HP y (or_introl eq_refl) eq_refl Py) in E. discriminate.
Qed.

Lemma stable_sort_stable_on (P : A -> bool) (l : list A) :
  (forall a b, In a l -> In b l -> P a = true -> P b = true -> le a b = true) ->
  filter P (stable_sort le l) = filter P l.
Proof.
  induction l as [|x r IH]; intros HP; [reflexivity|].
  simpl stable_sort. rewrite insert_stable_on.
  - simpl. rewrite IH; [reflexivity|].
    intros a b Ha Hb. apply HP; right; assumption.
  - intros b Hb. apply HP; [left; reflexivity|].
    right. apply (Permutation_in _ (stable_sort_perm A le r)), Hb.
Qed.

End SortFactsOn.

Lemma string_leb_trans (a b c : string) :
  String.leb a b = true -> String.leb b c = true -> String.leb a c = true.
Proof.
  unfold String.leb. revert b c.
  induction a as [|x a IH]; intros [|y b] [|z c]; simpl; try easy.
  unfold Ascii.compare.
  destruct (N.compare_spec (N_of_ascii x) (N_of_ascii y)) as [E1|L1|G1];
    destruct (N.compare_spec (N_of_ascii y) (N_of_ascii z)) as [E2|L2|G2];
    destruct (N.compare_spec (N_of_ascii x) (N_of_ascii z)) as [E3|L3|G3];
    try easy; try lia.
  apply IH.
Qed.

(** [sorted] gives the same list for the same names in any order. *)
Lemma sorted_perm (l1 l2 : list string) :
  Permutation l1 l2 -> sorted l1 = sorted l2.
Proof.
  apply stable_sort_perm_eq.
  - apply String.leb_total.
  - apply string_leb_trans.
  - apply String.leb_antisym.
Qed.

(** *** The cache key *)

(** C3: the key depends on the tech stack only through its entries
    lower-cased and trimmed, up to order. *)
Theorem make_cache_key_canonical
    (str_lower str_strip : string -> string)
    (json_dumps : value -> string) (md5_hexdigest : string -> string)
    (project_desc : string) (prefs : option value)
    (tech_stack1 tech_stack2 : list string) :
  Permutation (map (fun tech => str_strip (str_lower tech)) tech_stack1)
              (map (fun tech => str_strip (str_lower tech)) tech_stack2) ->
  make_cache_key str_lower str_strip json_dumps md5_hexdigest project_desc
    tech_stack1 prefs
  = make_cache_key str_lower str_strip json_dumps md5_hexdigest project_desc
      tech_stack2 prefs.
Proof.
  intros Hp. unfold make_cache_key, cache_data.
  rewrite (sorted_perm _ _ Hp). reflexivity.
Qed.

Lemma make_cache_key_canonical_witness :
  Permutation (map (fun tech => strip (lower tech)) ["React"; "node.js"])
              (map (fun tech => strip (lower tech)) ["Node.js"; " react "])
  /\ make_cache_key lower strip sample_dumps sample_digest "A Web Shop"
       ["React"; "node.js"] (Some (prefs_dict default_preferences))
     = make_cache_key lower strip sample_dumps sample_digest "A Web Shop"
       ["Node.js"; " react "] (Some (prefs_dict default_preferences)).
Proof.
  assert (Hp : Permutation
                 (map (fun tech => strip (lower tech)) ["React"; "node.js"])
                 (map (fun tech => strip (lower tech)) ["Node.js"; " react "]))
    by (simpl; apply perm_swap).
  split; [exact Hp|].
  apply (make_cache_key_canonical lower strip sample_dumps sample_digest
           "A Web Shop" (Some (prefs_dict default_preferences)) _ _ Hp).
Defined.

(** The stated pair of tech stacks, for any serializer and digest. *)
Example make_cache_key_react_node
    (json_dumps : value -> string) (md5_hexdigest : string -> string)
    (project_desc : string) (prefs : option value) :
  make_cache_key lower strip json_dumps md5_hexdigest project_desc
    ["React"; "node.js"] prefs
  = make_cache_key lower strip json_dumps md5_hexdigest project_desc
      ["Node.js"; "react"] prefs.
Proof. reflexivity. Qed.

(** *** The example ranker *)

Lemma score_repos_catalog (embedding score : Type)
    (cosine : embedding -> embedding -> score)
    (encode : string -> option embedding) (q : embedding)
    (example_repos : list repo) (similarities : list (score * repo)) :
  score_repos cosine encode q example_repos = Some similarities ->
  map snd similarities = example_repos.
Proof.
  revert similarities.
  induction example_repos as [|r rest IH]; simpl; intros sims H.
  - injection H as <-. reflexivity.
  - destruct (encode _); [|discriminate].
    destruct (score_repos cosine encode q rest) as [sims'|]; [|discriminate].
    injection H as <-. simpl. rewrite (IH sims' eq_refl). reflexivity.
Qed.

(** Every score is the similarity of the query and its own entry. *)
Lemma score_repos_scored (embedding score : Type)
    (cosine : embedding -> embedding -> score)
    (encode : string -> option embedding) (q : embedding)
    (example_repos : list repo) (similarities : list (score * repo)) :
  score_repos cosine encode q example_repos = Some similarities ->
  Forall (scored encode cosine q) similarities.
Proof.
  revert similarities.
  induction example_repos as [|r rest IH]; cbn [score_repos]; intros sims H.
  - injection H as <-. constructor.
  - cbv zeta in H.
    destruct (encode (repo_description r ++ " " ++ join " " (repo_tech_stack r)))
      as [e|] eqn:Ee; [|discriminate].
    destruct (score_repos cosine encode q rest) as [sims'|]; [|discriminate].
    injection H as <-. constructor; [|apply IH; reflexivity].
    exists e. split; [exact Ee | reflexivity].
Qed.

Section ScoreOrder.

Variable score : Type.
Variable score_lt : score -> score -> bool.
Variable unordered_le :
  list (score * repo) -> nat -> nat -> bool.

(** What the check of [ordered_scores] gives for scores of the list. *)
Lemma ordered_scores_spec (keys : list score) :
  ordered_scores score_lt keys = true ->
  forall a b, In a keys -> In b keys ->
    (score_lt a b = true -> score_lt b a = false)
    /\ forall c, In c keys ->
         score_lt a b = false -> score_lt b c = false -> score_lt a c = false.
Proof.
  unfold ordered_scores. intros H a b Ha Hb.
  rewrite forallb_forall in H. specialize (H a Ha).
  rewrite forallb_forall in H. specialize (H b Hb).
  apply andb_true_iff in H as [Hasym Hneg].
  split.
  - intros Hab. rewrite Hab in Hasym. simpl in Hasym.
    apply negb_true_iff in Hasym. exact Hasym.
  - intros c Hc Hab Hbc.
    rewrite forallb_forall in Hneg. specialize (Hneg c Hc).
    rewrite Hab, Hbc in Hneg. simpl in Hneg.
    apply negb_true_iff in Hneg. exact Hneg.
Qed.

Lemma sort_by_score_perm (similarities : list (score * repo)) :
  Permutation (sort_by_score score_lt unordered_le similarities) similarities.
Proof.
  unfold sort_by_score.
  destruct (ordered_scores score_lt (map fst similarities));
    [apply stable_sort_perm|].
  rewrite (Permutation_map snd (stable_sort_perm _ _ _)).
  assert (H : forall (l : list (score * repo)) (start : nat),
             map snd (combine (seq start (List.length l)) l) = l).
  { induction l as [|x l IH]; intros start; [reflexivity|].
    cbn [List.length seq combine map snd]. rewrite IH. reflexivity. }
  rewrite H. reflexivity.
Qed.

Lemma sort_by_score_sorted (similarities : list (score * repo)) :
  ordered_scores score_lt (map fst similarities) = true ->
  StronglySorted (fun x y => score_lt (fst x) (fst y) = false)
                 (sort_by_score score_lt unordered_le similarities).
Proof.
  intros Hord. unfold sort_by_score. rewrite Hord.
  pose proof (ordered_scores_spec _ Hord) as Hspec.
  assert (Hin : forall x, In x similarities -> In (fst x) (map fst similarities))
    by (intros x; apply in_map).
  pose proof (stable_sort_sorted_on (score * repo)
                (fun x y => negb (score_lt (fst x) (fst y))) similarities) as H.
  cbv beta in H.
  assert (Hs : StronglySorted
                 (fun x y => negb (score_lt (fst x) (fst y)) = true)
                 (stable_sort (fun x y => negb (score_lt (fst x) (fst y)))
                              similarities)).
  { apply H.
    - intros x y Hx Hy.
      destruct (score_lt (fst x) (fst y)) eqn:E; [|left; reflexivity].
      right. apply negb_true_iff.
      apply (proj1 (Hspec _ _ (Hin x Hx) (Hin y Hy))), E.
    - intros x y z Hx Hy Hz Hxy Hyz.
      apply negb_true_iff in Hxy, Hyz. apply negb_true_iff.
      apply (proj2 (Hspec _ _ (Hin x Hx) (Hin y Hy)) _ (Hin z Hz) Hxy Hyz). }
  clear H. induction Hs as [|x l Hs IH Hall]; constructor; [exact IH|].
  eapply Forall_impl; [|exact Hall].
  intros y Hy. apply negb_true_iff, Hy.
Qed.

Lemma sort_by_score_stable (s : score) (similarities : list (score * repo)) :
  ordered_scores score_lt (map fst similarities) = true ->
  In s (map fst similarities) ->
  filter (tied score_lt s) (sort_by_score score_lt unordered_le similarities)
  = filter (tied score_lt s) similarities.
Proof.
  intros Hord Hs. unfold sort_by_score. rewrite Hord.
  pose proof (ordered_scores_spec _ Hord) as Hspec.
  apply stable_sort_stable_on.
  intros a b Ha Hb Ta Tb. unfold tied in Ta, Tb.
  apply andb_true_iff in Ta as [Ta _], Tb as [_ Tb].
  apply negb_true_iff in Ta, Tb. apply negb_true_iff.
  apply (proj2 (Hspec _ _ (in_map fst _ _ Ha) Hs) _ (in_map fst _ _ Hb) Ta Tb).
Qed.

End ScoreOrder.

Lemma sorted_app_dominates (A : Type) (R : A -> A -> Prop) (l1 l2 : list A) :
  StronglySorted R (l1 ++ l2)%list ->
  forall x y, In x l1 -> In y l2 -> R x y.
Proof.
  induction l1 as [|a l1 IH]; simpl; intros Hs x y Hx Hy; [contradiction|].
  inversion Hs as [|? ? Hs' Hall]; subst.
  destruct Hx as [->|Hx].
  - rewrite Forall_forall in Hall. apply Hall, in_or_app. right; exact Hy.
  - exact (IH Hs' x y Hx Hy).
Qed.

(** C9, as the code has it: when the encoder works and the comparison
    orders the computed scores (no NaN among different numbers), each
    catalog entry is scored with the similarity of the query and its own
    text, the entries are ranked so that no entry stands before one of a
    higher computed score, the first [top_k] are returned, and entries
    whose computed scores the comparison does not separate keep their
    catalog order. *)
Theorem find_similar_repos_ranked
    (embedding score : Type) (encode : string -> option embedding)
    (cosine : embedding -> embedding -> score)
    (score_lt : score -> score -> bool)
    (unordered_le : list (score * repo) -> nat -> nat -> bool)
    (project_desc : string) (tech_stack : list string)
    (example_repos : list repo) (top_k : Z)
    (query_embedding : embedding) (similarities : list (score * repo)) :
  encode (project_desc ++ " " ++ join " " tech_stack) = Some query_embedding ->
  score_repos cosine encode query_embedding example_repos = Some similarities ->
  (0 <= top_k)%Z ->
  ordered_scores score_lt (map fst similarities) = true ->
  let ranked := sort_by_score score_lt unordered_le similarities in
  let best := firstn (Z.to_nat top_k) ranked in
  let returned :=
    find_similar_repos (Some encode) cosine score_lt unordered_le project_desc
      tech_stack example_repos top_k in
  map snd similarities = example_repos
  /\ Forall (scored encode cosine query_embedding) similarities
  /\ Permutation ranked similarities
  /\ StronglySorted (fun x y => score_lt (fst x) (fst y) = false) ranked
  /\ returned = map snd best
  /\ List.length returned = Nat.min (Z.to_nat top_k) (List.length example_repos)
  /\ (forall x y, In x best -> In y (skipn (Z.to_nat top_k) ranked) ->
                  score_lt (fst x) (fst y) = false)
  /\ (forall s, In s (map fst similarities) ->
        filter (tied score_lt s) ranked = filter (tied score_lt s) similarities
        /\ exists later,
             filter (tied score_lt s) similarities
             = (filter (tied score_lt s) best ++ later)%list)
  /\ default_top_k = 2%Z.
Proof.
  intros Hq Hs Hk Hord ranked best returned.
  pose proof (score_repos_catalog _ _ _ _ _ _ _ Hs) as Hcat.
  assert (Hperm : Permutation ranked similarities)
    by apply sort_by_score_perm.
  assert (Hsorted : StronglySorted
                      (fun x y => score_lt (fst x) (fst y) = false) ranked)
    by (apply sort_by_score_sorted, Hord).
  assert (Hret : returned = map snd best).
  { subst returned best ranked. unfold find_similar_repos.
    rewrite Hq, Hs. unfold slice_to.
    destruct (Z.ltb_spec top_k 0) as [Hneg|_]; [lia | reflexivity]. }
  repeat match goal with |- _ /\ _ => split end.
  - exact Hcat.
  - apply (score_repos_scored _ _ _ _ _ _ _ Hs).
  - exact Hperm.
  - exact Hsorted.
  - exact Hret.
  - rewrite Hret. subst best.
    rewrite length_map, length_firstn, (Permutation_length Hperm).
    rewrite <- Hcat, length_map. reflexivity.
  - intros x y Hx Hy.
    apply (sorted_app_dominates _ (fun x y => score_lt (fst x) (fst y) = false)
             best (skipn (Z.to_nat top_k) ranked)); try assumption.
    subst best. rewrite firstn_skipn. exact Hsorted.
  - intros s Hin. split; [apply sort_by_score_stable; assumption|].
    exists (filter (tied score_lt s) (skipn (Z.to_nat top_k) ranked)).
    subst best. rewrite <- filter_app, firstn_skipn.
    symmetry. apply sort_by_score_stable; assumption.
  - reflexivity.
Qed.

Lemma find_similar_repos_ranked_witness :
  vector_encode ("query" ++ " " ++ join " " []) = Some [1; 1]%Z
  /\ score_repos f32_cosine vector_encode [1; 1]%Z [near_repo; far_repo]
     = Some [(f32_cosine [1; 1]%Z [1; 2]%Z, near_repo);
             (f32_cosine [1; 1]%Z [3; 6]%Z, far_repo)]
  /\ (0 <= 1)%Z
  /\ find_similar_repos (Some vector_encode) f32_cosine f32_lt f32_unordered
       "query" [] [near_repo; far_repo] 1
     = [far_repo].
Proof.
  split; [reflexivity|]. split; [reflexivity|]. split; [lia|].
  pose proof (find_similar_repos_ranked (list Z) float32 vector_encode
                f32_cosine f32_lt f32_unordered "query" []
                [near_repo; far_repo] 1 [1; 1]%Z _
                eq_refl eq_refl ltac:(lia) eq_refl) as P.
  cbv zeta in P.
  destruct P as (_ & _ & _ & _ & Hret & _).
  rewrite Hret. vm_compute. reflexivity.
Defined.

(** C9 as stated fails.  The vectors of the two catalog entries point the
    same way, so that their similarities to the query are the same real
    number; the single-precision results differ in the last bit, and the
    entry that comes second in the catalog is returned first. *)
Lemma find_similar_repos_equal_cosines :
  same_cosine [1; 1]%Z [1; 2]%Z [3; 6]%Z
  /\ score_repos f32_cosine vector_encode [1; 1]%Z [near_repo; far_repo]
     = Some [(S754_finite false 15916264 (-24), near_repo);
             (S754_finite false 15916265 (-24), far_repo)]
  /\ f32_lt (f32_cosine [1; 1]%Z [1; 2]%Z) (f32_cosine [1; 1]%Z [3; 6]%Z) = true
  /\ find_similar_repos (Some vector_encode) f32_cosine f32_lt f32_unordered
       "query" [] [near_repo; far_repo] default_top_k
     = [far_repo; near_repo]
  /\ find_similar_repos (Some vector_encode) f32_cosine f32_lt f32_unordered
       "query" [] [near_repo; far_repo] default_top_k
     <> [near_repo; far_repo].
Proof.
  split; [unfold same_cosine; simpl; lia|].
  repeat split; try (vm_compute; reflexivity).
  vm_compute. discriminate.
Qed.

(** Scores that the comparison does not separate: the entries come back in
    catalog order; a NaN beside one number is such a score. *)
Example find_similar_repos_tie :
  map repo_description
    (find_similar_repos (Some sample_encode) (fun _ _ => 1%Q) sample_lt
       sample_unordered "x" [] get_example_repos default_top_k)
  = map repo_description get_example_repos
  /\ f32_div (f32_of_Z 0) (f32_of_Z 0) = S754_nan
  /\ ordered_scores f32_lt [S754_nan; f32_of_Z 1] = true
  /\ ordered_scores f32_lt [f32_of_Z 1; S754_nan; f32_of_Z 2] = false.
Proof. repeat split. Qed.

(** *** The preference applier *)

Lemma dict_get_set_same (k : string) (v : value) (d : list (string * value)) :
  dict_get k (dict_set k v d) = Some v.
Proof.
  induction d as [|[k' v'] d IH]; simpl.
  - rewrite String.eqb_refl. reflexivity.
  - destruct (String.eqb k' k) eqn:E; simpl; rewrite E; [reflexivity | exact IH].
Qed.

Lemma dict_get_set_other (k k' : string) (v : value)
    (d : list (string * value)) :
  k' <> k -> dict_get k' (dict_set k v d) = dict_get k' d.
Proof.
  intros Hne. induction d as [|[k0 v0] d IH]; simpl.
  - destruct (String.eqb_spec k k'); [congruence | reflexivity].
  - destruct (String.eqb_spec k0 k) as [->|Hk]; simpl.
    + destruct (String.eqb_spec k k'); [congruence | reflexivity].
    + destruct (String.eqb k0 k'); [reflexivity | exact IH].
Qed.

Lemma dict_set_idem (k : string) (v : value) (d : list (string * value)) :
  dict_set k v (dict_set k v d) = dict_set k v d.
Proof.
  induction d as [|[k' v'] d IH]; simpl.
  - rewrite String.eqb_refl. reflexivity.
  - destruct (String.eqb k' k) eqn:E; simpl; rewrite E; [reflexivity|].
    rewrite IH. reflexivity.
Qed.

Lemma dict_set_get (k : string) (v : value) (d : list (string * value)) :
  dict_get k d = Some v -> dict_set k v d = d.
Proof.
  induction d as [|[k' v'] d IH]; simpl; [discriminate|].
  destruct (String.eqb k' k).
  - intros [= ->]. reflexivity.
  - intros H. rewrite (IH H). reflexivity.
Qed.

Lemma any_named_cons_dict (name : string) (d : list (string * value))
    (rest : list value) :
  any_named name (VDict d :: rest)
  = if named name (VDict d) then Ok true else any_named name rest.
Proof.
  simpl. destruct (dict_get "name" d); reflexivity.
Qed.

Lemma any_named_true_app (name : string) (l more : list value) :
  any_named name l = Ok true -> any_named name (l ++ more)%list = Ok true.
Proof.
  induction l as [|item l IH]; [discriminate|].
  destruct item as [| | | | | |d]; try discriminate.
  rewrite <- app_comm_cons, !any_named_cons_dict.
  destruct (named name (VDict d)); [reflexivity | exact IH].
Qed.

Lemma any_named_false_snoc (name : string) (l : list value) (node : value) :
  any_named name l = Ok false -> named name node = true ->
  any_named name (l ++ [node])%list = Ok true.
Proof.
  intros Hl Hn. induction l as [|item l IH].
  - destruct node as [| | | | | |d]; try discriminate Hn.
    simpl app. rewrite any_named_cons_dict, Hn. reflexivity.
  - destruct item as [| | | | | |d]; try discriminate.
    rewrite <- app_comm_cons. rewrite any_named_cons_dict in *.
    destruct (named name (VDict d)); [discriminate | exact (IH Hl)].
Qed.

Lemma any_named_false_count (name : string) (l : list value) :
  any_named name l = Ok false -> count_named name l = 0.
Proof.
  unfold count_named. induction l as [|item l IH]; [reflexivity|].
  destruct item as [| | | | | |d]; try discriminate.
  rewrite any_named_cons_dict. cbn [filter].
  destruct (named name (VDict d)); [discriminate | exact IH].
Qed.

Lemma any_named_true_count (name : string) (l : list value) :
  any_named name l = Ok true -> 1 <= count_named name l.
Proof.
  unfold count_named. induction l as [|item l IH]; [discriminate|].
  destruct item as [| | | | | |d]; try discriminate.
  rewrite any_named_cons_dict. cbn [filter].
  destruct (named name (VDict d)); simpl; [lia | exact IH].
Qed.

Lemma any_named_dicts (name : string) (l : list value) :
  forallb is_dict l = true -> exists b, any_named name l = Ok b.
Proof.
  induction l as [|item l IH]; simpl forallb; intros H.
  - exists false. reflexivity.
  - apply andb_true_iff in H as [Hi Hl].
    destruct item as [| | | | | |d]; try discriminate Hi.
    rewrite any_named_cons_dict.
    destruct (named name (VDict d)); [exists true; reflexivity | exact (IH Hl)].
Qed.

Lemma named_inj (n m : string) (node : value) :
  named n node = true -> named m node = true -> n = m.
Proof.
  destruct node as [| | | | | |d]; try discriminate. simpl.
  destruct (dict_get "name" d) as [[| | | |t| |]|]; try discriminate. simpl.
  intros Hn Hm. apply String.eqb_eq in Hn, Hm. congruence.
Qed.

Lemma count_named_snoc (m : string) (l : list value) (node : value) :
  count_named m (l ++ [node])%list
  = count_named m l + (if named m node then 1 else 0).
Proof.
  unfold count_named. rewrite filter_app, length_app. simpl.
  destruct (named m node); reflexivity.
Qed.

(** One conditional append on a list: the list grows at the end, by a
    node or by nothing; afterwards the name is found. *)
Lemma append_if_absent_list (name : string) (node : value)
    (l : list value) (v : value) :
  named name node = true ->
  append_if_absent name node (VList l) = Ok v ->
  exists added,
    v = VList (l ++ added)%list
    /\ any_named name (l ++ added)%list = Ok true
    /\ forall m, count_named m l <= 1 -> count_named m (l ++ added)%list <= 1.
Proof.
  intros Hn. unfold append_if_absent.
  destruct (any_named name l) as [[|]|e] eqn:Ea; simpl; try discriminate.
  - intros [= <-]. exists []. rewrite app_nil_r.
    repeat split; [exact Ea | intros m Hm; exact Hm].
  - intros [= <-]. exists [node]. repeat split.
    + apply any_named_false_snoc; assumption.
    + intros m Hm. rewrite count_named_snoc.
      destruct (named m node) eqn:Em; [|lia].
      rewrite <- (named_inj _ _ _ Hn Em).
      rewrite (any_named_false_count _ _ Ea). lia.
Qed.

Lemma append_all_list (steps : list (string * value)) :
  Forall named_step steps ->
  forall (l : list value) (v : value),
    append_all steps (VList l) = Ok v ->
    exists added,
      v = VList (l ++ added)%list
      /\ Forall (fun step => any_named (fst step) (l ++ added)%list = Ok true)
                steps
      /\ forall m, count_named m l <= 1 -> count_named m (l ++ added)%list <= 1.
Proof.
  induction 1 as [|[name node] rest Hstep Hrest IH]; intros l v;
    cbn [append_all].
  - intros [= <-]. exists []. rewrite app_nil_r.
    repeat split; [constructor | intros m Hm; exact Hm].
  - destruct (append_if_absent name node (VList l)) as [sl|e] eqn:E;
      [|discriminate].
    destruct (append_if_absent_list _ _ _ _ Hstep E) as (a1 & -> & Hfound & Hc1).
    cbn [bind]. intros Hv.
    destruct (IH _ _ Hv) as (a2 & -> & Hall & Hc2).
    exists (a1 ++ a2)%list. rewrite app_assoc.
    repeat split.
    + constructor; [|exact Hall].
      simpl. apply any_named_true_app, Hfound.
    + intros m Hm. apply Hc2, Hc1, Hm.
Qed.

Lemma append_all_fixed (steps : list (string * value)) (l : list value) :
  Forall (fun step => any_named (fst step) l = Ok true) steps ->
  append_all steps (VList l) = Ok (VList l).
Proof.
  induction 1 as [|[name node] rest Hstep Hrest IH]; simpl; [reflexivity|].
  simpl in Hstep. rewrite Hstep. simpl. exact IH.
Qed.

Lemma append_all_not_list (steps : list (string * value)) (v v' : value) :
  (forall l, v <> VList l) ->
  append_all steps v = Ok v' -> steps = [] /\ v' = v.
Proof.
  intros Hv. destruct steps as [|[name node] rest]; simpl.
  - intros [= <-]. split; reflexivity.
  - destruct v; simpl; try discriminate.
    exfalso. exact (Hv _ eq_refl).
Qed.

Lemma append_all_total (steps : list (string * value)) :
  Forall named_step steps ->
  forall l, forallb is_dict l = true ->
  exists l', append_all steps (VList l) = Ok (VList l').
Proof.
  induction 1 as [|[name node] rest Hstep Hrest IH]; intros l Hl; simpl.
  - exists l. reflexivity.
  - destruct (any_named_dicts name l Hl) as [b Hb]. rewrite Hb. simpl.
    destruct b; [exact (IH l Hl)|].
    apply IH. rewrite forallb_app, Hl. simpl.
    unfold named_step in Hstep. simpl in Hstep.
    destruct node; try discriminate Hstep. reflexivity.
Qed.

Lemma append_all_app (s1 s2 : list (string * value)) (v : value) :
  append_all (s1 ++ s2)%list v = (sl <- append_all s1 v ;; append_all s2 sl).
Proof.
  revert v. induction s1 as [|[name node] s1 IH]; intros v; simpl.
  - reflexivity.
  - destruct (append_if_absent name node v); simpl; [apply IH | reflexivity].
Qed.

Lemma append_each_all (mk : string -> value) (names : list string) (v : value) :
  append_each mk names v = append_all (map (fun n => (n, mk n)) names) v.
Proof.
  revert v. induction names as [|n names IH]; intros v; simpl; [reflexivity|].
  destruct (append_if_absent n (mk n) v); simpl; [apply IH | reflexivity].
Qed.

(** [apply_preferences] is the run of its additions. *)
Lemma apply_preferences_additions (structure : value) (p : ProjectPreferences) :
  apply_preferences structure (Some p)
  = (sl0 <- subscript structure "structure" ;;
     sl <- append_all (additions p) sl0 ;;
     Ok (with_structure_list structure sl)).
Proof.
  unfold apply_preferences, additions.
  destruct (subscript structure "structure") as [sl0|e]; cbn [bind];
    [|reflexivity].
  rewrite append_all_app, <- append_each_all.
  destruct (append_each _ (custom_folders p) sl0) as [sl1|e]; cbn [bind];
    [|reflexivity].
  rewrite append_all_app.
  assert (Hci : forall sl2,
             (sl3 <- (if include_ci_cd p
                      then append_if_absent ".github" github_node sl2
                      else Ok sl2) ;;
              Ok (with_structure_list structure sl3))
             = (sl <- append_all (if include_ci_cd p
                                  then [(".github", github_node)]
                                  else []) sl2 ;;
                Ok (with_structure_list structure sl))).
  { intros sl2. destruct (include_ci_cd p); cbn [append_all bind];
      [|reflexivity].
    destruct (append_if_absent ".github" github_node sl2); reflexivity. }
  destruct (include_docker p).
  - rewrite <- append_each_all.
    destruct (append_each file_node docker_files sl1) as [sl2|e]; cbn [bind];
      [apply Hci | reflexivity].
  - cbn [append_all bind]. apply Hci.
Qed.

Lemma additions_named (p : ProjectPreferences) : Forall named_step (additions p).
Proof.
  unfold additions. rewrite !Forall_app. repeat split.
  - apply Forall_forall. intros step Hin. apply in_map_iff in Hin as (n & <- & _).
    unfold named_step. simpl. apply String.eqb_refl.
  - destruct (include_docker p); [|constructor].
    repeat constructor.
  - destruct (include_ci_cd p); [|constructor].
    repeat constructor.
Qed.

(** The shape of a successful application. *)
Lemma apply_preferences_shape (structure : value) (p : ProjectPreferences)
    (structure' : value) :
  apply_preferences structure (Some p) = Ok structure' ->
  exists d sl0 sl,
    structure = VDict d
    /\ dict_get "structure" d = Some sl0
    /\ append_all (additions p) sl0 = Ok sl
    /\ structure' = VDict (dict_set "structure" sl d).
Proof.
  rewrite apply_preferences_additions.
  destruct structure as [| | | | | |d]; try discriminate.
  unfold subscript. destruct (dict_get "structure" d) as [sl0|] eqn:Eg;
    [|discriminate].
  cbn [bind]. destruct (append_all (additions p) sl0) as [sl|e] eqn:Ea;
    [|discriminate].
  cbn [bind with_structure_list]. intros [= <-].
  exists d, sl0, sl. repeat split; assumption.
Qed.

(** The top-level sequence before and after a successful application. *)
Lemma apply_preferences_top_level (structure : value) (p : ProjectPreferences)
    (structure' : value) :
  apply_preferences structure (Some p) = Ok structure' ->
  exists added,
    top_level structure' = (top_level structure ++ added)%list
    /\ Forall (fun step =>
                 any_named (fst step) (top_level structure') = Ok true
                 \/ additions p = [])
              (additions p)
    /\ (forall m, count_named m (top_level structure) <= 1 ->
                  count_named m (top_level structure') <= 1)
    /\ apply_preferences structure' (Some p) = Ok structure'.
Proof.
  intros H.
  destruct (apply_preferences_shape _ _ _ H) as (d & sl0 & sl & -> & Eg & Ea & ->).
  assert (Hlist : forall l, sl0 = VList l ->
            exists added,
              top_level (VDict (dict_set "structure" sl d)) = (l ++ added)%list
              /\ Forall (fun step =>
                   any_named (fst step)
                     (top_level (VDict (dict_set "structure" sl d))) = Ok true
                   \/ additions p = []) (additions p)
              /\ (forall m, count_named m l <= 1 ->
                    count_named m
                      (top_level (VDict (dict_set "structure" sl d))) <= 1)
              /\ apply_preferences (VDict (dict_set "structure" sl d)) (Some p)
                 = Ok (VDict (dict_set "structure" sl d))).
  { intros l ->.
    destruct (append_all_list _ (additions_named p) _ _ Ea)
      as (added & -> & Hall & Hcount).
    assert (Et : top_level (VDict (dict_set "structure"
                                     (VList (l ++ added)%list) d))
                 = (l ++ added)%list).
    { unfold top_level, subscript. rewrite dict_get_set_same. reflexivity. }
    exists added. rewrite Et. repeat split.
    - eapply Forall_impl; [|exact Hall]. intros step Hs. left; exact Hs.
    - exact Hcount.
    - rewrite apply_preferences_additions. unfold subscript.
      rewrite dict_get_set_same. cbn [bind].
      rewrite (append_all_fixed _ _ Hall). cbn [bind with_structure_list].
      rewrite dict_set_idem. reflexivity. }
  assert (Hother : (forall l, sl0 <> VList l) ->
            exists added,
              top_level (VDict (dict_set "structure" sl d))
              = (top_level (VDict d) ++ added)%list
              /\ Forall (fun step =>
                   any_named (fst step)
                     (top_level (VDict (dict_set "structure" sl d))) = Ok true
                   \/ additions p = []) (additions p)
              /\ (forall m, count_named m (top_level (VDict d)) <= 1 ->
                    count_named m
                      (top_level (VDict (dict_set "structure" sl d))) <= 1)
              /\ apply_preferences (VDict (dict_set "structure" sl d)) (Some p)
                 = Ok (VDict (dict_set "structure" sl d))).
  { intros Hno.
    destruct (append_all_not_list _ _ _ Hno Ea) as [Hnil ->].
    rewrite (dict_set_get _ _ _ Eg).
    exists []. rewrite app_nil_r. repeat split.
    - rewrite Hnil. constructor.
    - intros m Hm; exact Hm.
    - rewrite <- (dict_set_get _ _ _ Eg) at 2. exact H. }
  destruct sl0 as [| | | | |l|];
    try (apply Hother; intros l'; discriminate).
  assert (El : top_level (VDict d) = l)
    by (unfold top_level, subscript; rewrite Eg; reflexivity).
  rewrite El. exact (Hlist l eq_refl).
Qed.

Lemma apply_preferences_total (structure : value)
    (prefs : option ProjectPreferences) :
  validate_structure structure = Ok true ->
  exists structure', apply_preferences structure prefs = Ok structure'.
Proof.
  intros Hv. destruct prefs as [p|]; [|exists structure; reflexivity].
  rewrite validate_structure_cases in Hv.
  destruct (forallb is_dict (top_level_items structure)) eqn:Hd;
    [|discriminate Hv].
  injection Hv as Hc.
  destruct structure as [| | | | | |d]; try discriminate Hc.
  unfold valid_candidate in Hc. unfold top_level_items in Hd.
  destruct (dict_has "name" d && dict_has "structure" d); [|discriminate Hc].
  destruct (dict_get "structure" d) as [[| | | | |items|]|] eqn:Eg;
    try discriminate Hc.
  destruct (append_all_total _ (additions_named p) items Hd) as [l' Hl'].
  rewrite apply_preferences_additions. unfold subscript. rewrite Eg.
  cbn [bind]. rewrite Hl'. cbn [bind]. eexists. reflexivity.
Qed.

(** C6: a successful application keeps every top-level node where it was
    and only appends after them; nothing else of the structure changes;
    without Preferences the structure comes back as it is; and on a
    validated structure the application always succeeds. *)
Theorem apply_preferences_additive (structure : value)
    (prefs : option ProjectPreferences) :
  (forall structure',
      apply_preferences structure prefs = Ok structure' ->
      (exists added,
          top_level structure' = (top_level structure ++ added)%list)
      /\ (forall i node,
             nth_error (top_level structure) i = Some node ->
             nth_error (top_level structure') i = Some node)
      /\ (forall k, k <> "structure" ->
             subscript structure' k = subscript structure k))
  /\ (validate_structure structure = Ok true ->
      exists structure', apply_preferences structure prefs = Ok structure')
  /\ apply_preferences structure None = Ok structure.
Proof.
  split; [|split; [apply apply_preferences_total | reflexivity]].
  intros structure' H.
  assert (Hadd : exists added,
             top_level structure' = (top_level structure ++ added)%list).
  { destruct prefs as [p|].
    - destruct (apply_preferences_top_level _ _ _ H) as (added & Ht & _).
      exists added; exact Ht.
    - injection H as <-. exists []. rewrite app_nil_r. reflexivity. }
  split; [exact Hadd|]. split.
  - intros i node Hn. destruct Hadd as [added ->].
    rewrite nth_error_app1; [exact Hn|].
    apply nth_error_Some. rewrite Hn. discriminate.
  - intros k Hk. destruct prefs as [p|]; [|injection H as <-; reflexivity].
    destruct (apply_preferences_shape _ _ _ H) as (d & sl0 & sl & -> & _ & _ & ->).
    unfold subscript. rewrite dict_get_set_other by exact Hk. reflexivity.
Qed.

Lemma apply_preferences_additive_witness :
  validate_structure demo_structure = Ok true /\
  exists structure',
    apply_preferences demo_structure (Some docker_preferences) = Ok structure'
    /\ nth_error (top_level structure') 1 = Some (file_node ".gitignore").
Proof.
  split; [reflexivity|].
  destruct (apply_preferences_additive demo_structure (Some docker_preferences))
    as (Hkeep & Htotal & _).
  destruct (Htotal eq_refl) as [structure' H].
  exists structure'. split; [exact H|].
  destruct (Hkeep structure' H) as (_ & Hnth & _).
  apply Hnth. reflexivity.
Defined.

Lemma additions_docker (p : ProjectPreferences) :
  include_docker p = true ->
  In ("Dockerfile", file_node "Dockerfile") (additions p).
Proof.
  intros H. unfold additions. rewrite H.
  apply in_or_app. right. apply in_or_app. left. left. reflexivity.
Qed.

(** C5: applying the same Preferences to the result of a successful
    application gives that result again; with [include_docker], a structure
    that had at most one top-level entry named Dockerfile has exactly one
    afterwards, however often the Preferences are applied. *)
Theorem apply_preferences_idempotent (structure : value)
    (prefs : option ProjectPreferences) (structure' : value) :
  apply_preferences structure prefs = Ok structure' ->
  apply_preferences structure' prefs = Ok structure'
  /\ (forall p, prefs = Some p -> include_docker p = true ->
        count_named "Dockerfile" (top_level structure) <= 1 ->
        count_named "Dockerfile" (top_level structure') = 1).
Proof.
  intros H. destruct prefs as [p|].
  - destruct (apply_preferences_top_level _ _ _ H)
      as (added & Ht & Hall & Hcount & Hidem).
    split; [exact Hidem|].
    intros p' [= <-] Hdocker Hle.
    pose proof (additions_docker p Hdocker) as Hin.
    rewrite Forall_forall in Hall.
    destruct (Hall _ Hin) as [Hfound|Hnil].
    + apply any_named_true_count in Hfound. simpl in Hfound.
      specialize (Hcount "Dockerfile" Hle). lia.
    + rewrite Hnil in Hin. contradiction.
  - injection H as <-. split; [reflexivity|]. intros p [=].
Qed.

Lemma apply_preferences_idempotent_witness :
  exists structure',
    apply_preferences demo_structure (Some docker_preferences) = Ok structure'
    /\ apply_preferences structure' (Some docker_preferences) = Ok structure'
    /\ count_named "Dockerfile" (top_level structure') = 1.
Proof.
  destruct (apply_preferences_total demo_structure (Some docker_preferences)
              eq_refl) as [structure' H].
  exists structure'. split; [exact H|].
  destruct (apply_preferences_idempotent demo_structure
              (Some docker_preferences) structure' H) as [Hidem Hcount].
  split; [exact Hidem|].
  apply (Hcount docker_preferences eq_refl eq_refl).
  vm_compute. lia.
Defined.

(** *** The orchestrator *)

Lemma validated_truthy (structure : value) (prefs : option ProjectPreferences)
    (structure' : value) :
  validate_structure structure = Ok true ->
  apply_preferences structure prefs = Ok structure' ->
  truthy structure' = true.
Proof.
  intros Hv Ha. destruct prefs as [p|].
  - destruct (apply_preferences_shape _ _ _ Ha) as (d & sl0 & sl & _ & _ & _ & ->).
    simpl. destruct d as [|[k v] d]; simpl; [reflexivity|].
    destruct (String.eqb k "structure"); reflexivity.
  - injection Ha as <-.
    destruct structure as [| | | | | |d]; try discriminate Hv.
    destruct d; [discriminate Hv | reflexivity].
Qed.

Lemma search_app (table more : list document) (key : string) :
  search (table ++ more)%list key = (search table key ++ search more key)%list.
Proof. apply filter_app. Qed.

Section AgentFacts.

Variable str_lower : string -> string.
Variable str_strip : string -> string.
Variable json_loads : string -> loaded.
Variable json_dumps : value -> string.
Variable md5_hexdigest : string -> string.
Variable embedding : Type.
Variable sentence_model : option (string -> option embedding).
Variable score : Type.
Variable cosine : embedding -> embedding -> score.
Variable score_lt : score -> score -> bool.
Variable unordered_le :
  list (score * repo) -> nat -> nat -> bool.
Variable chat_completion : nat -> string -> option string.
Variable now_isoformat : nat -> string.

Abbreviation suggest :=
  (suggest_structure str_lower str_strip json_loads json_dumps md5_hexdigest
     sentence_model cosine score_lt unordered_le chat_completion
     now_isoformat).
Abbreviation key_of := (request_key str_lower str_strip json_dumps md5_hexdigest).
Abbreviation prompt_of :=
  (request_prompt sentence_model cosine score_lt unordered_le).
Abbreviation parse := (parse_llm_output str_strip json_loads).

(** The world after the one request to the completion endpoint. *)
Abbreviation asked w prompt :=
  {| cache_db := cache_db w;
     llm_calls := app (llm_calls w) (cons prompt nil);
     ticks := ticks w |}.

(** The outcomes of a cache miss. *)
Lemma suggest_structure_miss (w : world) (project_id project_desc : string)
    (tech_stack : list string) (prefs : option ProjectPreferences) :
  let key := key_of project_desc tech_stack prefs in
  let prompt := prompt_of project_desc tech_stack prefs in
  truthy (get_cached_structure (cache_db w) key) = false ->
  suggest w project_id project_desc tech_stack prefs
  = match chat_completion (List.length (llm_calls w)) prompt with
    | None => (VNone, asked w prompt)
    | Some response =>
        if String.eqb response "" then (VNone, asked w prompt)
        else
          match parse response with
          | Raise _ => (VNone, asked w prompt)
          | Ok structure =>
              if negb (truthy structure) then (VNone, asked w prompt)
              else
                match validate_structure structure with
                | Ok true =>
                    match apply_preferences structure prefs with
                    | Ok structure' =>
                        (structure',
                         store now_isoformat (asked w prompt) key project_id
                           structure')
                    | Raise _ => (VNone, asked w prompt)
                    end
                | _ => (VNone, asked w prompt)
                end
          end
    end.
Proof.
  intros key prompt Hmiss. unfold suggest_structure.
  fold (key_of project_desc tech_stack prefs). fold key. rewrite Hmiss.
  unfold generate_structure.
  fold (prompt_of project_desc tech_stack prefs). fold prompt.
  destruct (chat_completion _ prompt) as [response|]; [|reflexivity].
  destruct (String.eqb response ""); [reflexivity|].
  destruct (parse response) as [structure|e]; [|reflexivity].
  destruct (negb _); [reflexivity|].
  destruct (validate_structure _) as [[|]|]; reflexivity.
Qed.

(** C2: on a cache miss, a failed or empty generation, a failed parse
    (no structure, or an exception out of the parser) or a failed
    validation gives no structure and leaves the cache as it was; and
    whenever a call changes the cache, the response was parsed, validated
    and had the preferences applied, and the entry written is the structure
    returned. *)
Theorem suggest_structure_failure_keeps_cache
    (w : world) (project_id project_desc : string)
    (tech_stack : list string) (prefs : option ProjectPreferences) :
  let key := key_of project_desc tech_stack prefs in
  let prompt := prompt_of project_desc tech_stack prefs in
  let response := chat_completion (List.length (llm_calls w)) prompt in
  let out := suggest w project_id project_desc tech_stack prefs in
  (truthy (get_cached_structure (cache_db w) key) = false ->
   response = None \/ response = Some ""
   \/ (exists r, response = Some r
                 /\ (parse r = Ok VNone \/ exists e, parse r = Raise e))
   \/ (exists r structure,
         response = Some r
         /\ parse r = Ok structure
         /\ validate_structure structure <> Ok true) ->
   fst out = VNone /\ cache_db (snd out) = cache_db w)
  /\
  (cache_db (snd out) <> cache_db w ->
   exists r structure structure',
     response = Some r
     /\ parse r = Ok structure
     /\ validate_structure structure = Ok true
     /\ apply_preferences structure prefs = Ok structure'
     /\ fst out = structure'
     /\ cache_db (snd out)
        = cache_structure (cache_db w) key project_id structure'
            (now_isoformat (ticks w))).
Proof.
  cbv zeta.
  destruct (truthy (get_cached_structure (cache_db w)
                      (key_of project_desc tech_stack prefs))) eqn:Hhit.
  - split; [discriminate|].
    intros Hchanged. exfalso. apply Hchanged.
    unfold suggest_structure.
    fold (key_of project_desc tech_stack prefs).
    rewrite Hhit. reflexivity.
  - pose proof (suggest_structure_miss w project_id project_desc tech_stack
                  prefs Hhit) as E.
    cbv zeta in E. rewrite E. clear E.
    destruct (chat_completion _ _) as [r|];
      [|split; [split; reflexivity | intros Hc; destruct (Hc eq_refl)]].
    destruct (String.eqb_spec r "") as [Hr|Hr];
      [split; [split; reflexivity | intros Hc; destruct (Hc eq_refl)]|].
    destruct (parse r) as [structure|e] eqn:Ep;
      [|split; [split; reflexivity | intros Hc; destruct (Hc eq_refl)]].
    destruct (truthy structure) eqn:Ht; cbn [negb];
      [|split; [split; reflexivity | intros Hc; destruct (Hc eq_refl)]].
    destruct (validate_structure structure) as [[|]|e] eqn:Ev;
      try (split; [split; reflexivity
                  | intros Hc; destruct (Hc eq_refl)]).
    destruct (apply_preferences structure prefs)
      as [structure'|e] eqn:Ea;
      [|split; [split; reflexivity | intros Hc; destruct (Hc eq_refl)]].
    split.
    + intros _ [H|[H|[(r' & H & Hp)|(r' & s' & H & Hp & Hv)]]];
        try discriminate H; injection H as Hrr; subst.
      * destruct (Hr eq_refl).
      * destruct Hp as [Hp|[e Hp]]; rewrite Ep in Hp;
          [injection Hp as ->; discriminate Ht | discriminate Hp].
      * rewrite Ep in Hp. injection Hp as <-. destruct (Hv Ev).
    + intros _. exists r, structure, structure'.
      repeat split; try reflexivity; assumption.
Qed.

Lemma suggest_structure_hit (w : world) (project_id project_desc : string)
    (tech_stack : list string) (prefs : option ProjectPreferences) :
  let cached :=
    get_cached_structure (cache_db w) (key_of project_desc tech_stack prefs) in
  truthy cached = true ->
  suggest w project_id project_desc tech_stack prefs = (cached, w).
Proof.
  cbv zeta. intros Hhit. unfold suggest_structure.
  fold (key_of project_desc tech_stack prefs). rewrite Hhit. reflexivity.
Qed.

Lemma get_cached_structure_stored (table : list document)
    (key project_id : string) (structure : value) (timestamp : string) :
  search table key = [] ->
  get_cached_structure
    (cache_structure table key project_id structure timestamp) key
  = structure.
Proof.
  intros Hnone. unfold get_cached_structure, cache_structure.
  rewrite search_app, Hnone. simpl. rewrite String.eqb_refl. reflexivity.
Qed.

(** A first call on a cache without an entry for the key, when it gives a
    structure: one request was sent, the structure was stored, and the
    same call again returns it without touching anything. *)
Lemma suggest_structure_cold (w : world) (project_id project_desc : string)
    (tech_stack : list string) (prefs : option ProjectPreferences) :
  let key := key_of project_desc tech_stack prefs in
  let prompt := prompt_of project_desc tech_stack prefs in
  let out := suggest w project_id project_desc tech_stack prefs in
  search (cache_db w) key = [] ->
  fst out <> VNone ->
  suggest (snd out) project_id project_desc tech_stack prefs = out
  /\ llm_calls (snd out) = (llm_calls w ++ [prompt])%list
  /\ truthy (fst out) = true
  /\ cache_db (snd out)
     = cache_structure (cache_db w) key project_id (fst out)
         (now_isoformat (ticks w)).
Proof.
  cbv zeta. intros Hcold.
  assert (Hmiss : truthy (get_cached_structure (cache_db w)
                            (key_of project_desc tech_stack prefs)) = false)
    by (unfold get_cached_structure; rewrite Hcold; reflexivity).
  pose proof (suggest_structure_miss w project_id project_desc tech_stack
                prefs Hmiss) as E.
  cbv zeta in E. rewrite E. clear E.
  destruct (chat_completion _ _) as [r|]; [|intros H; destruct (H eq_refl)].
  destruct (String.eqb r ""); [intros H; destruct (H eq_refl)|].
  destruct (parse r) as [structure|e]; [|intros H; destruct (H eq_refl)].
  destruct (truthy structure); cbn [negb];
    [|intros H; destruct (H eq_refl)].
  destruct (validate_structure structure)
    as [[|]|e] eqn:Ev; try (intros H; destruct (H eq_refl)).
  destruct (apply_preferences structure prefs)
    as [structure'|e] eqn:Ea; [|intros H; destruct (H eq_refl)].
  intros _. cbn [fst snd store cache_db llm_calls ticks].
  pose proof (validated_truthy _ _ _ Ev Ea) as Htruthy.
  repeat split; try assumption.
  pose proof (suggest_structure_hit
                (store now_isoformat
                   (asked w (prompt_of project_desc tech_stack prefs))
                   (key_of project_desc tech_stack prefs) project_id
                   structure')
                project_id project_desc tech_stack prefs) as Hhit.
  cbv zeta in Hhit. cbn [cache_db store] in Hhit.
  rewrite (get_cached_structure_stored _ _ _ _ _ Hcold) in Hhit.
  exact (Hhit Htruthy).
Qed.

Lemma cache_ok_miss (w : world) (key : string) :
  cache_ok w ->
  truthy (get_cached_structure (cache_db w) key) = false ->
  search (cache_db w) key = [].
Proof.
  unfold cache_ok, get_cached_structure. intros Hok.
  destruct (search (cache_db w) key) as [|doc rest] eqn:Es; [reflexivity|].
  intros Hfalse. exfalso.
  assert (Hin : In doc (cache_db w)).
  { assert (H : In doc (search (cache_db w) key))
      by (rewrite Es; left; reflexivity).
    apply filter_In in H. exact (proj1 H). }
  rewrite Forall_forall in Hok. rewrite (Hok doc Hin) in Hfalse.
  discriminate.
Qed.

(** Every call keeps the cache free of empty structures. *)
Lemma suggest_structure_cache_ok (w : world)
    (project_id project_desc : string) (tech_stack : list string)
    (prefs : option ProjectPreferences) :
  cache_ok w ->
  cache_ok (snd (suggest w project_id project_desc tech_stack prefs)).
Proof.
  intros Hok.
  destruct (truthy (get_cached_structure (cache_db w)
                      (key_of project_desc tech_stack prefs))) eqn:Hhit.
  - rewrite (suggest_structure_hit w project_id project_desc tech_stack
               prefs Hhit). exact Hok.
  - pose proof (suggest_structure_miss w project_id project_desc tech_stack
                  prefs Hhit) as E.
    cbv zeta in E. rewrite E. clear E.
    destruct (chat_completion _ _) as [r|]; [|exact Hok].
    destruct (String.eqb r ""); [exact Hok|].
    destruct (parse r) as [structure|e]; [|exact Hok].
    destruct (truthy structure); cbn [negb]; [|exact Hok].
    destruct (validate_structure structure)
      as [[|]|e] eqn:Ev; try exact Hok.
    destruct (apply_preferences structure prefs)
      as [structure'|e] eqn:Ea; [|exact Hok].
    unfold cache_ok, store, cache_structure. cbn [snd cache_db].
    apply Forall_app. split; [exact Hok|].
    constructor; [|constructor]. cbn [doc_structure].
    exact (validated_truthy _ _ _ Ev Ea).
Qed.

(** C4: a cache hit returns the stored structure and leaves the world as
    it was: no request to the completion endpoint, no cache write (in a
    cache written by this agent every entry found is such a hit); hence
    after a first call that found no entry and gave a structure, exactly
    one request has been sent, and the same call again returns that
    structure and sends none. *)
Theorem suggest_structure_cache_hit (w : world)
    (project_id project_desc : string) (tech_stack : list string)
    (prefs : option ProjectPreferences) :
  let key := key_of project_desc tech_stack prefs in
  let prompt := prompt_of project_desc tech_stack prefs in
  let cached := get_cached_structure (cache_db w) key in
  let first := suggest w project_id project_desc tech_stack prefs in
  let second := suggest (snd first) project_id project_desc tech_stack prefs in
  (truthy cached = true -> first = (cached, w))
  /\ (cache_ok w -> search (cache_db w) key <> [] -> first = (cached, w))
  /\ (search (cache_db w) key = [] -> fst first <> VNone ->
      llm_calls (snd first) = (llm_calls w ++ [prompt])%list
      /\ fst second = fst first
      /\ snd second = snd first)
  /\ (cache_ok w -> fst first <> VNone ->
      fst second = fst first /\ llm_calls (snd second) = llm_calls (snd first)).
Proof.
  cbv zeta. split; [apply suggest_structure_hit|]. split; [|split].
  - intros Hok Hfound. apply suggest_structure_hit.
    destruct (truthy (get_cached_structure (cache_db w)
                        (key_of project_desc tech_stack prefs))) eqn:Hhit;
      [reflexivity|].
    destruct (Hfound (cache_ok_miss w _ Hok Hhit)).
  - intros Hcold Hsome.
    destruct (suggest_structure_cold w project_id project_desc tech_stack
                prefs Hcold Hsome) as (Hagain & Hcalls & _).
    rewrite Hagain. repeat split. exact Hcalls.
  - intros Hok Hsome.
    destruct (truthy (get_cached_structure (cache_db w)
                        (key_of project_desc tech_stack prefs))) eqn:Hhit.
    + pose proof (suggest_structure_hit w project_id project_desc
                    tech_stack prefs Hhit) as E.
      cbv zeta in E. rewrite E. cbn [fst snd]. rewrite E.
      split; reflexivity.
    + pose proof (cache_ok_miss w _ Hok Hhit) as Hcold.
      destruct (suggest_structure_cold w project_id project_desc tech_stack
                  prefs Hcold Hsome) as (Hagain & _).
      rewrite Hagain. split; reflexivity.
Qed.

End AgentFacts.

Lemma suggest_structure_failure_keeps_cache_witness :
  truthy (get_cached_structure (cache_db empty_world) sample_key) = false
  /\ failing_completion (List.length (llm_calls empty_world)) sample_prompt = None
  /\ fst (sample_suggest failing_completion empty_world) = VNone
  /\ cache_db (snd (sample_suggest failing_completion empty_world))
     = cache_db empty_world.
Proof.
  split; [reflexivity|]. split; [reflexivity|].
  apply (suggest_structure_failure_keeps_cache lower strip json_decode
           sample_dumps sample_digest nat (Some sample_encode) Q sample_cosine
           sample_lt sample_unordered
           failing_completion sample_clock empty_world "p1" "a django api"
           ["Python"] (Some docker_preferences)).
  - reflexivity.
  - left. reflexivity.
Defined.

Lemma suggest_structure_cache_hit_witness :
  search (cache_db empty_world) sample_key = []
  /\ fst first_run <> VNone
  /\ llm_calls (snd first_run) = [sample_prompt]
  /\ fst (sample_suggest sample_completion (snd first_run)) = fst first_run
  /\ snd (sample_suggest sample_completion (snd first_run)) = snd first_run.
Proof.
  assert (Hsome : fst first_run <> VNone) by (vm_compute; discriminate).
  split; [reflexivity|]. split; [exact Hsome|].
  exact (proj1 (proj2 (proj2 (suggest_structure_cache_hit lower strip
           json_decode sample_dumps sample_digest nat (Some sample_encode) Q
           sample_cosine sample_lt sample_unordered
           sample_completion sample_clock empty_world "p1" "a django api"
           ["Python"] (Some docker_preferences)))) eq_refl Hsome).
Defined.

Lemma cache_ok_empty : cache_ok empty_world.
Proof. constructor. Qed.

(* ================================================================= *)
(** ** Further properties of the code *)

(** *** Validation and preference application together *)

Lemma append_all_dicts (steps : list (string * value)) :
  Forall named_step steps ->
  forall (l : list value) (v : value),
    forallb is_dict l = true ->
    append_all steps (VList l) = Ok v ->
    exists added,
      v = VList (l ++ added)%list /\ forallb is_dict (l ++ added)%list = true.
Proof.
  induction 1 as [|[name node0] rest Hstep Hrest IH]; intros l v Hl;
    cbn [append_all].
  - intros [= <-]. exists []. rewrite app_nil_r. split; [reflexivity | exact Hl].
  - unfold append_if_absent.
    destruct (any_named name l) as [[|]|e]; cbn [bind]; try discriminate.
    + apply IH, Hl.
    + intros Hv.
      assert (Hl' : forallb is_dict (l ++ [node0])%list = true).
      { rewrite forallb_app, Hl. simpl.
        unfold named_step in Hstep. simpl in Hstep.
        destruct node0; try discriminate Hstep. reflexivity. }
      destruct (IH _ _ Hl' Hv) as (added & -> & Hd).
      exists (node0 :: added). rewrite <- app_assoc in *. simpl in *.
      split; [reflexivity | exact Hd].
Qed.

Lemma existsb_app_l (A : Type) (f : A -> bool) (l more : list A) :
  existsb f l = true -> existsb f (l ++ more)%list = true.
Proof. intros H. rewrite existsb_app, H. reflexivity. Qed.

Lemma apply_preferences_valid (structure : value)
    (prefs : option ProjectPreferences) (structure' : value) :
  validate_structure structure = Ok true ->
  apply_preferences structure prefs = Ok structure' ->
  validate_structure structure' = Ok true.
Proof.
  intros Hv Ha. destruct prefs as [p|]; [|injection Ha as <-; exact Hv].
  destruct (apply_preferences_shape _ _ _ Ha) as (d & sl0 & sl & -> & Eg & Ea & ->).
  rewrite validate_structure_cases in Hv.
  unfold top_level_items, valid_candidate in Hv.
  destruct (dict_has "name" d) eqn:Hname; [|discriminate Hv].
  destruct (dict_has "structure" d) eqn:Hstruct; [|discriminate Hv].
  cbn [andb] in Hv. rewrite Eg in Hv.
  destruct sl0 as [| | | | |items|]; try discriminate Hv.
  destruct (forallb is_dict items) eqn:Hd; [|discriminate Hv].
  injection Hv as Hreq. apply andb_true_iff in Hreq as [Hreadme Hignore].
  destruct (append_all_dicts _ (additions_named p) _ _ Hd Ea)
    as (added & -> & Hd').
  rewrite validate_structure_cases.
  unfold top_level_items, valid_candidate, dict_has.
  rewrite dict_get_set_same, (dict_get_set_other "structure" "name")
    by discriminate.
  unfold dict_has in Hname. rewrite Hname. cbn [andb].
  rewrite Hd'. rewrite (existsb_app_l _ _ _ _ Hreadme).
  rewrite (existsb_app_l _ _ _ _ Hignore). reflexivity.
Qed.

(** X1: on a structure that passes the validator the preferences always
    apply, and the result passes the validator again. *)
Theorem apply_preferences_keeps_valid (structure : value)
    (prefs : option ProjectPreferences) :
  validate_structure structure = Ok true ->
  exists structure',
    apply_preferences structure prefs = Ok structure'
    /\ validate_structure structure' = Ok true
    /\ truthy structure' = true.
Proof.
  intros Hv.
  destruct (apply_preferences_total structure prefs Hv) as [structure' Ha].
  exists structure'. split; [exact Ha|]. split.
  - exact (apply_preferences_valid structure prefs structure' Hv Ha).
  - exact (validated_truthy structure prefs structure' Hv Ha).
Qed.

Lemma apply_preferences_keeps_valid_witness :
  validate_structure demo_structure = Ok true /\
  exists structure',
    apply_preferences demo_structure (Some docker_preferences) = Ok structure'
    /\ validate_structure structure' = Ok true
    /\ truthy structure' = true.
Proof.
  split; [reflexivity|].
  exact (apply_preferences_keeps_valid demo_structure
           (Some docker_preferences) eq_refl).
Defined.

Lemma existsb_perm (A : Type) (f : A -> bool) (l l' : list A) :
  Permutation l l' -> existsb f l = existsb f l'.
Proof.
  induction 1; simpl; try congruence.
  - destruct (f x), (f y); reflexivity.
Qed.

Lemma forallb_perm (A : Type) (f : A -> bool) (l l' : list A) :
  Permutation l l' -> forallb f l = forallb f l'.
Proof.
  induction 1; simpl; try congruence.
  - destruct (f x), (f y); reflexivity.
Qed.

(** X2: the verdict of the validator, an exception included, does not depend
    on the order of the top-level entries. *)
Theorem validate_structure_order (d : list (string * value))
    (items items' : list value) :
  Permutation items items' ->
  validate_structure (VDict (dict_set "structure" (VList items) d))
  = validate_structure (VDict (dict_set "structure" (VList items') d)).
Proof.
  intros Hp. rewrite !validate_structure_cases.
  unfold top_level_items, valid_candidate, dict_has.
  rewrite !dict_get_set_same, !(dict_get_set_other "structure" "name")
    by discriminate.
  destruct (dict_get "name" d); cbn [andb]; [|reflexivity].
  rewrite (forallb_perm _ is_dict _ _ Hp).
  rewrite (existsb_perm _ (is_file_named "README.md") _ _ Hp).
  rewrite (existsb_perm _ (is_file_named ".gitignore") _ _ Hp).
  reflexivity.
Qed.

Lemma validate_structure_order_witness :
  Permutation [file_node "README.md"; file_node ".gitignore"]
              [file_node ".gitignore"; file_node "README.md"]
  /\ validate_structure
       (VDict (dict_set "structure"
                 (VList [file_node ".gitignore"; file_node "README.md"])
                 [("name", VStr "demo")]))
     = Ok true.
Proof.
  assert (Hp : Permutation [file_node "README.md"; file_node ".gitignore"]
                           [file_node ".gitignore"; file_node "README.md"])
    by apply perm_swap.
  split; [exact Hp|].
  rewrite <- (validate_structure_order [("name", VStr "demo")] _ _ Hp).
  reflexivity.
Defined.

(** *** The cache table *)

(** X3: a lookup after a write: an entry that was already stored under the
    looked-up key still answers (the first write wins); otherwise the new
    entry answers when its key is the looked-up one, and nothing does when
    it is another. *)
Theorem get_cached_structure_after_write (table : list document)
    (key project_id : string) (structure : value) (timestamp key' : string) :
  get_cached_structure
    (cache_structure table key project_id structure timestamp) key'
  = match search table key' with
    | _ :: _ => get_cached_structure table key'
    | [] => if String.eqb key key' then structure else VNone
    end.
Proof.
  unfold get_cached_structure, cache_structure. rewrite search_app.
  destruct (search table key') as [|doc rest]; [|reflexivity].
  simpl. destruct (String.eqb key key'); reflexivity.
Qed.

(** *** The orchestrator: what every call keeps *)

Section AgentInvariants.

Variable str_lower : string -> string.
Variable str_strip : string -> string.
Variable json_loads : string -> loaded.
Variable json_dumps : value -> string.
Variable md5_hexdigest : string -> string.
Variable embedding : Type.
Variable sentence_model : option (string -> option embedding).
Variable score : Type.
Variable cosine : embedding -> embedding -> score.
Variable score_lt : score -> score -> bool.
Variable unordered_le :
  list (score * repo) -> nat -> nat -> bool.
Variable chat_completion : nat -> string -> option string.
Variable now_isoformat : nat -> string.

Abbreviation suggest :=
  (suggest_structure str_lower str_strip json_loads json_dumps md5_hexdigest
     sentence_model cosine score_lt unordered_le chat_completion
     now_isoformat).
Abbreviation key_of := (request_key str_lower str_strip json_dumps md5_hexdigest).
Abbreviation prompt_of :=
  (request_prompt sentence_model cosine score_lt unordered_le).
Abbreviation parse := (parse_llm_output str_strip json_loads).
Abbreviation asked w prompt :=
  {| cache_db := cache_db w;
     llm_calls := app (llm_calls w) (cons prompt nil);
     ticks := ticks w |}.

(** The three ways a call can end: a hit, a failure after one request, a
    stored success after one request. *)
Lemma suggest_structure_outcomes (w : world) (project_id project_desc : string)
    (tech_stack : list string) (prefs : option ProjectPreferences) :
  let key := key_of project_desc tech_stack prefs in
  let prompt := prompt_of project_desc tech_stack prefs in
  let out := suggest w project_id project_desc tech_stack prefs in
  (truthy (get_cached_structure (cache_db w) key) = true
   /\ out = (get_cached_structure (cache_db w) key, w))
  \/ (truthy (get_cached_structure (cache_db w) key) = false
      /\ out = (VNone, asked w prompt))
  \/ (truthy (get_cached_structure (cache_db w) key) = false
      /\ exists r structure structure',
           chat_completion (List.length (llm_calls w)) prompt = Some r
           /\ parse r = Ok structure
           /\ validate_structure structure = Ok true
           /\ apply_preferences structure prefs = Ok structure'
           /\ out = (structure',
                     store now_isoformat (asked w prompt) key project_id
                       structure')).
Proof.
  cbv zeta.
  destruct (truthy (get_cached_structure (cache_db w)
                      (key_of project_desc tech_stack prefs))) eqn:Hhit.
  - left. split; [reflexivity|].
    exact (suggest_structure_hit str_lower str_strip json_loads json_dumps
             md5_hexdigest embedding sentence_model score cosine score_lt
             unordered_le chat_completion now_isoformat w project_id
             project_desc tech_stack prefs Hhit).
  - right.
    pose proof (suggest_structure_miss str_lower str_strip json_loads
                  json_dumps md5_hexdigest embedding sentence_model score
                  cosine score_lt unordered_le chat_completion
                  now_isoformat w project_id project_desc tech_stack prefs
                  Hhit) as E.
    cbv zeta in E. rewrite E. clear E.
    destruct (chat_completion _ _) as [r|] eqn:Ec; [|left; split; reflexivity].
    destruct (String.eqb r ""); [left; split; reflexivity|].
    destruct (parse r) as [structure|e] eqn:Ep; [|left; split; reflexivity].
    destruct (truthy structure); cbn [negb];
      [|left; split; reflexivity].
    destruct (validate_structure structure)
      as [[|]|e] eqn:Ev; try (left; split; reflexivity).
    destruct (apply_preferences structure prefs)
      as [structure'|e] eqn:Ea; [|left; split; reflexivity].
    right. split; [reflexivity|]. exists r, structure, structure'.
    repeat split; try reflexivity; assumption.
Qed.

Lemma get_cached_structure_in (table : list document) (key : string) :
  truthy (get_cached_structure table key) = true ->
  exists doc, In doc table /\ get_cached_structure table key = doc_structure doc.
Proof.
  unfold get_cached_structure.
  destruct (search table key) as [|doc rest] eqn:Es; [discriminate|].
  intros _. exists doc. split; [|reflexivity].
  assert (H : In doc (search table key)) by (rewrite Es; left; reflexivity).
  apply filter_In in H. exact (proj1 H).
Qed.

(** X4: starting from a cache whose entries all pass the validator, every call
    returns nothing or a structure that passes the validator, and leaves
    such a cache behind. *)
Theorem suggest_structure_returns_valid (w : world)
    (project_id project_desc : string) (tech_stack : list string)
    (prefs : option ProjectPreferences) :
  cache_valid w ->
  let out := suggest w project_id project_desc tech_stack prefs in
  (fst out = VNone \/ validate_structure (fst out) = Ok true)
  /\ cache_valid (snd out).
Proof.
  intros Hvalid. cbv zeta.
  destruct (suggest_structure_outcomes w project_id project_desc tech_stack
              prefs)
    as [[Hhit ->]|[[_ ->]|(_ & r & s0 & s' & _ & _ & Hv & Ha & ->)]];
    cbn [fst snd].
  - split; [|exact Hvalid]. right.
    destruct (get_cached_structure_in _ _ Hhit) as (doc & Hin & ->).
    unfold cache_valid in Hvalid. rewrite Forall_forall in Hvalid.
    exact (Hvalid doc Hin).
  - split; [left; reflexivity | exact Hvalid].
  - pose proof (apply_preferences_valid _ _ _ Hv Ha) as Hs'.
    split; [right; exact Hs'|].
    unfold cache_valid, store, cache_structure. cbn [cache_db].
    apply Forall_app. split; [exact Hvalid|].
    constructor; [exact Hs' | constructor].
Qed.

(** X5: a call only ever appends: at most one request to the completion
    endpoint, at most one cache entry and none without a request; an entry
    written holds the structure returned; failure writes nothing; and every
    key that had an entry is answered as before. *)
Theorem suggest_structure_append_only (w : world)
    (project_id project_desc : string) (tech_stack : list string)
    (prefs : option ProjectPreferences) :
  let out := suggest w project_id project_desc tech_stack prefs in
  exists sent added,
    llm_calls (snd out) = (llm_calls w ++ sent)%list
    /\ cache_db (snd out) = (cache_db w ++ added)%list
    /\ List.length added <= List.length sent <= 1
    /\ Forall (fun doc =>
                 doc_structure doc = fst out
                 /\ doc_project_id doc = project_id
                 /\ doc_cache_key doc = key_of project_desc tech_stack prefs)
              added
    /\ (fst out = VNone -> added = [])
    /\ (forall key, search (cache_db w) key <> [] ->
          get_cached_structure (cache_db (snd out)) key
          = get_cached_structure (cache_db w) key).
Proof.
  cbv zeta.
  destruct (suggest_structure_outcomes w project_id project_desc tech_stack
              prefs)
    as [[Hhit ->]|[[_ ->]|(_ & r & s0 & s' & _ & _ & Hv & Ha & ->)]];
    cbn [fst snd cache_db llm_calls store].
  - exists [], []. rewrite !app_nil_r. simpl.
    repeat split; try lia; try reflexivity. constructor.
  - exists [prompt_of project_desc tech_stack prefs], [].
    rewrite app_nil_r. simpl.
    repeat split; try lia; try reflexivity. constructor.
  - eexists [prompt_of project_desc tech_stack prefs], [_].
    unfold cache_structure. simpl.
    split; [reflexivity|]. split; [reflexivity|]. split; [lia|].
    split; [repeat constructor|]. split.
    + intros ->. pose proof (validated_truthy _ _ _ Hv Ha). discriminate.
    + intros key Hfound. unfold get_cached_structure. rewrite search_app.
      destruct (search (cache_db w) key); [contradiction | reflexivity].
Qed.

(** X6: the request identifier plays no part in the lookup: once a call has
    stored a structure, the same request under any other identifier gets
    that structure from the cache, with no request sent and nothing
    written. *)
Theorem suggest_structure_any_project_id (w : world)
    (project_id project_id' project_desc : string) (tech_stack : list string)
    (prefs : option ProjectPreferences) :
  let key := key_of project_desc tech_stack prefs in
  let first := suggest w project_id project_desc tech_stack prefs in
  search (cache_db w) key = [] ->
  fst first <> VNone ->
  suggest (snd first) project_id' project_desc tech_stack prefs = first.
Proof.
  cbv zeta. intros Hcold Hsome.
  destruct (suggest_structure_cold str_lower str_strip json_loads json_dumps
              md5_hexdigest embedding sentence_model score cosine score_lt
              unordered_le chat_completion now_isoformat
              w project_id project_desc tech_stack prefs Hcold Hsome)
    as (_ & _ & Htruthy & Hdb).
  pose proof (suggest_structure_hit str_lower str_strip json_loads json_dumps
                md5_hexdigest embedding sentence_model score cosine score_lt
                unordered_le chat_completion now_isoformat
                (snd (suggest w project_id project_desc tech_stack prefs))
                project_id' project_desc tech_stack prefs) as Hhit.
  cbv zeta in Hhit. rewrite Hdb in Hhit.
  rewrite (get_cached_structure_stored _ _ _ _ _ Hcold) in Hhit.
  rewrite (Hhit Htruthy). symmetry. apply surjective_pairing.
Qed.

End AgentInvariants.

Lemma suggest_structure_returns_valid_witness :
  cache_valid empty_world /\
  validate_structure (fst first_run) = Ok true /\
  cache_valid (snd first_run).
Proof.
  assert (Hv : cache_valid empty_world) by constructor.
  split; [exact Hv|].
  destruct (suggest_structure_returns_valid lower strip json_decode
              sample_dumps sample_digest nat (Some sample_encode) Q
              sample_cosine sample_lt sample_unordered
              sample_completion sample_clock empty_world "p1" "a django api"
              ["Python"] (Some docker_preferences) Hv) as [Hout Hcache].
  split; [|exact Hcache].
  destruct Hout as [Hnone|Hok]; [|exact Hok].
  exfalso. revert Hnone. vm_compute. discriminate.
Defined.

Lemma suggest_structure_any_project_id_witness :
  search (cache_db empty_world) sample_key = []
  /\ fst first_run <> VNone
  /\ suggest_structure lower strip json_decode sample_dumps sample_digest
       (Some sample_encode) sample_cosine sample_lt sample_unordered
       sample_completion sample_clock
       (snd first_run) "another id" "a django api" ["Python"]
       (Some docker_preferences)
     = first_run.
Proof.
  assert (Hsome : fst first_run <> VNone) by (vm_compute; discriminate).
  split; [reflexivity|]. split; [exact Hsome|].
  exact (suggest_structure_any_project_id lower strip json_decode
           sample_dumps sample_digest nat (Some sample_encode) Q sample_cosine
           sample_lt sample_unordered
           sample_completion sample_clock empty_world "p1" "another id"
           "a django api" ["Python"] (Some docker_preferences) eq_refl Hsome).
Defined.

(** *** The example ranker: bounds and failures *)

Lemma slice_to_firstn (A : Type) (k : Z) (l : list A) :
  exists n, slice_to k l = firstn n l /\ ((0 <= k)%Z -> n = Z.to_nat k).
Proof.
  unfold slice_to. destruct (Z.ltb_spec k 0).
  - eexists. split; [reflexivity | lia].
  - eexists. split; [reflexivity | reflexivity].
Qed.

(** In every case the answer is an initial part of some reordering of the
    catalog. *)
Lemma find_similar_repos_shape (embedding : Type)
    (sentence_model : option (string -> option embedding)) (score : Type)
    (cosine : embedding -> embedding -> score)
    (score_lt : score -> score -> bool)
    (unordered_le : list (score * repo) -> nat -> nat -> bool)
    (project_desc : string) (tech_stack : list string)
    (example_repos : list repo) (top_k : Z) :
  exists n ranked,
    Permutation ranked example_repos
    /\ find_similar_repos sentence_model cosine score_lt unordered_le
         project_desc tech_stack example_repos top_k = firstn n ranked
    /\ ((0 <= top_k)%Z -> n <= Z.to_nat top_k).
Proof.
  assert (Hempty : exists n ranked,
             Permutation ranked example_repos
             /\ @nil repo = firstn n ranked
             /\ ((0 <= top_k)%Z -> n <= Z.to_nat top_k)).
  { exists 0, example_repos. repeat split; [reflexivity | lia]. }
  unfold find_similar_repos.
  destruct sentence_model as [encode|]; [|exact Hempty].
  destruct (encode _) as [q|]; [|exact Hempty].
  destruct (score_repos cosine encode q example_repos) as [sims|] eqn:Es;
    [|exact Hempty].
  destruct (slice_to_firstn _ top_k (sort_by_score score_lt unordered_le sims))
    as (n & -> & Hn).
  exists n, (map snd (sort_by_score score_lt unordered_le sims)). repeat split.
  - rewrite <- (score_repos_catalog _ _ _ _ _ _ _ Es).
    apply Permutation_map. apply sort_by_score_perm.
  - symmetry. apply firstn_map.
  - intros Hk. rewrite (Hn Hk). lia.
Qed.

(** X7: whatever the encoder does, the ranker returns catalog entries only,
    none more often than the catalog has it, never more than the catalog
    holds and, for a non-negative [top_k], never more than [top_k]; with no
    encoder loaded it returns nothing. *)
Theorem find_similar_repos_bounded (embedding : Type)
    (sentence_model : option (string -> option embedding)) (score : Type)
    (cosine : embedding -> embedding -> score)
    (score_lt : score -> score -> bool)
    (unordered_le : list (score * repo) -> nat -> nat -> bool)
    (project_desc : string) (tech_stack : list string)
    (example_repos : list repo) (top_k : Z) :
  let returned :=
    find_similar_repos sentence_model cosine score_lt unordered_le
      project_desc tech_stack example_repos top_k in
  (forall r, In r returned -> In r example_repos)
  /\ List.length returned <= List.length example_repos
  /\ ((0 <= top_k)%Z -> List.length returned <= Z.to_nat top_k)
  /\ (NoDup example_repos -> NoDup returned)
  /\ (sentence_model = None -> returned = []).
Proof.
  cbv zeta.
  destruct (find_similar_repos_shape embedding sentence_model score cosine
              score_lt unordered_le project_desc tech_stack example_repos
              top_k)
    as (n & ranked & Hperm & Hout & Hn).
  repeat match goal with |- _ /\ _ => split end.
  - intros r Hin. rewrite Hout in Hin.
    apply (Permutation_in _ Hperm).
    rewrite <- (firstn_skipn n ranked). apply in_or_app. left; exact Hin.
  - rewrite Hout, length_firstn, <- (Permutation_length Hperm). lia.
  - intros Hk. rewrite Hout, length_firstn. specialize (Hn Hk). lia.
  - intros Hnd. rewrite Hout.
    assert (Hr : NoDup ranked)
      by exact (Permutation_NoDup (Permutation_sym Hperm) Hnd).
    rewrite <- (firstn_skipn n ranked) in Hr.
    exact (NoDup_app_remove_r _ _ Hr).
  - intros ->. reflexivity.
Qed.

Lemma find_similar_repos_bounded_witness :
  (0 <= 1)%Z /\
  List.length
    (find_similar_repos (Some sample_encode) sample_cosine sample_lt
       sample_unordered "django api" ["Python"] get_example_repos 1)
  <= Z.to_nat 1.
Proof.
  split; [lia|].
  apply (find_similar_repos_bounded nat (Some sample_encode) Q sample_cosine
           sample_lt sample_unordered
           "django api" ["Python"] get_example_repos 1).
  lia.
Defined.

Lemma score_repos_fails (embedding score : Type)
    (cosine : embedding -> embedding -> score)
    (encode : string -> option embedding) (q : embedding)
    (example_repos : list repo) (r : repo) :
  In r example_repos ->
  encode (repo_description r ++ " " ++ join " " (repo_tech_stack r)) = None ->
  score_repos cosine encode q example_repos = None.
Proof.
  intros Hin Hnone.
  induction example_repos as [|r0 rest IH]; [contradiction|].
  cbn [score_repos]. destruct Hin as [->|Hin].
  - rewrite Hnone. reflexivity.
  - rewrite (IH Hin).
    destruct (encode (repo_description r0 ++ " "
                      ++ join " " (repo_tech_stack r0))); reflexivity.
Qed.

(** X8: the ranking is all or nothing: when encoding the query, or the text of
    any single catalog entry, fails, no example at all is returned. *)
Theorem find_similar_repos_degrades (embedding : Type)
    (encode : string -> option embedding) (score : Type)
    (cosine : embedding -> embedding -> score)
    (score_lt : score -> score -> bool)
    (unordered_le : list (score * repo) -> nat -> nat -> bool)
    (project_desc : string) (tech_stack : list string)
    (example_repos : list repo) (top_k : Z) :
  encode (project_desc ++ " " ++ join " " tech_stack) = None
  \/ (exists r, In r example_repos
                /\ encode (repo_description r ++ " "
                           ++ join " " (repo_tech_stack r)) = None) ->
  find_similar_repos (Some encode) cosine score_lt unordered_le project_desc
    tech_stack example_repos top_k = [].
Proof.
  unfold find_similar_repos. intros [Hq|(r & Hin & Hr)].
  - rewrite Hq. reflexivity.
  - destruct (encode (project_desc ++ " " ++ join " " tech_stack)) as [q|];
      [|reflexivity].
    rewrite (score_repos_fails _ _ cosine encode q _ r Hin Hr). reflexivity.
Qed.

Lemma find_similar_repos_degrades_witness :
  (fun text : string => if String.eqb text "q Python" then Some 0 else None)
    ("React TypeScript frontend with Node.js backend" ++ " "
     ++ join " " ["React"; "TypeScript"; "Node.js"; "Express"]) = None
  /\ find_similar_repos
       (Some (fun text : string =>
                if String.eqb text "q Python" then Some 0 else None))
       sample_cosine sample_lt sample_unordered "q" ["Python"]
       get_example_repos default_top_k = [].
Proof.
  split; [reflexivity|].
  apply (find_similar_repos_degrades nat
           (fun text : string =>
              if String.eqb text "q Python" then Some 0 else None)
           Q sample_cosine sample_lt sample_unordered "q" ["Python"]
           get_example_repos default_top_k).
  right. eexists. split; [left; reflexivity | reflexivity].
Defined.

(** X9: [top_k] is a slice bound: a bound at least the size of the catalog
    returns the whole catalog, reordered; zero returns nothing; a negative
    bound drops that many entries from the low end of the ranking instead
    of returning none. *)
Theorem find_similar_repos_slice
    (embedding : Type) (encode : string -> option embedding) (score : Type)
    (cosine : embedding -> embedding -> score)
    (score_lt : score -> score -> bool)
    (unordered_le : list (score * repo) -> nat -> nat -> bool)
    (project_desc : string) (tech_stack : list string)
    (example_repos : list repo) (top_k : Z)
    (query_embedding : embedding) (similarities : list (score * repo)) :
  encode (project_desc ++ " " ++ join " " tech_stack) = Some query_embedding ->
  score_repos cosine encode query_embedding example_repos = Some similarities ->
  let returned :=
    find_similar_repos (Some encode) cosine score_lt unordered_le project_desc
      tech_stack example_repos top_k in
  ((Z.of_nat (List.length example_repos) <= top_k)%Z ->
     Permutation returned example_repos)
  /\ (top_k = 0%Z -> returned = [])
  /\ ((top_k < 0)%Z ->
      returned
      = map snd (firstn (List.length example_repos - Z.to_nat (- top_k))
                        (sort_by_score score_lt unordered_le similarities))).
Proof.
  intros Hq Hs. cbv zeta. unfold find_similar_repos. rewrite Hq, Hs.
  pose proof (score_repos_catalog _ _ _ _ _ _ _ Hs) as Hcat.
  assert (Hlen : List.length (sort_by_score score_lt unordered_le similarities)
                 = List.length example_repos).
  { rewrite (Permutation_length
               (sort_by_score_perm _ score_lt unordered_le similarities)).
    rewrite <- Hcat, length_map. reflexivity. }
  unfold slice_to. repeat split.
  - intros Hk. destruct (Z.ltb_spec top_k 0) as [Hneg|_]; [lia|].
    rewrite firstn_all2 by lia.
    rewrite <- Hcat. apply Permutation_map, sort_by_score_perm.
  - intros ->. reflexivity.
  - intros Hk. destruct (Z.ltb_spec top_k 0) as [_|Hpos]; [|lia].
    rewrite Hlen. reflexivity.
Qed.

Lemma find_similar_repos_slice_witness :
  sample_encode ("django api" ++ " " ++ join " " ["Python"]) = Some 17
  /\ (-1 < 0)%Z
  /\ List.length
       (find_similar_repos (Some sample_encode) sample_cosine sample_lt
          sample_unordered "django api" ["Python"] get_example_repos (-1)) = 1.
Proof.
  split; [reflexivity|]. split; [lia|].
  destruct (find_similar_repos_slice nat sample_encode Q sample_cosine
              sample_lt sample_unordered
              "django api" ["Python"] get_example_repos (-1) 17 _
              eq_refl eq_refl) as (_ & _ & Hneg).
  rewrite (Hneg ltac:(lia)). reflexivity.
Defined.

(** *** Trimming, lower-casing, splitting *)

Lemma is_space_lower_char (c : ascii) : is_space (lower_char c) = is_space c.
Proof. destruct c as [[] [] [] [] [] [] [] []]; reflexivity. Qed.

Lemma lower_char_idem (c : ascii) : lower_char (lower_char c) = lower_char c.
Proof. destruct c as [[] [] [] [] [] [] [] []]; reflexivity. Qed.

Lemma lower_idem (s : string) : lower (lower s) = lower s.
Proof.
  induction s as [|c s IH]; simpl; [reflexivity|].
  rewrite lower_char_idem, IH. reflexivity.
Qed.

Lemma rstrip_cons (c : ascii) (r : string) :
  is_space c = false -> rstrip (String c r) = String c (rstrip r).
Proof.
  intros H. simpl. rewrite H. destruct (rstrip r); reflexivity.
Qed.

Lemma rstrip_step (c : ascii) (r : string) :
  rstrip (String c r)
  = match rstrip r with
    | EmptyString => if is_space c then EmptyString else String c EmptyString
    | r' => String c r'
    end.
Proof. reflexivity. Qed.

Lemma rstrip_idem (s : string) : rstrip (rstrip s) = rstrip s.
Proof.
  induction s as [|c s IH]; [reflexivity|].
  rewrite (rstrip_step c s). destruct (rstrip s) as [|a r'] eqn:E.
  - destruct (is_space c) eqn:Hc; [reflexivity|].
    rewrite rstrip_step. simpl. rewrite Hc. reflexivity.
  - rewrite rstrip_step, IH. reflexivity.
Qed.

Lemma lstrip_head (s : string) :
  lstrip s = "" \/ exists c r, lstrip s = String c r /\ is_space c = false.
Proof.
  induction s as [|c s IH]; simpl; [left; reflexivity|].
  destruct (is_space c) eqn:Hc; [exact IH|].
  right. exists c, s. split; [reflexivity | exact Hc].
Qed.

Lemma strip_head (s : string) :
  strip s = "" \/ exists c r, strip s = String c r /\ is_space c = false.
Proof.
  unfold strip. destruct (lstrip_head s) as [->|(c & r & -> & Hc)].
  - left; reflexivity.
  - right. exists c, (rstrip r). split; [apply rstrip_cons, Hc | exact Hc].
Qed.

(** Trimming twice is trimming once. *)
Lemma strip_idem (s : string) : strip (strip s) = strip s.
Proof.
  destruct (strip_head s) as [E|(c & r & E & Hc)].
  - rewrite E. reflexivity.
  - unfold strip at 1. rewrite E. simpl lstrip. rewrite Hc.
    rewrite <- E. unfold strip. apply rstrip_idem.
Qed.

Lemma lower_lstrip (s : string) : lower (lstrip s) = lstrip (lower s).
Proof.
  induction s as [|c s IH]; simpl; [reflexivity|].
  rewrite is_space_lower_char. destruct (is_space c); [exact IH | reflexivity].
Qed.

Lemma lower_rstrip (s : string) : lower (rstrip s) = rstrip (lower s).
Proof.
  induction s as [|c s IH]; simpl; [reflexivity|].
  rewrite <- IH, is_space_lower_char.
  destruct (rstrip s) as [|a r]; simpl; [|reflexivity].
  destruct (is_space c); reflexivity.
Qed.

Lemma lower_strip (s : string) : lower (strip s) = strip (lower s).
Proof. unfold strip. rewrite lower_rstrip, lower_lstrip. reflexivity. Qed.

Lemma occurs_lstrip (c : ascii) (s : string) :
  occurs c s = false -> occurs c (lstrip s) = false.
Proof.
  induction s as [|a s IH]; simpl; [reflexivity|].
  intros H. apply orb_false_iff in H as [Ha Hs].
  destruct (is_space a); [exact (IH Hs)|].
  simpl. rewrite Ha, Hs. reflexivity.
Qed.

Lemma occurs_rstrip (c : ascii) (s : string) :
  occurs c s = false -> occurs c (rstrip s) = false.
Proof.
  induction s as [|a s IH]; simpl; [reflexivity|].
  intros H. apply orb_false_iff in H as [Ha Hs]. specialize (IH Hs).
  destruct (rstrip s) as [|b r].
  - destruct (is_space a); simpl; [reflexivity | rewrite Ha; reflexivity].
  - simpl in *. rewrite Ha. exact IH.
Qed.

Lemma occurs_strip (c : ascii) (s : string) :
  occurs c s = false -> occurs c (strip s) = false.
Proof. intros H. apply occurs_rstrip, occurs_lstrip, H. Qed.

Lemma occurs_after_first (c a : ascii) (s : string) :
  occurs c s = false -> occurs c (after_first a s) = false.
Proof.
  induction s as [|b s IH]; simpl; [reflexivity|].
  intros H. apply orb_false_iff in H as [Hb Hs].
  destruct (Ascii.eqb b a); [exact Hs | exact (IH Hs)].
Qed.

(** No piece of a split holds the separator. *)
Lemma split_pieces (c : ascii) (s : string) :
  Forall (fun piece => occurs c piece = false) (split c s).
Proof.
  induction s as [|a s IH]; simpl.
  - constructor; [reflexivity | constructor].
  - destruct (Ascii.eqb a c) eqn:E.
    + constructor; [reflexivity | exact IH].
    + destruct (split c s) as [|h t].
      * constructor; [simpl; rewrite E; reflexivity | constructor].
      * inversion IH; subst.
        constructor; [|assumption]. simpl. rewrite E. assumption.
Qed.

Lemma split_no_sep (c : ascii) (s : string) :
  occurs c s = false -> split c s = [s].
Proof.
  induction s as [|a s IH]; simpl; [reflexivity|].
  intros H. apply orb_false_iff in H as [Ha Hs].
  rewrite Ha, (IH Hs). reflexivity.
Qed.

Lemma split_app (c : ascii) (s t : string) :
  occurs c s = false -> split c (s ++ String c t) = s :: split c t.
Proof.
  induction s as [|a s IH]; simpl; intros H.
  - rewrite Ascii.eqb_refl. reflexivity.
  - apply orb_false_iff in H as [Ha Hs]. rewrite Ha, (IH Hs). reflexivity.
Qed.

Lemma string_app_assoc (a b c : string) : (a ++ b) ++ c = a ++ b ++ c.
Proof.
  induction a as [|x a IH]; simpl; [reflexivity | rewrite IH; reflexivity].
Qed.

Lemma split_join_led (c : ascii) (pad : string) (others : list string) :
  occurs c pad = false ->
  forall lead first,
    occurs c lead = false ->
    Forall (fun piece => occurs c piece = false) (first :: others) ->
    split c (lead ++ join (String c pad) (first :: others))
    = (lead ++ first) :: map (fun piece => pad ++ piece) others.
Proof.
  intros Hpad.
  induction others as [|second others IH]; intros lead first Hlead Hall;
    inversion Hall as [|? ? Hfirst Hrest]; subst.
  - simpl. apply split_no_sep. rewrite occurs_app, Hlead, Hfirst. reflexivity.
  - change (join (String c pad) (first :: second :: others))
      with (first ++ String c (pad ++ join (String c pad) (second :: others))).
    rewrite <- string_app_assoc.
    rewrite split_app by (rewrite occurs_app, Hlead, Hfirst; reflexivity).
    rewrite (IH pad second Hpad Hrest). reflexivity.
Qed.

(** Splitting a joined list gives the list back, each later piece led by
    what the separator has after its first character. *)
Lemma split_join (c : ascii) (pad : string) (first : string)
    (others : list string) :
  occurs c pad = false ->
  Forall (fun piece => occurs c piece = false) (first :: others) ->
  split c (join (String c pad) (first :: others))
  = first :: map (fun piece => pad ++ piece) others.
Proof.
  intros Hpad Hall.
  exact (split_join_led c pad others Hpad "" first eq_refl Hall).
Qed.

(** *** ASCII texts *)

Lemma is_ascii_app (s t : string) :
  is_ascii (s ++ t) = is_ascii s && is_ascii t.
Proof.
  induction s as [|c s IH]; [reflexivity|].
  cbn [append is_ascii]. rewrite IH. apply andb_assoc.
Qed.

Lemma is_ascii_after_first (c : ascii) (s : string) :
  is_ascii s = true -> is_ascii (after_first c s) = true.
Proof.
  induction s as [|a s IH]; [reflexivity|].
  cbn [is_ascii after_first]. intros H.
  apply andb_true_iff in H as [_ Hs].
  destruct (Ascii.eqb a c); [exact Hs | exact (IH Hs)].
Qed.

Lemma is_ascii_split (c : ascii) (s : string) :
  is_ascii s = true -> Forall (fun piece => is_ascii piece = true) (split c s).
Proof.
  induction s as [|a s IH]; cbn [is_ascii split]; intros H.
  - constructor; [reflexivity | constructor].
  - apply andb_true_iff in H as [Ha Hs]. specialize (IH Hs).
    destruct (Ascii.eqb a c).
    + constructor; [reflexivity | exact IH].
    + destruct (split c s) as [|h t].
      * constructor; [cbn [is_ascii]; rewrite Ha; reflexivity | constructor].
      * inversion IH; subst.
        constructor; [|assumption]. cbn [is_ascii]. rewrite Ha. assumption.
Qed.

Lemma is_ascii_join (sep : string) (parts : list string) :
  is_ascii sep = true ->
  Forall (fun part => is_ascii part = true) parts ->
  is_ascii (join sep parts) = true.
Proof.
  intros Hsep Hall. unfold join.
  induction Hall as [|part rest Hpart Hrest IH]; [reflexivity|].
  destruct rest as [|next rest]; [exact Hpart|].
  change (String.concat sep (part :: next :: rest))
    with (part ++ sep ++ String.concat sep (next :: rest)).
  rewrite !is_ascii_app, Hpart, Hsep, IH. reflexivity.
Qed.

(** *** The preference parser: custom folders *)

Lemma collect_custom_folders_names (str_strip : string -> string)
    (lines : list string) :
  (forall s, strip (str_strip s) = str_strip s) ->
  (forall c s, occurs c s = false -> occurs c (str_strip s) = false) ->
  Forall (fun line => occurs newline line = false) lines ->
  Forall (fun name => name <> "" /\ strip name = name
                      /\ occurs newline name = false)
         (collect_custom_folders str_strip lines).
Proof.
  intros Hidem Hsub.
  induction 1 as [|line rest Hline Hrest IH]; cbn [collect_custom_folders];
    [constructor|].
  destruct (startswith (str_strip line) "folder:"
            || startswith (str_strip line) "custom:");
    [|exact IH].
  cbv zeta.
  destruct (String.eqb_spec (str_strip (after_first ":" line)) "") as [E|E];
    cbn [negb]; [exact IH|].
  constructor; [|exact IH]. repeat split.
  - exact E.
  - apply Hidem.
  - apply Hsub, occurs_after_first, Hline.
Qed.

(** X10: every custom folder the parser collects is a non-empty name with
    no ASCII blank at either end and without a line break; [str.strip] is
    any function whose results have no ASCII blank at either end and no
    character that its argument has not. *)
Theorem parse_preferences_custom_folders (str_lower str_strip : string -> string)
    (prefs_text : string) :
  (forall s, strip (str_strip s) = str_strip s) ->
  (forall c s, occurs c s = false -> occurs c (str_strip s) = false) ->
  Forall (fun name => name <> "" /\ strip name = name
                      /\ occurs newline name = false)
         (custom_folders (parse_preferences str_lower str_strip prefs_text)).
Proof.
  intros Hidem Hsub. unfold parse_preferences.
  destruct (String.eqb (str_strip prefs_text) ""); cbn [custom_folders];
    [constructor|].
  apply collect_custom_folders_names; [exact Hidem | exact Hsub|].
  apply split_pieces.
Qed.

Lemma parse_preferences_custom_folders_witness :
  custom_folders
    (parse_preferences lower strip
       (" Folder: No" ++ nl ++ "folder:  uploads " ++ nl ++ "custom:logs"))
  = ["uploads"; "logs"]
  /\ Forall (fun name => name <> "" /\ strip name = name
                         /\ occurs newline name = false)
            ["uploads"; "logs"].
Proof.
  split; [reflexivity|].
  exact (parse_preferences_custom_folders lower strip
           (" Folder: No" ++ nl ++ "folder:  uploads " ++ nl ++ "custom:logs")
           strip_idem occurs_strip).
Defined.

Lemma strip_folder_line (name : string) :
  strip ("folder: " ++ name) = "folder:" ++ rstrip (" " ++ name).
Proof.
  unfold strip. simpl lstrip.
  change (is_space "f") with false. cbv iota.
  simpl append. rewrite !rstrip_cons by reflexivity. reflexivity.
Qed.

Lemma startswith_app (p s : string) : startswith (p ++ s) p = true.
Proof.
  unfold startswith. induction p as [|a p IH]; simpl.
  - destruct s; reflexivity.
  - destruct (ascii_dec a a) as [_|Hne]; [exact IH | contradiction Hne; reflexivity].
Qed.

Lemma collect_folder_lines (names : list string) :
  Forall (fun name => name <> "" /\ strip name = name) names ->
  collect_custom_folders strip (map (fun name => "folder: " ++ name) names)
  = names.
Proof.
  induction 1 as [|name rest [Hne Hstrip] Hrest IH]; [reflexivity|].
  cbn [map collect_custom_folders].
  rewrite strip_folder_line.
  rewrite startswith_app. cbn [orb].
  change (after_first ":" ("folder: " ++ name)) with (" " ++ name).
  change (strip (" " ++ name)) with (strip name).
  rewrite Hstrip. destruct (String.eqb_spec name "") as [E|_];
    [contradiction|].
  cbn [negb]. rewrite IH. reflexivity.
Qed.

(** The folder lines as the ASCII trimming reads them. *)
Lemma folder_lines_ascii (str_lower : string -> string) (names : list string) :
  Forall (fun name => name <> "" /\ strip name = name
                      /\ occurs newline name = false) names ->
  custom_folders
    (parse_preferences str_lower strip
       (join nl (map (fun name => "folder: " ++ name) names)))
  = names.
Proof.
  intros Hall. destruct names as [|first others]; [reflexivity|].
  unfold parse_preferences.
  assert (Hstarts : exists r,
             join nl (map (fun name => "folder: " ++ name) (first :: others))
             = String "f" r).
  { destruct others; simpl; eexists; reflexivity. }
  destruct Hstarts as [r Hr].
  assert (Hblank : strip (join nl (map (fun name => "folder: " ++ name)
                                       (first :: others))) <> "").
  { rewrite Hr. unfold strip. simpl lstrip.
    change (is_space "f") with false. cbv iota.
    rewrite rstrip_cons by reflexivity. discriminate. }
  destruct (String.eqb_spec
              (strip (join nl (map (fun name => "folder: " ++ name)
                                   (first :: others)))) "") as [E|_];
    [contradiction|].
  cbn [custom_folders].
  change (map (fun name => "folder: " ++ name) (first :: others))
    with (("folder: " ++ first)
          :: map (fun name => "folder: " ++ name) others).
  unfold nl. rewrite split_join.
  - rewrite (map_ext (fun piece => "" ++ piece) (fun piece => piece))
      by reflexivity.
    rewrite map_id.
    apply (collect_folder_lines (first :: others)).
    eapply Forall_impl; [|exact Hall]. intros n (H1 & H2 & _). split; assumption.
  - reflexivity.
  - change (("folder: " ++ first)
            :: map (fun name => "folder: " ++ name) others)
      with (map (fun name => "folder: " ++ name) (first :: others)).
    apply Forall_map. eapply Forall_impl; [|exact Hall].
    intros n (_ & _ & Hn). simpl. exact Hn.
Qed.

(** On ASCII lines the collected folders are those the ASCII trimming
    collects. *)
Lemma collect_custom_folders_ascii (str_strip : string -> string)
    (lines : list string) :
  agree_on_ascii str_strip strip ->
  Forall (fun line => is_ascii line = true) lines ->
  collect_custom_folders str_strip lines = collect_custom_folders strip lines.
Proof.
  intros Hagree.
  induction 1 as [|line rest Hline Hrest IH]; [reflexivity|].
  cbn [collect_custom_folders].
  rewrite (Hagree line Hline),
          (Hagree (after_first ":" line) (is_ascii_after_first ":" line Hline)),
          IH.
  reflexivity.
Qed.

Lemma custom_folders_ascii (str_lower str_strip : string -> string)
    (prefs_text : string) :
  agree_on_ascii str_strip strip ->
  is_ascii prefs_text = true ->
  custom_folders (parse_preferences str_lower str_strip prefs_text)
  = custom_folders (parse_preferences str_lower strip prefs_text).
Proof.
  intros Hagree Hascii. unfold parse_preferences.
  rewrite (Hagree prefs_text Hascii).
  destruct (String.eqb (strip prefs_text) ""); [reflexivity|].
  cbn [custom_folders].
  apply collect_custom_folders_ascii; [exact Hagree|].
  apply is_ascii_split, Hascii.
Qed.

(** X11: lines [folder: <name>] come back as the custom folders, in their
    order and with their repetitions, when the names are ASCII texts that
    are non-empty, free of surrounding blanks and of line breaks;
    [str.strip] is any function that trims an ASCII text as [strip]
    does. *)
Theorem parse_preferences_folder_lines (str_lower str_strip : string -> string)
    (names : list string) :
  agree_on_ascii str_strip strip ->
  Forall (fun name => is_ascii name = true /\ name <> "" /\ strip name = name
                      /\ occurs newline name = false) names ->
  custom_folders
    (parse_preferences str_lower str_strip
       (join nl (map (fun name => "folder: " ++ name) names)))
  = names.
Proof.
  intros Hagree Hall.
  rewrite (custom_folders_ascii str_lower str_strip _ Hagree).
  - apply folder_lines_ascii.
    eapply Forall_impl; [|exact Hall]. intros n (_ & H). exact H.
  - apply is_ascii_join; [reflexivity|].
    apply Forall_map. eapply Forall_impl; [|exact Hall].
    intros n (Hn & _). rewrite is_ascii_app, Hn. reflexivity.
Qed.

Lemma parse_preferences_folder_lines_witness :
  Forall (fun name => is_ascii name = true /\ name <> "" /\ strip name = name
                      /\ occurs newline name = false)
         ["uploads"; "logs"; "uploads"]
  /\ custom_folders
       (parse_preferences lower strip
          (join nl (map (fun name => "folder: " ++ name)
                        ["uploads"; "logs"; "uploads"])))
     = ["uploads"; "logs"; "uploads"].
Proof.
  assert (H : Forall (fun name => is_ascii name = true /\ name <> ""
                                  /\ strip name = name
                                  /\ occurs newline name = false)
                     ["uploads"; "logs"; "uploads"])
    by (repeat constructor; discriminate).
  split; [exact H|].
  exact (parse_preferences_folder_lines lower strip _ (fun s _ => eq_refl) H).
Defined.

(** *** The tech-stack field of the form *)

Lemma tech_list_padded (names : list string) :
  Forall (fun name => name <> "" /\ strip name = name) names ->
  map strip
    (filter (fun tech => negb (String.eqb (strip tech) ""))
            (map (fun piece => " " ++ piece) names))
  = names.
Proof.
  induction 1 as [|name rest [Hne Hstrip] Hrest IH]; [reflexivity|].
  cbn [map filter].
  change (strip (" " ++ name)) with (strip name). rewrite Hstrip.
  destruct (String.eqb_spec name "") as [E|_]; [contradiction|].
  cbn [negb map].
  change (strip (" " ++ name)) with (strip name). rewrite Hstrip, IH.
  reflexivity.
Qed.

(** The tech list as the ASCII trimming reads it. *)
Lemma tech_list_of_strip (tech_stack : string) :
  Forall (fun tech => tech <> "" /\ strip tech = tech
                      /\ occurs "," tech = false)
         (tech_list_of strip tech_stack)
  /\ (forall names,
         Forall (fun name => name <> "" /\ strip name = name
                             /\ occurs "," name = false) names ->
         tech_list_of strip (join ", " names) = names).
Proof.
  split.
  - unfold tech_list_of.
    pose proof (split_pieces "," tech_stack) as Hpieces.
    induction Hpieces as [|piece rest Hpiece Hrest IH]; simpl; [constructor|].
    destruct (String.eqb_spec (strip piece) "") as [E|E]; simpl; [exact IH|].
    constructor; [|exact IH]. repeat split.
    + exact E.
    + apply strip_idem.
    + apply occurs_strip, Hpiece.
  - intros names Hall. destruct names as [|first others]; [reflexivity|].
    unfold tech_list_of.
    rewrite (split_join "," " " first others eq_refl).
    + inversion Hall as [|? ? (Hne & Hstrip & _) Hrest]; subst.
      cbn [filter]. rewrite Hstrip.
      destruct (String.eqb_spec first "") as [E|_]; [contradiction|].
      cbn [negb map]. rewrite Hstrip. f_equal.
      apply tech_list_padded.
      eapply Forall_impl; [|exact Hrest]. intros n (H1 & H2 & _).
      split; assumption.
    + eapply Forall_impl; [|exact Hall]. intros n (_ & _ & Hn). exact Hn.
Qed.

Lemma tech_list_of_ascii (str_strip : string -> string) (tech_stack : string) :
  agree_on_ascii str_strip strip ->
  is_ascii tech_stack = true ->
  tech_list_of str_strip tech_stack = tech_list_of strip tech_stack.
Proof.
  intros Hagree Hascii. unfold tech_list_of.
  pose proof (is_ascii_split "," tech_stack Hascii) as Hpieces.
  induction Hpieces as [|piece rest Hpiece Hrest IH]; [reflexivity|].
  cbn [filter]. rewrite (Hagree piece Hpiece).
  destruct (negb (String.eqb (strip piece) "")); [|exact IH].
  cbn [map]. rewrite (Hagree piece Hpiece), IH. reflexivity.
Qed.

(** X12: the tech list read from an ASCII form field: every entry is
    non-empty, free of surrounding blanks and of commas; and ASCII names of
    that kind, written with a comma and a blank between them, are read
    back as they are; [str.strip] is any function that trims an ASCII text
    as [strip] does. *)
Theorem tech_list_of_entries (str_strip : string -> string) :
  agree_on_ascii str_strip strip ->
  (forall tech_stack,
      is_ascii tech_stack = true ->
      Forall (fun tech => tech <> "" /\ strip tech = tech
                          /\ occurs "," tech = false)
             (tech_list_of str_strip tech_stack))
  /\ (forall names,
         Forall (fun name => is_ascii name = true /\ name <> ""
                             /\ strip name = name
                             /\ occurs "," name = false) names ->
         tech_list_of str_strip (join ", " names) = names).
Proof.
  intros Hagree. split.
  - intros tech_stack Hascii.
    rewrite (tech_list_of_ascii str_strip tech_stack Hagree Hascii).
    apply tech_list_of_strip.
  - intros names Hall.
    rewrite (tech_list_of_ascii str_strip _ Hagree).
    + apply (proj2 (tech_list_of_strip "")).
      eapply Forall_impl; [|exact Hall]. intros n (_ & H). exact H.
    + apply is_ascii_join; [reflexivity|].
      eapply Forall_impl; [|exact Hall]. intros n (Hn & _). exact Hn.
Qed.

Lemma tech_list_of_entries_witness :
  Forall (fun name => is_ascii name = true /\ name <> "" /\ strip name = name
                      /\ occurs "," name = false) ["React"; "Node.js"]
  /\ tech_list_of strip (join ", " ["React"; "Node.js"]) = ["React"; "Node.js"]
  /\ tech_list_of strip " React ,, Node.js , " = ["React"; "Node.js"].
Proof.
  assert (H : Forall (fun name => is_ascii name = true /\ name <> ""
                                  /\ strip name = name
                                  /\ occurs "," name = false)
                     ["React"; "Node.js"])
    by (repeat constructor; discriminate).
  split; [exact H|].
  split; [|reflexivity].
  exact (proj2 (tech_list_of_entries strip (fun s _ => eq_refl)) _ H).
Defined.

(** *** The cache key on canonical input *)

Lemma normalize_idem (s : string) :
  strip (lower (strip (lower s))) = strip (lower s).
Proof. rewrite lower_strip, lower_idem. apply strip_idem. Qed.

(** X13: the key of a request is the key of its canonical form: the
    description lower-cased and trimmed, the tech stack lower-cased,
    trimmed and sorted; [str.lower] and [str.strip] are any functions for
    which lower-casing and trimming a second time changes nothing. *)
Theorem make_cache_key_of_canonical
    (str_lower str_strip : string -> string)
    (json_dumps : value -> string) (md5_hexdigest : string -> string)
    (project_desc : string) (tech_stack : list string) (prefs : option value) :
  (forall s, str_strip (str_lower (str_strip (str_lower s)))
             = str_strip (str_lower s)) ->
  make_cache_key str_lower str_strip json_dumps md5_hexdigest
    (str_strip (str_lower project_desc))
    (sorted (map (fun tech => str_strip (str_lower tech)) tech_stack)) prefs
  = make_cache_key str_lower str_strip json_dumps md5_hexdigest project_desc
      tech_stack prefs.
Proof.
  intros Hidem. unfold make_cache_key, cache_data.
  rewrite Hidem.
  rewrite (sorted_perm
             (map (fun tech => str_strip (str_lower tech))
                  (sorted (map (fun tech => str_strip (str_lower tech))
                               tech_stack)))
             (map (fun tech => str_strip (str_lower tech)) tech_stack)).
  - reflexivity.
  - rewrite (Permutation_map (fun tech => str_strip (str_lower tech))
               (stable_sort_perm _ String.leb
                  (map (fun tech => str_strip (str_lower tech)) tech_stack))).
    rewrite map_map.
    rewrite (map_ext _ (fun tech => str_strip (str_lower tech))
               (fun tech => Hidem tech)).
    reflexivity.
Qed.

Lemma make_cache_key_of_canonical_witness :
  make_cache_key lower strip sample_dumps sample_digest
    (strip (lower "  A Web Shop "))
    (sorted (map (fun tech => strip (lower tech)) ["React "; "node.js"]))
    None
  = make_cache_key lower strip sample_dumps sample_digest "  A Web Shop "
      ["React "; "node.js"] None.
Proof.
  exact (make_cache_key_of_canonical lower strip sample_dumps sample_digest
           "  A Web Shop " ["React "; "node.js"] None normalize_idem).
Defined.

(** *** The tree renderer on well-formed trees *)

Lemma draw_node_folder (indent : string) (is_last : bool) (name : string)
    (children : list node) :
  draw_node indent is_last (Folder name children)
  = (indent ++ (if is_last then "└── " else "├── ") ++ name ++ "/")
    :: draw_nodes (indent ++ (if is_last then "    " else "│   ")) children.
Proof.
  cbn [draw_node]. f_equal.
  all: induction children as [|c rest IH].
  all: try reflexivity.
  all: cbn [draw_nodes]; rewrite <- IH; reflexivity.
Qed.

Lemma node_size_folder (name : string) (children : list node) :
  node_size (Folder name children) = S (nodes_size children).
Proof.
  cbn [node_size]. f_equal.
  all: induction children as [|c rest IH].
  all: try reflexivity.
  all: cbn [nodes_size]; rewrite <- IH; reflexivity.
Qed.

Lemma draw_node_length :
  forall (n : node) (indent : string) (is_last : bool),
    List.length (draw_node indent is_last n) = node_size n.
Proof.
  fix IH 1. intros [name|name children] indent is_last; [reflexivity|].
  rewrite draw_node_folder, node_size_folder. cbn [List.length]. f_equal.
  generalize (indent ++ (if is_last then "    " else "│   ")).
  induction children as [|c rest IHrest]; intros ind; [reflexivity|].
  cbn [draw_nodes nodes_size]. rewrite length_app, IH, IHrest. reflexivity.
Qed.

Lemma draw_nodes_length (indent : string) (l : list node) :
  List.length (draw_nodes indent l) = nodes_size l.
Proof.
  induction l as [|c rest IH]; [reflexivity|].
  cbn [draw_nodes nodes_size]. rewrite length_app, draw_node_length, IH.
  reflexivity.
Qed.

Lemma node_frames_folder (name : string) (children : list node) :
  node_frames (Folder name children)
  = match children with
    | [] => 0
    | _ => S (nodes_frames children)
    end.
Proof.
  cbn [node_frames]. destruct children as [|c cs]; reflexivity.
Qed.

(** X14: [_build_tree] on the objects of a list of well-formed trees, with
    [depth] nested calls at its disposal: when the folders with children
    are nested less deep than that, it returns the drawing of the trees,
    one list entry per node; otherwise it raises [RecursionError]. *)
Theorem build_tree_within_depth (py_repr : value -> string) (depth : nat)
    (nodes : list node) (indent : string) :
  _build_tree py_repr depth (VList (map node_value nodes)) indent
  = (if (nodes_frames nodes <? depth)%nat
     then Ok (draw_nodes indent nodes)
     else Raise RecursionError)
  /\ (forall lines,
        _build_tree py_repr depth (VList (map node_value nodes)) indent
        = Ok lines ->
        List.length lines = nodes_size nodes).
Proof.
  assert (Hdraw : _build_tree py_repr depth (VList (map node_value nodes)) indent
                  = if (nodes_frames nodes <? depth)%nat
                    then Ok (draw_nodes indent nodes)
                    else Raise RecursionError).
  { revert nodes indent.
    induction depth as [|depth IH]; intros nodes indent; [reflexivity|].
    cbn [_build_tree iter_items bind].
    induction nodes as [|n rest IHrest]; [reflexivity|].
    assert (Hlast : match map node_value rest with [] => true | _ => false end
                    = match rest with [] => true | _ => false end)
      by (destruct rest; reflexivity).
    cbn [map draw_nodes nodes_frames]. rewrite Hlast, IHrest.
    destruct n as [name|name children].
    - cbn [node_frames Nat.max].
      destruct (nodes_frames rest <? S depth)%nat; reflexivity.
    - rewrite draw_node_folder, node_frames_folder.
      cbn [node_value folder_node get_method dict_get bind eq_str].
      cbn [String.eqb Ascii.eqb Bool.eqb bind eq_str].
      destruct children as [|c cs].
      + cbn [map truthy Nat.max bind].
        destruct (nodes_frames rest <? S depth)%nat; reflexivity.
      + cbn [map truthy]. cbn [map] in IH. rewrite (IH (c :: cs) _).
        destruct (Nat.ltb_spec (nodes_frames (c :: cs)) depth);
          destruct (Nat.ltb_spec (nodes_frames rest) (S depth));
          destruct (Nat.ltb_spec
                      (Nat.max (S (nodes_frames (c :: cs))) (nodes_frames rest))
                      (S depth));
          try lia; reflexivity. }
  split; [exact Hdraw|].
  intros lines. rewrite Hdraw.
  destruct (nodes_frames nodes <? depth)%nat; [|discriminate].
  intros [= <-]. apply draw_nodes_length.
Qed.

Lemma build_tree_within_depth_witness :
  _build_tree (fun _ => "") 2
    (VList (map node_value [File "a.txt"; Folder "src" [File "b.txt"]])) ""
  = Ok ["├── a.txt"; "└── src/"; "    └── b.txt"]
  /\ List.length ["├── a.txt"; "└── src/"; "    └── b.txt"]
     = nodes_size [File "a.txt"; Folder "src" [File "b.txt"]].
Proof.
  destruct (build_tree_within_depth (fun _ => "") 2
              [File "a.txt"; Folder "src" [File "b.txt"]] "") as [Hdraw Hlen].
  split; [rewrite Hdraw; reflexivity|].
  apply Hlen. reflexivity.
Defined.

(** A folder within a folder needs two nested calls and the call itself. *)
Example build_tree_depths :
  let nodes := [File "a.txt"; Folder "src" [Folder "lib" [File "b.txt"]]] in
  nodes_frames nodes = 2
  /\ _build_tree (fun _ => "") 2 (VList (map node_value nodes)) ""
     = Raise RecursionError
  /\ _build_tree (fun _ => "") 3 (VList (map node_value nodes)) ""
     = Ok ["├── a.txt"; "└── src/"; "    └── lib/"; "        └── b.txt"].
Proof. repeat split. Qed.

(** *** The prompt *)

Lemma contains_here (x rest : string) : contains x (x ++ rest) = true.
Proof.
  pose proof (startswith_app x rest) as H. unfold startswith in H.
  destruct (x ++ rest); cbn [contains]; rewrite H; reflexivity.
Qed.

Lemma contains_app_r (x a rest : string) :
  contains x rest = true -> contains x (a ++ rest) = true.
Proof.
  intros H. induction a as [|c a IH]; [exact H|].
  cbn [append contains]. rewrite IH. apply orb_true_r.
Qed.

Lemma prefix_app_l (a x rest : string) :
  String.prefix x a = true -> String.prefix x (a ++ rest) = true.
Proof.
  revert x. induction a as [|c a IH]; intros [|y x]; simpl; try discriminate.
  - destruct rest; reflexivity.
  - reflexivity.
  - destruct (ascii_dec y c); [apply IH | discriminate].
Qed.

Lemma contains_app_l (x a rest : string) :
  contains x a = true -> contains x (a ++ rest) = true.
Proof.
  induction a as [|c a IH]; cbn [append contains].
  - rewrite orb_false_r. intros H.
    destruct x; [|discriminate H]. destruct rest; reflexivity.
  - intros H. apply orb_true_iff in H as [H|H].
    + pose proof (prefix_app_l (String c a) x rest H) as P.
      cbn [append] in P. rewrite P. reflexivity.
    + rewrite (IH H). apply orb_true_r.
Qed.

Ltac embed :=
  solve [ apply contains_here
        | assumption
        | apply contains_app_r; embed
        | apply contains_app_l; embed ].

Lemma similar_examples_text_embeds (similar_repos : list repo) (r : repo) :
  In r similar_repos ->
  forall i,
    contains (repo_description r) (similar_examples_text i similar_repos) = true
    /\ contains (join ", " (repo_tech_stack r))
         (similar_examples_text i similar_repos) = true.
Proof.
  induction similar_repos as [|r0 rest IH]; [contradiction|].
  intros [->|Hin] i; cbn [similar_examples_text].
  - split; embed.
  - destruct (IH Hin (S i)) as [Hd Ht]. split; embed.
Qed.

(** X15: the prompt carries the request word for word: the description, the
    tech stack joined by commas, the custom folders (or None), the schema
    example, and the description and tech stack of every similar example
    handed in. *)
Theorem build_prompt_embeds (project_desc : string) (tech_stack : list string)
    (prefs : option ProjectPreferences) (similar_repos : list repo) :
  let prompt := build_prompt project_desc tech_stack prefs similar_repos in
  contains project_desc prompt = true
  /\ contains (join ", " tech_stack) prompt = true
  /\ contains schema_example prompt = true
  /\ (forall p, prefs = Some p ->
        contains (match custom_folders p with
                  | [] => "None"
                  | folders => join ", " folders
                  end) prompt = true)
  /\ (forall r, In r similar_repos ->
        contains (repo_description r) prompt = true
        /\ contains (join ", " (repo_tech_stack r)) prompt = true).
Proof.
  cbv zeta. unfold build_prompt.
  repeat match goal with |- _ /\ _ => split end.
  - embed.
  - embed.
  - embed.
  - intros p ->. embed.
  - intros r Hin.
    destruct (similar_examples_text_embeds similar_repos r Hin 1) as [Hd Ht].
    destruct similar_repos as [|r0 rest]; [contradiction|].
    split; embed.
Qed.

Lemma build_prompt_embeds_witness :
  Some docker_preferences = Some docker_preferences
  /\ contains "assets, assets, README.md"
       (build_prompt "a django api" ["Python"] (Some docker_preferences) [])
     = true.
Proof.
  split; [reflexivity|].
  destruct (build_prompt_embeds "a django api" ["Python"]
              (Some docker_preferences) []) as (_ & _ & _ & Hf & _).
  exact (Hf docker_preferences eq_refl).
Defined.

(** *** The form handler *)

Section MainFacts.

Variable str_lower : string -> string.
Variable str_strip : string -> string.
Variable json_loads : string -> loaded.
Variable json_dumps : value -> string.
Variable md5_hexdigest : string -> string.
Variable embedding : Type.
Variable sentence_model : option (string -> option embedding).
Variable score : Type.
Variable cosine : embedding -> embedding -> score.
Variable score_lt : score -> score -> bool.
Variable unordered_le :
  list (score * repo) -> nat -> nat -> bool.
Variable chat_completion : nat -> string -> option string.
Variable now_isoformat : nat -> string.
Variable py_repr : value -> string.
Variable json_dumps_indent : value -> string.
Variable render_error : value -> string.

Abbreviation handler api_key :=
  (generate_directory_structure str_lower str_strip json_loads json_dumps
     md5_hexdigest sentence_model cosine score_lt unordered_le
     chat_completion now_isoformat py_repr
     json_dumps_indent render_error api_key).

(** X16: without an API key the handler answers the same error text twice and
    touches nothing.  With a key, when the cache has no usable entry for
    the request and the completion endpoint fails or answers with empty
    text, it answers the fixed failure texts, has sent that one request and
    has left the cache as it was. *)
Theorem generate_directory_structure_failure (w : world)
    (project_desc tech_stack preferences : string) :
  let prefs := Some (parse_preferences str_lower str_strip preferences) in
  let tech_list := tech_list_of str_strip tech_stack in
  let key :=
    request_key str_lower str_strip json_dumps md5_hexdigest project_desc
      tech_list prefs in
  let prompt :=
    request_prompt sentence_model cosine score_lt unordered_le project_desc
      tech_list prefs in
  (forall api_key,
      api_key = None \/ api_key = Some "" ->
      handler api_key w project_desc tech_stack preferences
      = (("Error: OPENAI_API_KEY not found in environment variables",
          "Error: OPENAI_API_KEY not found in environment variables"), w))
  /\
  (forall openai_api_key,
      openai_api_key <> "" ->
      truthy (get_cached_structure (cache_db w) key) = false ->
      chat_completion (List.length (llm_calls w)) prompt = None
      \/ chat_completion (List.length (llm_calls w)) prompt = Some "" ->
      handler (Some openai_api_key) w project_desc tech_stack preferences
      = (("Failed to generate directory structure. Please try again.",
          "Error occurred."),
         {| cache_db := cache_db w;
            llm_calls := (llm_calls w ++ [prompt])%list;
            ticks := ticks w |})).
Proof.
  cbv zeta. split.
  - intros api_key [->| ->]; reflexivity.
  - intros k Hk Hmiss Hfail.
    unfold generate_directory_structure.
    destruct (String.eqb_spec k "") as [E|_]; [contradiction|].
    pose proof (suggest_structure_miss str_lower str_strip json_loads
                  json_dumps md5_hexdigest
                  embedding sentence_model score cosine score_lt unordered_le
                  chat_completion now_isoformat w
                  ("gradio_" ++ substring 0 8 (md5_hexdigest project_desc))
                  project_desc (tech_list_of str_strip tech_stack)
                  (Some (parse_preferences str_lower str_strip preferences))
                  Hmiss) as E.
    cbv zeta in E. rewrite E. clear E.
    destruct Hfail as [-> | ->]; reflexivity.
Qed.

End MainFacts.

Lemma generate_directory_structure_failure_witness :
  "sk-demo" <> ""
  /\ truthy (get_cached_structure (cache_db empty_world)
               (request_key lower strip sample_dumps sample_digest
                  "a django api" (tech_list_of strip "Python, Django")
                  (Some (parse_preferences lower strip "include docker"))))
    = false
  /\ failing_completion (List.length (llm_calls empty_world))
       (request_prompt (Some sample_encode) sample_cosine sample_lt
          sample_unordered "a django api"
          (tech_list_of strip "Python, Django")
          (Some (parse_preferences lower strip "include docker"))) = None
  /\ fst (generate_directory_structure lower strip json_decode sample_dumps
            sample_digest (Some sample_encode) sample_cosine sample_lt
            sample_unordered failing_completion sample_clock
            (fun _ => "") sample_dumps (fun _ => "") (Some "sk-demo")
            empty_world "a django api" "Python, Django" "include docker")
     = ("Failed to generate directory structure. Please try again.",
        "Error occurred.").
Proof.
  assert (Hk : "sk-demo" <> "") by discriminate.
  split; [exact Hk|]. split; [reflexivity|]. split; [reflexivity|].
  rewrite (proj2 (generate_directory_structure_failure lower strip
                    json_decode
                    sample_dumps sample_digest nat (Some sample_encode) Q
                    sample_cosine sample_lt sample_unordered
                    failing_completion sample_clock
                    (fun _ => "") sample_dumps (fun _ => "") empty_world
                    "a django api" "Python, Django" "include docker")
             "sk-demo" Hk eq_refl (or_introl eq_refl)).
  reflexivity.
Defined.

(** *** What the preference applier adds, exactly *)

Lemma append_if_absent_count (name : string) (node0 : value)
    (l : list value) (v : value) :
  named name node0 = true ->
  append_if_absent name node0 (VList l) = Ok v ->
  exists l',
    v = VList l'
    /\ forall m, count_named m l'
                 = if String.eqb m name then Nat.max 1 (count_named m l)
                   else count_named m l.
Proof.
  intros Hn. unfold append_if_absent.
  destruct (any_named name l) as [[|]|e] eqn:Ea; cbn [bind]; try discriminate;
    intros [= <-]; eexists; (split; [reflexivity|]); intros m;
    destruct (String.eqb_spec m name) as [->|Hne]; try reflexivity.
  - pose proof (any_named_true_count _ _ Ea). lia.
  - rewrite count_named_snoc, Hn, (any_named_false_count _ _ Ea). reflexivity.
  - rewrite count_named_snoc.
    destruct (named m node0) eqn:Em; [|lia].
    destruct (Hne (named_inj _ _ _ Em Hn)).
Qed.

Lemma append_all_count (steps : list (string * value)) :
  Forall named_step steps ->
  forall (l : list value) (v : value),
    append_all steps (VList l) = Ok v ->
    exists l',
      v = VList l'
      /\ forall m, count_named m l'
                   = if existsb (String.eqb m) (map fst steps)
                     then Nat.max 1 (count_named m l)
                     else count_named m l.
Proof.
  induction 1 as [|[name node0] rest Hstep Hrest IH]; intros l v;
    cbn [append_all].
  - intros [= <-]. exists l. split; [reflexivity|]. intros m; reflexivity.
  - destruct (append_if_absent name node0 (VList l)) as [sl|e] eqn:E;
      [|discriminate].
    destruct (append_if_absent_count _ _ _ _ Hstep E) as (l1 & -> & H1).
    cbn [bind]. intros Hv.
    destruct (IH _ _ Hv) as (l2 & -> & H2).
    exists l2. split; [reflexivity|]. intros m.
    rewrite H2, H1. cbn [map fst existsb].
    destruct (String.eqb m name); cbn [orb];
      destruct (existsb (String.eqb m) (map fst rest)); lia.
Qed.

Lemma additions_names (p : ProjectPreferences) :
  map fst (additions p) = requested_names p.
Proof.
  unfold additions, requested_names.
  rewrite !map_app, map_map. cbn [fst]. rewrite map_id.
  destruct (include_docker p), (include_ci_cd p); reflexivity.
Qed.

(** X17: after a successful application, a requested name that had no top-level
    entry has exactly one, and every other count of top-level entries by
    name is as before: a name already present, as a file or as a folder,
    gets no second entry, and a name asked for twice gets one. *)
Theorem apply_preferences_counts (structure : value) (p : ProjectPreferences)
    (structure' : value) :
  apply_preferences structure (Some p) = Ok structure' ->
  forall name,
    count_named name (top_level structure')
    = if is_requested p name
      then Nat.max 1 (count_named name (top_level structure))
      else count_named name (top_level structure).
Proof.
  intros H name.
  destruct (apply_preferences_shape _ _ _ H) as (d & sl0 & sl & -> & Eg & Ea & ->).
  unfold is_requested. rewrite <- additions_names.
  unfold top_level, subscript. rewrite dict_get_set_same, Eg.
  assert (Hother : (forall l, sl0 <> VList l) ->
            count_named name match sl with VList items => items | _ => [] end
            = if existsb (String.eqb name) (map fst (additions p))
              then Nat.max 1 (count_named name
                                match sl0 with VList items => items | _ => [] end)
              else count_named name
                     match sl0 with VList items => items | _ => [] end).
  { intros Hno. destruct (append_all_not_list _ _ _ Hno Ea) as [-> ->].
    reflexivity. }
  destruct sl0 as [| | | | |l|]; try (apply Hother; intros l'; discriminate).
  destruct (append_all_count _ (additions_named p) _ _ Ea) as (l' & -> & Hc).
  apply Hc.
Qed.

Lemma apply_preferences_counts_witness :
  exists structure',
    apply_preferences demo_structure (Some docker_preferences) = Ok structure'
    /\ count_named "assets" (top_level structure') = 1
    /\ count_named "README.md" (top_level structure') = 1.
Proof.
  destruct (apply_preferences_total demo_structure (Some docker_preferences)
              eq_refl) as [structure' H].
  exists structure'. split; [exact H|].
  rewrite !(apply_preferences_counts demo_structure docker_preferences
              structure' H).
  split; reflexivity.
Defined.

Lemma existsb_eqb_in (name : string) (names : list string) :
  In name names -> existsb (String.eqb name) names = true.
Proof.
  intros H. apply existsb_exists. exists name.
  split; [exact H | apply String.eqb_refl].
Qed.

(** X18: from the preference text to the structure: on a validated structure
    the parsed preferences always apply, every custom folder named in the
    text is then a top-level entry, and a text that [str.strip] does not
    empty and that mentions docker once lower-cased gets the three
    container files. *)
Theorem parsed_preferences_applied (str_lower str_strip : string -> string)
    (structure : value) (prefs_text : string) :
  validate_structure structure = Ok true ->
  exists structure',
    apply_preferences structure
      (Some (parse_preferences str_lower str_strip prefs_text))
    = Ok structure'
    /\ (forall name,
           In name (custom_folders
                      (parse_preferences str_lower str_strip prefs_text)) ->
           1 <= count_named name (top_level structure'))
    /\ (str_strip prefs_text <> "" ->
        contains "docker" (str_lower prefs_text) = true ->
        forall name, In name docker_files ->
                     1 <= count_named name (top_level structure')).
Proof.
  intros Hv.
  destruct (apply_preferences_total structure
              (Some (parse_preferences str_lower str_strip prefs_text)) Hv)
    as [structure' H].
  exists structure'. split; [exact H|].
  assert (Hreq : forall name,
             In name (requested_names
                        (parse_preferences str_lower str_strip prefs_text)) ->
             1 <= count_named name (top_level structure')).
  { intros name Hin.
    destruct (apply_preferences_shape _ _ _ H)
      as (d & sl0 & sl & -> & Eg & Ea & ->).
    unfold top_level, subscript. rewrite dict_get_set_same.
    rewrite validate_structure_cases in Hv.
    unfold top_level_items, valid_candidate in Hv.
    destruct (dict_has "name" d && dict_has "structure" d);
      [|destruct (forallb _ _); discriminate Hv].
    rewrite Eg in Hv.
    destruct sl0 as [| | | | |l|]; try discriminate Hv.
    destruct (append_all_count _ (additions_named _) _ _ Ea) as (l' & -> & Hc).
    rewrite Hc, additions_names, (existsb_eqb_in _ _ Hin). lia. }
  split.
  - intros name Hin. apply Hreq. unfold requested_names.
    apply in_or_app. left; exact Hin.
  - intros Hne Hdocker name Hin. apply Hreq. unfold requested_names.
    apply in_or_app. right. apply in_or_app. left.
    unfold parse_preferences.
    destruct (String.eqb_spec (str_strip prefs_text) "") as [E|_];
      [contradiction|].
    cbn [include_docker]. rewrite Hdocker. exact Hin.
Qed.

Lemma parsed_preferences_applied_witness :
  validate_structure demo_structure = Ok true
  /\ strip "Docker please" <> ""
  /\ contains "docker" (lower "Docker please") = true
  /\ exists structure',
       apply_preferences demo_structure
         (Some (parse_preferences lower strip "Docker please")) = Ok structure'
       /\ 1 <= count_named "Dockerfile" (top_level structure').
Proof.
  assert (Hne : strip "Docker please" <> "") by (vm_compute; discriminate).
  split; [reflexivity|]. split; [exact Hne|]. split; [reflexivity|].
  destruct (parsed_preferences_applied lower strip demo_structure
              "Docker please" eq_refl)
    as (structure' & H & _ & Hdocker).
  exists structure'. split; [exact H|].
  apply (Hdocker Hne eq_refl). left; reflexivity.
Defined.
